(** * The FDSN download helpers of ObsPy: a shallow embedding

    This development embeds [obspy/fdsn/download_helpers/download_helpers.py]
    and [obspy/fdsn/download_helpers/download_status.py] and states the
    properties of the download orchestrator over that embedding.

    Conventions.
    - Instants ([UTCDateTime]) and durations (Python floats) are rationals
      ([Q]); arithmetic on them is exact, so rounding is not modelled.
    - A Python [dict] whose iteration order is observable is an association
      list in insertion order.
    - An exception is a value of [exn]; a method that mutates its object and
      may raise returns the object as it was left together with [option exn].
    - The semantics is that of the Python the module was written for
      (2.7 / 3.3): a generator may end with [raise StopIteration]. *)

From Stdlib Require Import String Ascii QArith Qminmax Qround ZArith List Bool Lia Lqa.
From Stdlib Require Import Sorted Permutation.
Import ListNotations.

Local Open Scope string_scope.
Local Open Scope list_scope.
Local Open Scope Q_scope.

(** ** Exceptions *)

Inductive exn : Type :=
| AttributeError
| TypeError
| ValueError
| KeyError
| IndexError
| OSError
| NotImplementedError.

Inductive result (A : Type) : Type :=
| Ok (a : A)
| Raise (e : exn).
Arguments Ok {A} a.
Arguments Raise {A} e.

Definition bind {A B} (m : result A) (f : A -> result B) : result B :=
  match m with
  | Ok a => f a
  | Raise e => Raise e
  end.

Notation "'do' x <- m ; k" := (bind m (fun x => k))
  (at level 10, x name, m at level 100, k at level 200).

(** Truth value of a Python float: only zero is falsy. *)
Definition float_truthy (q : Q) : bool := negb (Qeq_bool q 0).

(** Python's [min(a, b)] and [max(a, b)] return the first argument unless the
    second is strictly smaller (larger); [Qmin] and [Qmax] agree with that up
    to [==]. *)
Definition py_min (a b : Q) : Q := if Qlt_le_dec b a then b else a.
Definition py_max (a b : Q) : Q := if Qlt_le_dec a b then b else a.

(** ** download_helpers.py: [Restrictions] *)

Module Restrictions.

Record t : Type := mk {
  starttime : Q;
  endtime : Q;
  chunklength : option Q;
  network : option string;
  station : option string;
  location : option string;
  channel : option string;
  reject_channels_with_gaps : bool;
  minimum_length : Q;
  channel_priorities : list string;
  location_priorities : list string;
  minimum_interstation_distance_in_m : Q
}.

(** [Restrictions.__init__]: every argument is stored as given.  The
    conversions [obspy.UTCDateTime(...)] and [float(...)] are the identity on
    arguments that are numbers already, as they are here; [chunklength_in_sec]
    is converted only when it is not [None].  Nothing is compared, nothing is
    raised. *)
Definition init (starttime endtime : Q) (chunklength_in_sec : option Q)
    (network station location channel : option string)
    (reject_channels_with_gaps : bool) (minimum_length : Q)
    (minimum_interstation_distance_in_m : Q)
    (channel_priorities location_priorities : list string) : result t :=
  Ok {| starttime := starttime;
        endtime := endtime;
        chunklength := match chunklength_in_sec with
                       | Some c => Some c
                       | None => None
                       end;
        network := network;
        station := station;
        location := location;
        channel := channel;
        reject_channels_with_gaps := reject_channels_with_gaps;
        minimum_length := minimum_length;
        channel_priorities := channel_priorities;
        location_priorities := location_priorities;
        minimum_interstation_distance_in_m :=
          minimum_interstation_distance_in_m |}.

(** The defaults of the constructor. *)
Definition default_channel_priorities : list string :=
  ["HH[Z,N,E]"; "BH[Z,N,E]"; "MH[Z,N,E]"; "EH[Z,N,E]"; "LH[Z,N,E]"].
Definition default_location_priorities : list string :=
  [EmptyString; "00"; "10"].

(** One resumption of the generator [it()] inside [__iter__]: with the local
    [starttime] at [t], either the loop test fails and the generator ends, or
    it yields a pair and advances [t] by [chunklength]. *)
Definition it_next (endtime chunklength t : Q) : option ((Q * Q) * Q) :=
  if Qlt_le_dec t endtime
  then Some ((t, py_min (t + chunklength) endtime), t + chunklength)
  else None.

(** Draining the generator.  [fuel] bounds the number of yields; [None]
    means the generator had not ended after [fuel] yields. *)
Fixpoint it (fuel : nat) (endtime chunklength t : Q) : option (list (Q * Q)) :=
  match it_next endtime chunklength t with
  | None => Some []
  | Some (p, t') =>
      match fuel with
      | O => None
      | S fuel' =>
          match it fuel' endtime chunklength t' with
          | Some l => Some (p :: l)
          | None => None
          end
      end
  end.

(** [Restrictions.__iter__], drained into a list. *)
Definition iter (fuel : nat) (r : t) : option (list (Q * Q)) :=
  match chunklength r with
  | None => Some [(starttime r, endtime r)]
  | Some c =>
      if negb (float_truthy c)
      then Some [(starttime r, endtime r)]
      else it fuel (endtime r) c (starttime r)
  end.





(** The same restrictions with another [chunklength]. *)
Definition with_chunklength (r : t) (c : option Q) : t :=
  mk (starttime r) (endtime r) c (network r) (station r) (location r)
     (channel r) (reject_channels_with_gaps r) (minimum_length r)
     (channel_priorities r) (location_priorities r)
     (minimum_interstation_distance_in_m r).

End Restrictions.

(** ** download_status.py: the state model *)

(** [STATUS = Enum([...])]. *)
Inductive STATUS : Type :=
| NONE
| NEEDS_DOWNLOADING
| DOWNLOADED
| IGNORE
| EXISTS
| DOWNLOAD_FAILED
| DOWNLOAD_REJECTED.

Definition STATUS_eqb (a b : STATUS) : bool :=
  match a, b with
  | NONE, NONE | NEEDS_DOWNLOADING, NEEDS_DOWNLOADING
  | DOWNLOADED, DOWNLOADED | IGNORE, IGNORE | EXISTS, EXISTS
  | DOWNLOAD_FAILED, DOWNLOAD_FAILED
  | DOWNLOAD_REJECTED, DOWNLOAD_REJECTED => true
  | _, _ => false
  end.

(** The value of [interval.filename]: [None] at construction, [True] when the
    storage hint asks to ignore the interval, a path otherwise. *)
Inductive filename_t : Type :=
| NoFilename
| IgnoreFilename
| Path (p : string).

Module TimeInterval.
Record t : Type := mk {
  start : Q;
  end_ : Q;
  filename : filename_t;
  status : STATUS
}.
Definition set_status (i : t) (s : STATUS) : t :=
  mk (start i) (end_ i) (filename i) s.
Definition set_filename (i : t) (f : filename_t) : t :=
  mk (start i) (end_ i) f (status i).
End TimeInterval.

Module Channel.
Record t : Type := mk {
  location : string;
  channel : string;
  intervals : list TimeInterval.t
}.
Definition set_intervals (c : t) (l : list TimeInterval.t) : t :=
  mk (location c) (channel c) l.
End Channel.

(** A key of the three station-information dictionaries: (location, channel). *)
Definition channel_id : Type := (string * string)%type.

Definition channel_id_eqb (a b : channel_id) : bool :=
  String.eqb (fst a) (fst b) && String.eqb (snd a) (snd b).

(** Dictionaries in insertion order.  Assigning to a key that is present
    replaces its value in place. *)
Section Dict.
Context {K V : Type} (keq : K -> K -> bool).

Fixpoint dict_get (d : list (K * V)) (k : K) : option V :=
  match d with
  | [] => None
  | (k', v) :: d' => if keq k' k then Some v else dict_get d' k
  end.

Fixpoint dict_set (d : list (K * V)) (k : K) (v : V) : list (K * V) :=
  match d with
  | [] => [(k, v)]
  | (k', v') :: d' =>
      if keq k' k then (k', v) :: d' else (k', v') :: dict_set d' k v
  end.

Fixpoint dict_del (d : list (K * V)) (k : K) : list (K * V) :=
  match d with
  | [] => []
  | (k', v') :: d' => if keq k' k then d' else (k', v') :: dict_del d' k
  end.

Definition dict_mem (d : list (K * V)) (k : K) : bool :=
  match dict_get d k with Some _ => true | None => false end.
End Dict.

Definition info_dict : Type := list (channel_id * (Q * Q)).

Module Station.
Record t : Type := mk {
  network : string;
  station : string;
  latitude : Q;
  longitude : Q;
  channels : list Channel.t;
  stationxml_filename : option string;
  want_station_information : info_dict;
  miss_station_information : info_dict;
  have_station_information : info_dict
}.
Definition set_channels (s : t) (l : list Channel.t) : t :=
  mk (network s) (station s) (latitude s) (longitude s) l
     (stationxml_filename s) (want_station_information s)
     (miss_station_information s) (have_station_information s).
Definition set_information (s : t) (fn : option string)
    (want miss have : info_dict) : t :=
  mk (network s) (station s) (latitude s) (longitude s) (channels s)
     fn want miss have.
(** [Station.__init__]. *)
Definition init (net sta : string) (lat lon : Q) (chs : list Channel.t) : t :=
  mk net sta lat lon chs None [] [] [].
End Station.

Definition station_id : Type := (string * string)%type.
Definition station_id_eqb (a b : station_id) : bool :=
  String.eqb (fst a) (fst b) && String.eqb (snd a) (snd b).

(** ** The file system *)

(** One row of what [utils.get_stationxml_contents] reports for a file. *)
Record ChannelInfo : Type := mkChannelInfo {
  ci_network : string;
  ci_station : string;
  ci_location : string;
  ci_channel : string;
  ci_starttime : Q;
  ci_endtime : Q
}.

(** What the helpers observe of a file: its size, what
    [obspy.read(..., headonly=True)] makes of it ([None]: it raises; otherwise
    the start and end time of every trace), and its StationXML rows. *)
Record file : Type := mkFile {
  size : Z;
  waveform : option (list (Q * Q));
  inventory : list ChannelInfo
}.

Definition filesystem : Type := string -> option file.

Definition os_path_exists (fs : filesystem) (p : string) : bool :=
  match fs p with Some _ => true | None => false end.

(** Modelled from the spec: [utils.safe_delete], which lives in the missing
    [utils] module, deletes the file at the given path (section 4.3: "delete
    the waveform file"); deleting an absent file is not an error. *)
Definition safe_delete (p : string) (fs : filesystem) : filesystem :=
  fun p' => if String.eqb p p' then None else fs p'.

Definition write_file (p : string) (f : file) (fs : filesystem) : filesystem :=
  fun p' => if String.eqb p p' then Some f else fs p'.

(** ** Traversals that mutate in place *)

(** A [for] loop over a list of objects whose body mutates the current
    object and some outer state and may raise: the loop stops at the first
    exception, the objects not yet visited are as they were. *)
Fixpoint for_each {S A : Type} (body : S -> A -> S * A * option exn)
    (s : S) (l : list A) : S * list A * option exn :=
  match l with
  | [] => (s, [], None)
  | a :: l' =>
      match body s a with
      | (s1, a1, Some e) => (s1, a1 :: l', Some e)
      | (s1, a1, None) =>
          match for_each body s1 l' with
          | (s2, l2, e) => (s2, a1 :: l2, e)
          end
      end
  end.

(** ** [ClientDownloadHelper._check_downloaded_data] *)

Inductive log_event : Type :=
| ZeroByteFile (p : string)
| CouldNotRead (p : string)
| EmptyFile (p : string)
| HasOnlySeconds (p : string) (duration expected : Q).

Record qc : Type := mkQc {
  qc_fs : filesystem;
  downloaded_bytes : Z;
  discarded_bytes : Z;
  logged : list log_event
}.

(** [len(str)]: the length of the type [str] itself, evaluated for the log
    message of the gap branch. *)
Definition len_of_type_str : result nat := Raise TypeError.

Definition sum_durations (st : list (Q * Q)) : Q :=
  fold_left (fun acc tr => acc + (snd tr - fst tr)) st 0.

(** The body of the innermost loop.  An interval that is
    [NEEDS_DOWNLOADING] carries a path, as [prepare_mseed_download] leaves
    it; [os.path.exists] on another value is taken to raise, as it does on
    [None]. *)
Definition check_interval (r : Restrictions.t) (q : qc) (i : TimeInterval.t)
    : qc * TimeInterval.t * option exn :=
  if negb (STATUS_eqb (TimeInterval.status i) NEEDS_DOWNLOADING)
  then (q, i, None)
  else
    match TimeInterval.filename i with
    | NoFilename | IgnoreFilename => (q, i, Some TypeError)
    | Path p =>
        match qc_fs q p with
        | None => (q, TimeInterval.set_status i DOWNLOAD_FAILED, None)
        | Some f =>
            if (size f =? 0)%Z then
              (mkQc (safe_delete p (qc_fs q)) (downloaded_bytes q)
                    (discarded_bytes q) (logged q ++ [ZeroByteFile p]),
               TimeInterval.set_status i DOWNLOAD_FAILED, None)
            else
              match waveform f with
              | None =>
                  (mkQc (safe_delete p (qc_fs q)) (downloaded_bytes q)
                        (discarded_bytes q + size f)%Z
                        (logged q ++ [CouldNotRead p]),
                   TimeInterval.set_status i DOWNLOAD_FAILED, None)
              | Some st =>
                  if (length st =? 0)%nat then
                    (mkQc (safe_delete p (qc_fs q)) (downloaded_bytes q)
                          (discarded_bytes q + size f)%Z
                          (logged q ++ [EmptyFile p]),
                     TimeInterval.set_status i DOWNLOAD_FAILED, None)
                  else if Restrictions.reject_channels_with_gaps r
                          && (1 <? length st)%nat then
                    match len_of_type_str with
                    | Raise e => (q, i, Some e)
                    | Ok _ =>
                        (mkQc (safe_delete p (qc_fs q)) (downloaded_bytes q)
                              (discarded_bytes q + size f)%Z (logged q),
                         TimeInterval.set_status i DOWNLOAD_REJECTED, None)
                    end
                  else if float_truthy (Restrictions.minimum_length r) then
                    let duration := sum_durations st in
                    let expected_min_duration :=
                      Restrictions.minimum_length r *
                      (TimeInterval.end_ i - TimeInterval.start i) in
                    let logged' :=
                      if Qlt_le_dec duration expected_min_duration
                      then logged q ++
                           [HasOnlySeconds p duration expected_min_duration]
                      else logged q in
                    (mkQc (safe_delete p (qc_fs q)) (downloaded_bytes q)
                          (discarded_bytes q + size f)%Z logged',
                     TimeInterval.set_status i DOWNLOAD_REJECTED, None)
                  else
                    (mkQc (qc_fs q) (downloaded_bytes q + size f)%Z
                          (discarded_bytes q) (logged q),
                     TimeInterval.set_status i DOWNLOADED, None)
              end
        end
    end.

Definition check_channel (r : Restrictions.t) (q : qc) (c : Channel.t)
    : qc * Channel.t * option exn :=
  match for_each (check_interval r) q (Channel.intervals c) with
  | (q', l, e) => (q', Channel.set_intervals c l, e)
  end.

Definition check_station (r : Restrictions.t) (q : qc) (s : Station.t)
    : qc * Station.t * option exn :=
  match for_each (check_channel r) q (Station.channels s) with
  | (q', l, e) => (q', Station.set_channels s l, e)
  end.

(** Lifting a loop body over stations to [self.stations.values()]. *)
Definition on_value {S : Type} (body : S -> Station.t -> S * Station.t * option exn)
    (s : S) (kv : station_id * Station.t)
    : S * (station_id * Station.t) * option exn :=
  match body s (snd kv) with
  | (s', v', e) => (s', (fst kv, v'), e)
  end.

(** [_check_downloaded_data], on [self.restrictions] and [self.stations].
    On normal return the caller receives
    [(downloaded_bytes, discarded_bytes)]. *)
Definition _check_downloaded_data (r : Restrictions.t) (fs : filesystem)
    (stations : list (station_id * Station.t))
    : qc * list (station_id * Station.t) * option exn :=
  for_each (on_value (check_station r)) (mkQc fs 0 0 []) stations.

(** *** The frame of the QC pass *)

(** What QC may do to an interval: times and filename stay; an interval that
    is not [NEEDS_DOWNLOADING] stays as it is. *)
Definition interval_frame (i i' : TimeInterval.t) : Prop :=
  TimeInterval.start i' = TimeInterval.start i /\
  TimeInterval.end_ i' = TimeInterval.end_ i /\
  TimeInterval.filename i' = TimeInterval.filename i /\
  (TimeInterval.status i <> NEEDS_DOWNLOADING -> i' = i).



(** The paths QC is entitled to look at: those planned for an interval that
    is [NEEDS_DOWNLOADING]. *)
Definition interval_pending (i : TimeInterval.t) (p : string) : Prop :=
  TimeInterval.status i = NEEDS_DOWNLOADING /\ TimeInterval.filename i = Path p.

Definition channel_pending (c : Channel.t) (p : string) : Prop :=
  exists i, In i (Channel.intervals c) /\ interval_pending i p.

Definition station_pending (s : Station.t) (p : string) : Prop :=
  exists c, In c (Station.channels s) /\ channel_pending c p.


Definition entry_pending (kv : station_id * Station.t) (p : string) : Prop :=
  station_pending (snd kv) p.

Definition pending (stations : list (station_id * Station.t)) (p : string)
    : Prop :=
  exists kv, In kv stations /\ entry_pending kv p.



Definition r_zero_chunk : Restrictions.t :=
  Restrictions.mk 0 86400 (Some 0) None None None None true (9 # 10)
    Restrictions.default_channel_priorities
    Restrictions.default_location_priorities 1000.

(** ** [Channel] and [Station] properties *)

(** [min] and [max] of a list: [ValueError] on the empty list. *)
Definition min_list (l : list Q) : result Q :=
  match l with
  | [] => Raise ValueError
  | x :: l' => Ok (fold_left py_min l' x)
  end.

Definition max_list (l : list Q) : result Q :=
  match l with
  | [] => Raise ValueError
  | x :: l' => Ok (fold_left py_max l' x)
  end.

Definition status_wants_information (s : STATUS) : bool :=
  STATUS_eqb s DOWNLOADED || STATUS_eqb s EXISTS.

(** [Channel.wants_station_information]. *)
Definition wants_station_information (c : Channel.t) : bool :=
  existsb (fun i => status_wants_information (TimeInterval.status i))
          (Channel.intervals c).

(** [Channel.temporal_bounds]. *)
Definition channel_temporal_bounds (c : Channel.t) : result (Q * Q) :=
  do s <- min_list (map TimeInterval.start (Channel.intervals c));
  do e <- max_list (map TimeInterval.end_ (Channel.intervals c));
  Ok (s, e).

Fixpoint collect_bounds (l : list Channel.t) : result (list (Q * Q)) :=
  match l with
  | [] => Ok []
  | c :: l' =>
      do b <- channel_temporal_bounds c;
      do bs <- collect_bounds l';
      Ok (b :: bs)
  end.

(** [Station.temporal_bounds]. *)
Definition station_temporal_bounds (s : Station.t) : result (Q * Q) :=
  do bs <- collect_bounds (Station.channels s);
  do lo <- min_list (map fst bs);
  do hi <- max_list (map snd bs);
  Ok (lo, hi).

(** ** Station information *)

(** The answer of [utils.get_stationxml_filename]: a path, or the
    dictionary form. *)
Inductive stationxml_answer : Type :=
| StorageString (filename : string)
| StorageDict.

Definition stationxml_storage_t : Type :=
  string -> string -> list channel_id -> Q -> Q -> stationxml_answer.

(** The rows of [info] that belong to one channel of one station. *)
Definition c_info (info : list ChannelInfo) (net sta : string)
    (c_id : channel_id) : list ChannelInfo :=
  filter (fun i => String.eqb (ci_network i) net
                   && String.eqb (ci_station i) sta
                   && String.eqb (ci_location i) (fst c_id)
                   && String.eqb (ci_channel i) (snd c_id)) info.

Definition Qltb (a b : Q) : bool := if Qlt_le_dec a b then true else false.

(** [starttime > times[0] or endtime < times[1]] for the non-empty rows
    [r0 :: rs] of a channel. *)
Definition too_narrow (r0 : ChannelInfo) (rs : list ChannelInfo)
    (times : Q * Q) : bool :=
  let starttime := fold_left py_min (map ci_starttime rs) (ci_starttime r0) in
  let endtime := fold_left py_max (map ci_endtime rs) (ci_endtime r0) in
  Qltb (fst times) starttime || Qltb endtime (snd times).

(** The [for ... else] loop of [Station.prepare_stationxml_download]:
    [true] when the loop ends without [break]. *)
Fixpoint file_has_all (info : list ChannelInfo) (net sta : string)
    (want : info_dict) : bool :=
  match want with
  | [] => true
  | (c_id, times) :: rest =>
      match c_info info net sta c_id with
      | [] => false
      | r0 :: rs =>
          if too_narrow r0 rs times then false
          else file_has_all info net sta rest
      end
  end.

(** The first loop of [Station.prepare_stationxml_download]. *)
Fixpoint build_want (l : list Channel.t) (want : info_dict)
    : info_dict * option exn :=
  match l with
  | [] => (want, None)
  | c :: l' =>
      if negb (wants_station_information c) then build_want l' want
      else
        match channel_temporal_bounds c with
        | Raise e => (want, Some e)
        | Ok b =>
            build_want l'
              (dict_set channel_id_eqb want
                 (Channel.location c, Channel.channel c) b)
        end
  end.

(** [Station.prepare_stationxml_download]. *)
Definition prepare_stationxml_download (stationxml_storage : stationxml_storage_t)
    (fs : filesystem) (s : Station.t) : Station.t * option exn :=
  let (want, e) := build_want (Station.channels s) [] in
  let s1 := Station.set_information s (Station.stationxml_filename s) want
              (Station.miss_station_information s)
              (Station.have_station_information s) in
  match e with
  | Some x => (s1, Some x)
  | None =>
      match station_temporal_bounds s1 with
      | Raise x => (s1, Some x)
      | Ok (t0, t1) =>
          match stationxml_storage (Station.network s1) (Station.station s1)
                  (map (fun c => (Channel.location c, Channel.channel c))
                       (Station.channels s1)) t0 t1 with
          | StorageDict => (s1, Some NotImplementedError)
          | StorageString filename =>
              match fs filename with
              | None =>
                  (Station.set_information s1 (Some filename) want want [], None)
              | Some f =>
                  if file_has_all (inventory f) (Station.network s1)
                       (Station.station s1) want
                  then (Station.set_information s1 (Some filename) want [] want,
                        None)
                  else (Station.set_information s1 (Some filename) want want [],
                        None)
              end
          end
      end
  end.

(** The loop of [ClientDownloadHelper.download_stationxml] over
    [station.miss_station_information.items()], threading
    [station.have_station_information] and [still_missing]. *)
Fixpoint update_missing (info : list ChannelInfo) (net sta : string)
    (items : info_dict) (have still_missing : info_dict)
    : info_dict * info_dict :=
  match items with
  | [] => (have, still_missing)
  | (c_id, times) :: rest =>
      match c_info info net sta c_id with
      | [] => (have, still_missing)
      | r0 :: rs =>
          if too_narrow r0 rs times
          then update_missing info net sta rest have
                 (dict_set channel_id_eqb still_missing c_id times)
          else update_missing info net sta rest
                 (dict_set channel_id_eqb have c_id times) still_missing
      end
  end.

(** The body of the loop [for s_id, filename in results]: the station is
    the one stored under [s_id], [info] the rows of the written file. *)
Definition update_station (info : list ChannelInfo) (s : Station.t) : Station.t :=
  let (have, still_missing) :=
    update_missing info (Station.network s) (Station.station s)
      (Station.miss_station_information s)
      (Station.have_station_information s) [] in
  Station.set_information s (Station.stationxml_filename s)
    (Station.want_station_information s) still_missing have.

(** [want_station_information] is the disjoint union of the other two. *)
Definition information_consistent (s : Station.t) : Prop :=
  forall k,
    match dict_get channel_id_eqb (Station.want_station_information s) k with
    | Some v =>
        (dict_get channel_id_eqb (Station.have_station_information s) k = Some v
         /\ dict_get channel_id_eqb (Station.miss_station_information s) k = None)
        \/
        (dict_get channel_id_eqb (Station.have_station_information s) k = None
         /\ dict_get channel_id_eqb (Station.miss_station_information s) k = Some v)
    | None =>
        dict_get channel_id_eqb (Station.have_station_information s) k = None /\
        dict_get channel_id_eqb (Station.miss_station_information s) k = None
    end.

(** ** [Station.sanitize_downloads] *)

(** What the method needs of the logger it is handed: whether the object
    has an attribute [warnings].  A [logging.Logger] has [warning] and [warn]
    only. *)
Record Logger : Type := mkLogger { has_warnings : bool }.

Definition logging_Logger : Logger := mkLogger false.

Definition logger_warnings (lg : Logger) : result unit :=
  if has_warnings lg then Ok tt else Raise AttributeError.

(** The subscripts a list is indexed with in this module. *)
Inductive subscript : Type :=
| IntIndex (n : nat)
| TupleIndex (id : channel_id).

(** [list.__getitem__]: a list accepts integers (and slices) only. *)
Definition list_getitem {A : Type} (l : list A) (k : subscript)
    : result (nat * A) :=
  match k with
  | TupleIndex _ => Raise TypeError
  | IntIndex n =>
      match nth_error l n with
      | Some a => Ok (n, a)
      | None => Raise IndexError
      end
  end.

Fixpoint list_setitem {A : Type} (l : list A) (n : nat) (a : A) : list A :=
  match l, n with
  | [], _ => []
  | _ :: l', O => a :: l'
  | x :: l', S n' => x :: list_setitem l' n' a
  end.

Definition delete_filename (f : filename_t) (fs : filesystem) : filesystem :=
  match f with
  | Path p => safe_delete p fs
  | _ => fs
  end.

(** The inner loop: only downloaded intervals are touched. *)
Fixpoint reject_downloaded (fs : filesystem) (l : list TimeInterval.t)
    : filesystem * list TimeInterval.t :=
  match l with
  | [] => (fs, [])
  | i :: l' =>
      if STATUS_eqb (TimeInterval.status i) DOWNLOADED then
        let (fs', l2) :=
          reject_downloaded (delete_filename (TimeInterval.filename i) fs) l' in
        (fs', TimeInterval.set_status i DOWNLOAD_REJECTED :: l2)
      else
        let (fs', l2) := reject_downloaded fs l' in (fs', i :: l2)
  end.

(** The loop [for id in self.miss_station_information]. *)
Fixpoint sanitize_loop (lg : Logger) (ids : list channel_id)
    (fs : filesystem) (s : Station.t) : filesystem * Station.t * option exn :=
  match ids with
  | [] => (fs, s, None)
  | id :: rest =>
      match logger_warnings lg with
      | Raise e => (fs, s, Some e)
      | Ok _ =>
          match list_getitem (Station.channels s) (TupleIndex id) with
          | Raise e => (fs, s, Some e)
          | Ok (n, channel) =>
              let (fs', l) := reject_downloaded fs (Channel.intervals channel) in
              sanitize_loop lg rest fs'
                (Station.set_channels s
                   (list_setitem (Station.channels s) n
                      (Channel.set_intervals channel l)))
          end
      end
  end.

(** [Station.sanitize_downloads]. *)
Definition station_sanitize_downloads (lg : Logger) (fs : filesystem)
    (s : Station.t) : filesystem * Station.t * option exn :=
  sanitize_loop lg (map fst (Station.miss_station_information s)) fs s.

(** The invariant the method is meant to establish. *)
Definition has_downloaded (s : Station.t) : Prop :=
  exists c i, In c (Station.channels s) /\ In i (Channel.intervals c) /\
              TimeInterval.status i = DOWNLOADED.

(** ** Priority filters *)

(** Shell-style patterns as [fnmatch] reads them: [*], [?], [[seq]] and
    [[!seq]], where [seq] may hold ranges. *)
Inductive glob_token : Type :=
| GStar
| GAny
| GChar (c : ascii)
| GSet (negated : bool) (items : list (ascii * ascii)).

Fixpoint split_at_bracket (l : list ascii) : option (list ascii * list ascii) :=
  match l with
  | [] => None
  | c :: l' =>
      if Ascii.eqb c "]" then Some ([], l')
      else match split_at_bracket l' with
           | Some (a, b) => Some (c :: a, b)
           | None => None
           end
  end.

(** The text after an opening bracket: negation mark, set, rest of the
    pattern; [None] when the bracket is never closed. *)
Definition bracket (l : list ascii)
    : option (bool * list ascii * list ascii) :=
  let (neg, l1) :=
    match l with
    | c :: l' => if Ascii.eqb c "!" then (true, l') else (false, l)
    | [] => (false, l)
    end in
  match l1 with
  | c :: l2 =>
      if Ascii.eqb c "]" then
        match split_at_bracket l2 with
        | Some (a, b) => Some (neg, c :: a, b)
        | None => None
        end
      else
        match split_at_bracket l1 with
        | Some (a, b) => Some (neg, a, b)
        | None => None
        end
  | [] => None
  end.

Fixpoint set_items (l : list ascii) : list (ascii * ascii) :=
  match l with
  | [] => []
  | a :: l1 =>
      match l1 with
      | d :: b :: l3 =>
          if Ascii.eqb d "-" then (a, b) :: set_items l3
          else (a, a) :: set_items l1
      | _ => (a, a) :: set_items l1
      end
  end.

Fixpoint glob_tokens (fuel : nat) (pat : list ascii) : list glob_token :=
  match fuel with
  | O => []
  | S fuel' =>
      match pat with
      | [] => []
      | c :: rest =>
          if Ascii.eqb c "*" then GStar :: glob_tokens fuel' rest
          else if Ascii.eqb c "?" then GAny :: glob_tokens fuel' rest
          else if Ascii.eqb c "[" then
            match bracket rest with
            | Some (neg, stuff, rest') =>
                GSet neg (set_items stuff) :: glob_tokens fuel' rest'
            | None => GChar c :: glob_tokens fuel' rest
            end
          else GChar c :: glob_tokens fuel' rest
      end
  end.

Definition in_set (items : list (ascii * ascii)) (c : ascii) : bool :=
  existsb (fun r => Ascii.leb (fst r) c && Ascii.leb c (snd r)) items.

Fixpoint glob_match (ts : list glob_token) (name : list ascii) : bool :=
  match ts with
  | [] => match name with [] => true | _ :: _ => false end
  | GStar :: ts' =>
      (fix star (n : list ascii) : bool :=
         glob_match ts' n ||
         match n with
         | [] => false
         | _ :: n' => star n'
         end) name
  | GAny :: ts' =>
      match name with
      | [] => false
      | _ :: n' => glob_match ts' n'
      end
  | GChar c :: ts' =>
      match name with
      | [] => false
      | d :: n' => Ascii.eqb c d && glob_match ts' n'
      end
  | GSet neg items :: ts' =>
      match name with
      | [] => false
      | d :: n' => xorb neg (in_set items d) && glob_match ts' n'
      end
  end.

Definition fnmatch (name pat : string) : bool :=
  let p := list_ascii_of_string pat in
  glob_match (glob_tokens (length p) p) (list_ascii_of_string name).

(** Modelled from the spec: [utils.filter_channel_priority], which lives in
    the missing [utils] module.  Section 4.3: the priorities are "a
    first-match-wins glob list" over the chosen attribute; the first pattern
    that matches some channel selects the channels it matches, and nothing
    is kept when no pattern matches. *)
Fixpoint filter_channel_priority (channels : list Channel.t)
    (key : Channel.t -> string) (priorities : list string) : list Channel.t :=
  match priorities with
  | [] => []
  | pat :: rest =>
      match filter (fun c => fnmatch (key c) pat) channels with
      | [] => filter_channel_priority channels key rest
      | kept => kept
      end
  end.

(** ** [ClientDownloadHelper.get_availability] *)

(** The channel-level inventory a provider answers with. *)
Record InvChannel : Type := mkInvChannel {
  location_code : string;
  code : string;
  start_date : Q;
  end_date : Q;
  data_availability : option (Q * Q)
}.

Record InvStation : Type := mkInvStation {
  sta_code : string;
  sta_latitude : Q;
  sta_longitude : Q;
  sta_channels : list InvChannel
}.

Record InvNetwork : Type := mkInvNetwork {
  net_code : string;
  net_stations : list InvStation
}.

(** The keyword arguments of [client.get_stations]. *)
Record query : Type := mkQuery {
  q_network : option string;
  q_station : option string;
  q_location : option string;
  q_channel : option string;
  q_starttime : Q;
  q_endtime : Q;
  q_matchtimeseries : bool;
  q_includeavailability : bool;
  q_domain : list (string * Q)
}.

Inductive get_stations_answer : Type :=
| Inventory (inv : list InvNetwork)
| NoDataAvailable
| OtherError.

(** One entry of a bulk waveform request, with the planned filename. *)
Definition chunk_item : Type :=
  (string * string * string * string * Q * Q * filename_t)%type.

Definition bulk_item : Type := (string * string * string * string * Q * Q)%type.

(** A provider.  [get_waveforms_bulk] is the effect on the file system of
    [utils.download_and_split_mseed_bulk] for one chunk, errors included
    (they are caught by the caller); [get_stations_bulk] that of
    [utils.download_stationxml], [None] when it fails. *)
Record Client : Type := mkClient {
  services_station : list string;
  get_stations : query -> get_stations_answer;
  get_waveforms_bulk : list chunk_item -> filesystem -> filesystem;
  get_stations_bulk : list bulk_item -> string -> filesystem -> option filesystem
}.

Record Domain : Type := mkDomain {
  is_in_domain : option (Q -> Q -> bool);
  get_query_parameters : list (string * Q)
}.

Definition OVERWRITE_CAPABILITIES : list (string * option string) :=
  [("resif", None)].

Definition lower_ascii (c : ascii) : ascii :=
  if Ascii.leb "A" c && Ascii.leb c "Z"
  then ascii_of_nat (nat_of_ascii c + 32)
  else c.

Definition upper_ascii (c : ascii) : ascii :=
  if Ascii.leb "a" c && Ascii.leb c "z"
  then ascii_of_nat (nat_of_ascii c - 32)
  else c.

Fixpoint lower (s : string) : string :=
  match s with
  | EmptyString => EmptyString
  | String c s' => String (lower_ascii c) (lower s')
  end.

Definition string_in (x : string) (l : list string) : bool :=
  existsb (String.eqb x) l.

Module Helper.
(** The mutable attributes of a [ClientDownloadHelper]. *)
Record t : Type := mk {
  client_name : string;
  restrictions : Restrictions.t;
  stations : list (station_id * Station.t);
  is_availability_reliable : option bool
}.
Definition set_stations (h : t) (l : list (station_id * Station.t)) : t :=
  mk (client_name h) (restrictions h) l (is_availability_reliable h).
(** [ClientDownloadHelper.__init__]. *)
Definition init (name : string) (r : Restrictions.t) : t := mk name r [] None.
(** [__len__] and [__bool__]. *)
Definition len (h : t) : nat := length (stations h).
Definition truthy (h : t) : bool := negb (len h =? 0)%nat.
End Helper.

(** How the capabilities of the service decide the query flags:
    (reliable, matchtimeseries, includeavailability). *)
Definition capabilities (name : string) (c : Client)
    : result (bool * bool * bool) :=
  match dict_get String.eqb OVERWRITE_CAPABILITIES (lower name) with
  | Some None => Ok (false, false, false)
  | Some (Some cap) =>
      if String.eqb cap "matchtimeseries" then Ok (true, true, false)
      else if String.eqb cap "includeavailability" then Ok (true, false, true)
      else Raise NotImplementedError
  | None =>
      if string_in "matchtimeseries" (services_station c)
      then Ok (true, true, false)
      else if string_in "includeavailability" (services_station c)
      then Ok (true, false, true)
      else Ok (false, false, false)
  end.

(** The channels of one inventory station that pass the temporal tests. *)
Fixpoint candidate_channels (r : Restrictions.t) (includeavailability : bool)
    (intervals : list TimeInterval.t) (l : list InvChannel) : list Channel.t :=
  match l with
  | [] => []
  | channel :: l' =>
      let rest := candidate_channels r includeavailability intervals l' in
      if Qltb (Restrictions.starttime r) (start_date channel)
         || Qltb (end_date channel) (Restrictions.endtime r)
      then rest
      else if includeavailability then
        match data_availability channel with
        | None => rest
        | Some da =>
            if Qltb (Restrictions.starttime r) (fst da)
               || Qltb (snd da) (Restrictions.endtime r)
            then rest
            else Channel.mk (location_code channel) (code channel) intervals
                 :: rest
        end
      else Channel.mk (location_code channel) (code channel) intervals :: rest
  end.

(** [sorted(channels, key=get_loc)]: a stable sort on the location code. *)
Fixpoint insert_by_location (c : Channel.t) (l : list Channel.t)
    : list Channel.t :=
  match l with
  | [] => [c]
  | d :: l' =>
      if String.ltb (Channel.location c) (Channel.location d)
      then c :: l
      else d :: insert_by_location c l'
  end.

Definition sorted_by_location (l : list Channel.t) : list Channel.t :=
  fold_left (fun acc c => insert_by_location c acc) l [].

(** [itertools.groupby] on the location code: runs of equal keys. *)
Fixpoint groupby_location (l : list Channel.t) : list (list Channel.t) :=
  match l with
  | [] => []
  | c :: l' =>
      match groupby_location l' with
      | (d :: g) :: gs =>
          if String.eqb (Channel.location c) (Channel.location d)
          then (c :: d :: g) :: gs
          else [c] :: (d :: g) :: gs
      | gs => [c] :: gs
      end
  end.

(** The two priority filters, as [get_availability] applies them to the
    channels of one station. *)
Definition apply_priorities (r : Restrictions.t) (channels : list Channel.t)
    : list Channel.t :=
  let filtered_channels :=
    flat_map (fun _channels =>
                filter_channel_priority _channels Channel.channel
                  (Restrictions.channel_priorities r))
             (groupby_location (sorted_by_location channels)) in
  filter_channel_priority filtered_channels Channel.location
    (Restrictions.location_priorities r).

(** The loop over the stations of one network. *)
Fixpoint install_stations (r : Restrictions.t) (d : Domain)
    (includeavailability : bool) (intervals : list TimeInterval.t)
    (net : string) (l : list InvStation)
    (stations : list (station_id * Station.t))
    : list (station_id * Station.t) :=
  match l with
  | [] => stations
  | station :: l' =>
      let skip :=
        match is_in_domain d with
        | Some inside => negb (inside (sta_latitude station) (sta_longitude station))
        | None => false
        end in
      if skip then
        install_stations r d includeavailability intervals net l' stations
      else
        match apply_priorities r
                (candidate_channels r includeavailability intervals
                   (sta_channels station)) with
        | [] =>
            install_stations r d includeavailability intervals net l' stations
        | channels =>
            install_stations r d includeavailability intervals net l'
              (dict_set station_id_eqb stations (net, sta_code station)
                 (Station.init net (sta_code station) (sta_latitude station)
                    (sta_longitude station) channels))
        end
  end.

Fixpoint install_networks (r : Restrictions.t) (d : Domain)
    (includeavailability : bool) (intervals : list TimeInterval.t)
    (inv : list InvNetwork) (stations : list (station_id * Station.t))
    : list (station_id * Station.t) :=
  match inv with
  | [] => stations
  | network :: inv' =>
      install_networks r d includeavailability intervals inv'
        (install_stations r d includeavailability intervals (net_code network)
           (net_stations network) stations)
  end.

(** [ClientDownloadHelper.get_availability].  The outer [option] is [None]
    when the iteration over the restrictions has not ended within [fuel]
    yields. *)
Definition get_availability (fuel : nat) (c : Client) (d : Domain)
    (h : Helper.t) : option (Helper.t * option exn) :=
  let r := Helper.restrictions h in
  match capabilities (Helper.client_name h) c with
  | Raise e => Some (h, Some e)
  | Ok (reliable, matchtimeseries, includeavailability) =>
      let h1 := Helper.mk (Helper.client_name h) r (Helper.stations h)
                  (Some reliable) in
      match get_stations c
              (mkQuery (Restrictions.network r) (Restrictions.station r)
                 (Restrictions.location r) (Restrictions.channel r)
                 (Restrictions.starttime r) (Restrictions.endtime r)
                 matchtimeseries includeavailability
                 (get_query_parameters d)) with
      | NoDataAvailable | OtherError => Some (h1, None)
      | Inventory inv =>
          match Restrictions.iter fuel r with
          | None => None
          | Some pairs =>
              let intervals :=
                map (fun p => TimeInterval.mk (fst p) (snd p) NoFilename NONE)
                    pairs in
              Some (Helper.set_stations h1
                      (install_networks r d includeavailability intervals inv
                         (Helper.stations h1)),
                    None)
          end
      end
  end.

(** ** The remaining methods of [ClientDownloadHelper] *)

(** [ClientDownloadHelper.discard_stations]. *)
Definition discard_stations (h : Helper.t) (station_ids : list station_id)
    : Helper.t :=
  Helper.set_stations h
    (fold_left (fun d k => dict_del station_id_eqb d k) station_ids
               (Helper.stations h)).

(** The answer of [utils.get_mseed_filename]: [True], or a path. *)
Inductive mseed_answer : Type :=
| MseedIgnore
| MseedPath (p : string).

Definition mseed_storage_t : Type :=
  string -> string -> string -> string -> Q -> Q -> mseed_answer.

(** [Station.prepare_mseed_download]. *)
Definition prepare_interval (mseed_storage : mseed_storage_t) (fs : filesystem)
    (net sta loc cha : string) (i : TimeInterval.t) : TimeInterval.t :=
  match mseed_storage net sta loc cha (TimeInterval.start i)
          (TimeInterval.end_ i) with
  | MseedIgnore =>
      TimeInterval.mk (TimeInterval.start i) (TimeInterval.end_ i)
        IgnoreFilename IGNORE
  | MseedPath p =>
      TimeInterval.mk (TimeInterval.start i) (TimeInterval.end_ i) (Path p)
        (if os_path_exists fs p then EXISTS else NEEDS_DOWNLOADING)
  end.

Definition station_prepare_mseed_download (mseed_storage : mseed_storage_t)
    (fs : filesystem) (s : Station.t) : Station.t :=
  Station.set_channels s
    (map (fun c =>
            Channel.set_intervals c
              (map (prepare_interval mseed_storage fs (Station.network s)
                      (Station.station s) (Channel.location c)
                      (Channel.channel c))
                   (Channel.intervals c)))
         (Station.channels s)).

(** [ClientDownloadHelper.prepare_mseed_download]. *)
Definition prepare_mseed_download (mseed_storage : mseed_storage_t)
    (fs : filesystem) (h : Helper.t) : Helper.t :=
  Helper.set_stations h
    (map (fun kv => (fst kv, station_prepare_mseed_download mseed_storage fs
                                (snd kv)))
         (Helper.stations h)).

(** The table [channel_sampling_rate] of [download_mseed]. *)
Definition channel_sampling_rate (band_code : ascii) : option Q :=
  if Ascii.eqb band_code "F" then Some 5000
  else if Ascii.eqb band_code "G" then Some 5000
  else if Ascii.eqb band_code "D" then Some 1000
  else if Ascii.eqb band_code "C" then Some 1000
  else if Ascii.eqb band_code "E" then Some 250
  else if Ascii.eqb band_code "S" then Some 80
  else if Ascii.eqb band_code "H" then Some 250
  else if Ascii.eqb band_code "B" then Some 80
  else if Ascii.eqb band_code "M" then Some 10
  else if Ascii.eqb band_code "L" then Some 1
  else if Ascii.eqb band_code "V" then Some (1 # 10)
  else if Ascii.eqb band_code "U" then Some (1 # 100)
  else if Ascii.eqb band_code "R" then Some (1 # 1000)
  else if Ascii.eqb band_code "P" then Some (1 # 10000)
  else if Ascii.eqb band_code "T" then Some (1 # 100000)
  else if Ascii.eqb band_code "Q" then Some (1 # 1000000)
  else if Ascii.eqb band_code "A" then Some 5000
  else if Ascii.eqb band_code "O" then Some 5000
  else None.

(** The state of the chunking loop: [chunks], [chunks_curr],
    [curr_chunks_mb]. *)
Definition chunking : Type :=
  (list (list chunk_item) * list chunk_item * Q)%type.

Definition chunk_interval (chunk_size_in_mb sr : Q) (net sta loc cha : string)
    (st : chunking) (i : TimeInterval.t) : chunking :=
  let '(chunks, chunks_curr, curr_chunks_mb) := st in
  if negb (STATUS_eqb (TimeInterval.status i) NEEDS_DOWNLOADING) then st
  else
    let chunks_curr' :=
      chunks_curr ++ [(net, sta, loc, cha, TimeInterval.start i,
                       TimeInterval.end_ i, TimeInterval.filename i)] in
    let duration := TimeInterval.end_ i - TimeInterval.start i in
    let mb := curr_chunks_mb + sr * duration * 4 / 3 / 1024 / 1024 in
    if Qltb mb chunk_size_in_mb
    then (chunks, chunks_curr', mb)
    else (chunks ++ [chunks_curr'], [], 0).

Fixpoint chunk_channels (chunk_size_in_mb : Q) (net sta : string)
    (l : list Channel.t) (st : chunking) : result chunking :=
  match l with
  | [] => Ok st
  | cha :: l' =>
      match Channel.channel cha with
      | EmptyString => Raise IndexError
      | String c _ =>
          let sr := match channel_sampling_rate (upper_ascii c) with
                    | Some sr => sr
                    | None => 1
                    end in
          chunk_channels chunk_size_in_mb net sta l'
            (fold_left (chunk_interval chunk_size_in_mb sr net sta
                          (Channel.location cha) (Channel.channel cha))
                       (Channel.intervals cha) st)
      end
  end.

Fixpoint chunk_stations (chunk_size_in_mb : Q) (l : list Station.t)
    (st : chunking) : result chunking :=
  match l with
  | [] => Ok st
  | sta :: l' =>
      do st' <- chunk_channels chunk_size_in_mb (Station.network sta)
                  (Station.station sta) (Station.channels sta) st;
      chunk_stations chunk_size_in_mb l' st'
  end.

(** What goes over the network, in order. *)
Inductive request : Type :=
| AvailabilityRequest (client_name : string)
| WaveformRequest (client_name : string) (chunk : list chunk_item)
| StationRequest (client_name : string) (bulk : list bulk_item)
    (filename : option string).

Record world : Type := mkWorld {
  w_fs : filesystem;
  w_requests : list request
}.

(** [ClientDownloadHelper.download_mseed].  The worker pool is run in the
    order of the chunks. *)
Definition download_mseed (c : Client) (chunk_size_in_mb : Q) (w : world)
    (h : Helper.t) : world * Helper.t * option exn :=
  match chunk_stations chunk_size_in_mb (map snd (Helper.stations h))
          ([], [], 0) with
  | Raise e => (w, h, Some e)
  | Ok (chunks0, chunks_curr, _) =>
      let chunks := match chunks_curr with
                    | [] => chunks0
                    | _ :: _ => chunks0 ++ [chunks_curr]
                    end in
      match chunks with
      | [] => (w, h, None)
      | _ :: _ =>
          let fs1 := fold_left (fun fs chunk => get_waveforms_bulk c chunk fs)
                               chunks (w_fs w) in
          let reqs := w_requests w ++
                      map (WaveformRequest (Helper.client_name h)) chunks in
          match _check_downloaded_data (Helper.restrictions h) fs1
                  (Helper.stations h) with
          | (q, stations', e) =>
              (mkWorld (qc_fs q) reqs, Helper.set_stations h stations', e)
          end
      end
  end.

(** [ClientDownloadHelper.prepare_stationxml_download]. *)
Definition helper_prepare_stationxml_download
    (stationxml_storage : stationxml_storage_t) (fs : filesystem)
    (h : Helper.t) : Helper.t * option exn :=
  match for_each (on_value (fun (_ : unit) s =>
                              match prepare_stationxml_download
                                      stationxml_storage fs s with
                              | (s', e) => (tt, s', e)
                              end))
                 tt (Helper.stations h) with
  | (_, stations', e) => (Helper.set_stations h stations', e)
  end.

(** The arguments of the station requests: one per station that misses
    information. *)
Fixpoint stationxml_arguments (l : list (station_id * Station.t))
    : result (list (station_id * list bulk_item * option string)) :=
  match l with
  | [] => Ok []
  | (s_id, station) :: l' =>
      match Station.miss_station_information station with
      | [] => stationxml_arguments l'
      | _ :: _ =>
          do b <- station_temporal_bounds station;
          do rest <- stationxml_arguments l';
          Ok ((s_id,
               map (fun channel =>
                      (Station.network station, Station.station station,
                       Channel.location channel, Channel.channel channel,
                       fst b, snd b))
                   (Station.channels station),
               Station.stationxml_filename station) :: rest)
      end
  end.

(** Modelled from the spec: [utils.download_stationxml], which lives in the
    missing [utils] module, issues the request and on success returns the
    station identifier and the filename ("for each completed request, parse
    the written metadata file", section 4.3); a request without a filename is
    taken to fail.  The pool is run in the order of the arguments; the
    results that are not [None] are collected. *)
Fixpoint run_station_requests (c : Client) (name : string)
    (args : list (station_id * list bulk_item * option string)) (w : world)
    : world * list (station_id * string) :=
  match args with
  | [] => (w, [])
  | (s_id, bulk, fn) :: args' =>
      let w1 := mkWorld (w_fs w)
                  (w_requests w ++ [StationRequest name bulk fn]) in
      match fn with
      | None => run_station_requests c name args' w1
      | Some filename =>
          match get_stations_bulk c bulk filename (w_fs w1) with
          | None => run_station_requests c name args' w1
          | Some fs' =>
              let (w2, rs) :=
                run_station_requests c name args'
                  (mkWorld fs' (w_requests w1)) in
              (w2, (s_id, filename) :: rs)
          end
      end
  end.

(** The loop [for s_id, filename in results]. *)
Fixpoint update_stations (fs : filesystem) (results : list (station_id * string))
    (stations : list (station_id * Station.t))
    : list (station_id * Station.t) * option exn :=
  match results with
  | [] => (stations, None)
  | (s_id, filename) :: results' =>
      match dict_get station_id_eqb stations s_id with
      | None => (stations, Some KeyError)
      | Some station =>
          match fs filename with
          | None => (stations, Some OSError)
          | Some f =>
              update_stations fs results'
                (dict_set station_id_eqb stations s_id
                   (update_station (inventory f) station))
          end
      end
  end.

(** [ClientDownloadHelper.download_stationxml]. *)
Definition download_stationxml (c : Client) (w : world) (h : Helper.t)
    : world * Helper.t * option exn :=
  match stationxml_arguments (Helper.stations h) with
  | Raise e => (w, h, Some e)
  | Ok [] => (w, h, None)
  | Ok arguments =>
      let (w', results) :=
        run_station_requests c (Helper.client_name h) arguments w in
      let (stations', e) :=
        update_stations (w_fs w') results (Helper.stations h) in
      (w', Helper.set_stations h stations', e)
  end.

(** [ClientDownloadHelper.sanitize_downloads]. *)
Definition sanitize_downloads (lg : Logger) (w : world) (h : Helper.t)
    : world * Helper.t * option exn :=
  match for_each (on_value (station_sanitize_downloads lg)) (w_fs w)
                 (Helper.stations h) with
  | (fs', stations', e) =>
      (mkWorld fs' (w_requests w), Helper.set_stations h stations', e)
  end.

(** ** download_helpers.py: [DownloadHelper.download] *)

(** What the caller hands over besides the restrictions. *)
Record settings : Type := mkSettings {
  domain : Domain;
  mseed_storage : mseed_storage_t;
  stationxml_storage : stationxml_storage_t;
  download_chunk_size_in_mb : Q;
  logger : Logger
}.

(** An entry of the report: [{"client": client_name, "data": [...]}]. *)
Record report_entry : Type := mkEntry {
  entry_client : string;
  entry_data : list Station.t
}.

(** The local variables of [download] that live across the loop. *)
Record run : Type := mkRun {
  existing_stations : list station_id;
  discarded_station_ids : list station_id;
  report : list report_entry;
  run_world : world
}.

(** The part of the loop body after both emptiness tests: the five
    download phases.  Nothing here touches the variables of [run] other than
    the world. *)
Definition download_phases (cfg : settings) (c : Client) (w : world)
    (h : Helper.t) : world * Helper.t * option exn :=
  let h1 := prepare_mseed_download (mseed_storage cfg) (w_fs w) h in
  match download_mseed c (download_chunk_size_in_mb cfg) w h1 with
  | (w2, h2, Some e) => (w2, h2, Some e)
  | (w2, h2, None) =>
      match helper_prepare_stationxml_download (stationxml_storage cfg)
              (w_fs w2) h2 with
      | (h3, Some e) => (w2, h3, Some e)
      | (h3, None) =>
          match download_stationxml c w2 h3 with
          | (w4, h4, Some e) => (w4, h4, Some e)
          | (w4, h4, None) => sanitize_downloads (logger cfg) w4 h4
          end
      end
  end.

(** One iteration of [for client_name, client in
    self._initialized_clients.items()]. *)
Definition download_step (fuel : nat) (cfg : settings) (r : Restrictions.t)
    (st : run) (client : string * Client) : option (run * option exn) :=
  let (client_name, c) := client in
  let helper := Helper.init client_name r in
  let w1 := mkWorld (w_fs (run_world st))
              (w_requests (run_world st) ++ [AvailabilityRequest client_name]) in
  match get_availability fuel c (domain cfg) helper with
  | None => None
  | Some (helper, Some e) =>
      Some (mkRun (existing_stations st) (discarded_station_ids st)
              (report st) w1, Some e)
  | Some (helper, None) =>
      if negb (Helper.truthy helper) then
        Some (mkRun (existing_stations st) (discarded_station_ids st)
                (report st ++ [mkEntry client_name []]) w1, None)
      else
        let helper :=
          discard_stations helper
            (existing_stations st ++ discarded_station_ids st) in
        if negb (Helper.truthy helper) then
          Some (mkRun (existing_stations st) (discarded_station_ids st)
                  (report st ++ [mkEntry client_name []]) w1, None)
        else
          match download_phases cfg c w1 helper with
          | (w', _, e) =>
              Some (mkRun (existing_stations st) (discarded_station_ids st)
                      (report st) w', e)
          end
  end.

Fixpoint download_loop (fuel : nat) (cfg : settings) (r : Restrictions.t)
    (clients : list (string * Client)) (st : run) : option (run * option exn) :=
  match clients with
  | [] => Some (st, None)
  | client :: clients' =>
      match download_step fuel cfg r st client with
      | None => None
      | Some (st', Some e) => Some (st', Some e)
      | Some (st', None) => download_loop fuel cfg r clients' st'
      end
  end.

(** [DownloadHelper.download]: the report on normal return, the exception
    otherwise, and the world as the run left it. *)
Definition download (fuel : nat) (clients : list (string * Client))
    (cfg : settings) (r : Restrictions.t) (fs : filesystem)
    : option (world * result (list report_entry)) :=
  match download_loop fuel cfg r clients (mkRun [] [] [] (mkWorld fs [])) with
  | None => None
  | Some (st, Some e) => Some (run_world st, Raise e)
  | Some (st, None) => Some (run_world st, Ok (report st))
  end.

(** *** Sample inputs for the QC pass *)

(** A request of 100 seconds, at least 90 % of which must be covered, gaps
    rejected. *)
Definition r_hundred_seconds : Restrictions.t :=
  Restrictions.mk 0 100 None None None None None true (9 # 10)
    Restrictions.default_channel_priorities
    Restrictions.default_location_priorities 1000.

(** A file with a single trace that covers the whole request. *)
Definition complete_file : file := mkFile 512 (Some [(0, 100)]) [].

Definition fs_complete : filesystem :=
  write_file "NET.STA..BHZ.mseed" complete_file (fun _ => None).

Definition station_pending_bhz : Station.t :=
  Station.init "NET" "STA" 0 0
    [Channel.mk EmptyString "BHZ"
       [TimeInterval.mk 0 100 (Path "NET.STA..BHZ.mseed") NEEDS_DOWNLOADING]].

(** A station whose intervals are in every status. *)
Definition station_mixed : Station.t :=
  Station.init "NET" "MIX" 0 0
    [Channel.mk EmptyString "BHZ"
       [TimeInterval.mk 0 100 NoFilename NONE;
        TimeInterval.mk 0 100 IgnoreFilename IGNORE;
        TimeInterval.mk 0 100 (Path "exists.mseed") EXISTS;
        TimeInterval.mk 0 100 (Path "NET.STA..BHZ.mseed") NEEDS_DOWNLOADING;
        TimeInterval.mk 0 100 (Path "downloaded.mseed") DOWNLOADED;
        TimeInterval.mk 0 100 (Path "failed.mseed") DOWNLOAD_FAILED;
        TimeInterval.mk 0 100 (Path "rejected.mseed") DOWNLOAD_REJECTED]].

Definition stations_mixed : list (station_id * Station.t) :=
  [(("NET", "MIX"), station_mixed)].

Definition fs_mixed : filesystem :=
  write_file "exists.mseed" complete_file
    (write_file "downloaded.mseed" complete_file fs_complete).

(** *** Sample inputs for the station information *)

(** A station after the waveform phase and a station-information download
    that left [BHZ] uncovered: [BHZ] was downloaded in this run, [LHZ] was
    on disk before. *)
Definition station_missing_bhz : Station.t :=
  Station.mk "NET" "STA" 0 0
    [Channel.mk EmptyString "BHZ"
       [TimeInterval.mk 0 100 (Path "downloaded.mseed") DOWNLOADED];
     Channel.mk EmptyString "LHZ"
       [TimeInterval.mk 0 100 (Path "exists.mseed") EXISTS]]
    (Some "NET.STA.xml")
    [((EmptyString, "BHZ"), (0, 100)); ((EmptyString, "LHZ"), (0, 100))]
    [((EmptyString, "BHZ"), (0, 100))]
    [((EmptyString, "LHZ"), (0, 100))].

Definition helper_missing_bhz : Helper.t :=
  Helper.mk "P1" r_hundred_seconds [(("NET", "STA"), station_missing_bhz)]
    (Some true).

(** A station right after [prepare_stationxml_download] found no file:
    everything wanted is missing. *)
Definition station_wants_bhz : Station.t :=
  Station.mk "NET" "STA" 0 0
    [Channel.mk EmptyString "BHZ"
       [TimeInterval.mk 0 100 (Path "downloaded.mseed") DOWNLOADED]]
    (Some "NET.STA.xml")
    [((EmptyString, "BHZ"), (0, 100))]
    [((EmptyString, "BHZ"), (0, 100))]
    [].

Definition helper_wants_bhz : Helper.t :=
  Helper.mk "P1" r_hundred_seconds [(("NET", "STA"), station_wants_bhz)]
    (Some true).

(** The file a provider writes when it only knows the [LHZ] channel. *)
Definition lhz_only_file : file :=
  mkFile 1024 None
    [mkChannelInfo "NET" "STA" EmptyString "LHZ" (-1000) 1000].

Definition client_lhz_only : Client :=
  mkClient ["matchtimeseries"] (fun _ => NoDataAvailable) (fun _ fs => fs)
    (fun _ filename fs => Some (write_file filename lhz_only_file fs)).

(** *** Sample providers and runs *)

(** The same restrictions with other identifier filters. *)
Definition with_filters (r : Restrictions.t) (loc cha : option string)
    : Restrictions.t :=
  Restrictions.mk (Restrictions.starttime r) (Restrictions.endtime r)
    (Restrictions.chunklength r) (Restrictions.network r)
    (Restrictions.station r) loc cha
    (Restrictions.reject_channels_with_gaps r) (Restrictions.minimum_length r)
    (Restrictions.channel_priorities r) (Restrictions.location_priorities r)
    (Restrictions.minimum_interstation_distance_in_m r).

(** A request of 100 seconds without a minimum length, 1000 m between
    stations, default priorities. *)
Definition r_no_minimum : Restrictions.t :=
  Restrictions.mk 0 100 None None None None None true 0
    Restrictions.default_channel_priorities
    Restrictions.default_location_priorities 1000.

(** The literal channel filter [VHZ], which no default priority matches. *)
Definition r_literal_vhz : Restrictions.t :=
  with_filters r_no_minimum None (Some "VHZ").

(** The literal location filter [20], which is not in the default list. *)
Definition r_literal_20 : Restrictions.t :=
  with_filters r_no_minimum (Some "20") None.

(** A provider that lists one station at (0, 0) with one channel, serves
    every waveform requested in full, and serves station information for
    every channel requested. *)
Definition one_station (sta loc cha : string) : list InvNetwork :=
  [mkInvNetwork "NET"
     [mkInvStation sta 0 0 [mkInvChannel loc cha (-1000) 1000 None]]].

Definition serve_chunk (chunk : list chunk_item) (fs : filesystem) : filesystem :=
  fold_left (fun fs item =>
               match snd item with
               | Path p => write_file p complete_file fs
               | _ => fs
               end) chunk fs.

Definition rows_of_bulk (bulk : list bulk_item) : list ChannelInfo :=
  map (fun b =>
         match b with
         | (n, st, l, c, t0, t1) => mkChannelInfo n st l c t0 t1
         end) bulk.

Definition provider (sta loc cha : string) : Client :=
  mkClient ["matchtimeseries"]
    (fun _ => Inventory (one_station sta loc cha))
    serve_chunk
    (fun bulk filename fs =>
       Some (write_file filename (mkFile 2048 None (rows_of_bulk bulk)) fs)).

(** A provider without data. *)
Definition provider_without_data : Client :=
  mkClient ["matchtimeseries"] (fun _ => NoDataAvailable) (fun _ fs => fs)
    (fun _ _ _ => None).

Definition no_domain_filter : Domain := mkDomain None [].

Definition path_template (net sta loc cha : string) : string :=
  (net ++ "." ++ sta ++ "." ++ loc ++ "." ++ cha ++ ".mseed")%string.

Definition sample_settings : settings :=
  mkSettings no_domain_filter
    (fun net sta loc cha _ _ => MseedPath (path_template net sta loc cha))
    (fun net sta _ _ _ => StorageString (net ++ "." ++ sta ++ ".xml")%string)
    50 logging_Logger.

Definition empty_disk : filesystem := fun _ => None.

(** ** Further parts of the two modules *)

(** [Channel.intervals_need_station_file]: the loop with the early
    [return True]. *)
Fixpoint intervals_need_station_file_loop (l : list TimeInterval.t) : bool :=
  match l with
  | [] => false
  | interval :: l' =>
      if existsb (STATUS_eqb (TimeInterval.status interval)) [DOWNLOADED; EXISTS]
      then true
      else intervals_need_station_file_loop l'
  end.

Definition intervals_need_station_file (c : Channel.t) : bool :=
  intervals_need_station_file_loop (Channel.intervals c).

(** The intervals of a helper, through its stations and channels. *)
Definition interval_of (stations : list (station_id * Station.t))
    (i : TimeInterval.t) : Prop :=
  exists kv c, In kv stations /\ In c (Station.channels (snd kv)) /\
               In i (Channel.intervals c).


(** The disk after is the disk before with some files removed. *)
Definition only_deletes (fs fs' : filesystem) : Prop :=
  forall p, fs' p = fs p \/ fs' p = None.

(** The rows of one channel of one station in a StationXML file. *)
Definition row_of (net sta : string) (k : channel_id) (r : ChannelInfo) : Prop :=
  ci_network r = net /\ ci_station r = sta /\
  ci_location r = fst k /\ ci_channel r = snd k.

(** The keys of a dictionary are pairwise different. *)
Definition unique_keys {K V : Type} (d : list (K * V)) : Prop :=
  NoDup (map fst d).

(** The rows of a file that covers [BHZ] of NET.STA. *)
Definition bhz_rows : list ChannelInfo :=
  [mkChannelInfo "NET" "STA" EmptyString "BHZ" (-1000) 1000].


(** The bulk entries of the intervals of a channel that need
    downloading, in order. *)
Definition pending_items_of_channel (net sta : string) (c : Channel.t)
    : list chunk_item :=
  map (fun i => (net, sta, Channel.location c, Channel.channel c,
                 TimeInterval.start i, TimeInterval.end_ i,
                 TimeInterval.filename i))
      (filter (fun i => STATUS_eqb (TimeInterval.status i) NEEDS_DOWNLOADING)
              (Channel.intervals c)).

Definition pending_items_of_station (s : Station.t) : list chunk_item :=
  flat_map (pending_items_of_channel (Station.network s) (Station.station s))
           (Station.channels s).

Definition pending_items (stations : list (station_id * Station.t))
    : list chunk_item :=
  flat_map (fun kv => pending_items_of_station (snd kv)) stations.

(** Every channel of every station has a non-empty channel code. *)
Definition channel_codes_nonempty (stations : list (station_id * Station.t))
    : Prop :=
  forall kv c, In kv stations -> In c (Station.channels (snd kv)) ->
    Channel.channel c <> EmptyString.

(** No station misses station information. *)
Definition nothing_missing (stations : list (station_id * Station.t)) : Prop :=
  forall kv, In kv stations -> Station.miss_station_information (snd kv) = [].

(** What the chunking loop has packed so far, and that no closed chunk is
    empty. *)
Definition chunking_done (st : chunking) : list chunk_item :=
  concat (fst (fst st)) ++ snd (fst st).

Definition chunking_ok (st : chunking) : Prop :=
  Forall (fun ch => ch <> []) (fst (fst st)).

(** What [download_stationxml] may do to a station: only the channels had
    and missed change; what is missed afterwards was missed before, and what
    is had afterwards was had or missed before. *)
Definition information_step (s s' : Station.t) : Prop :=
  s' = Station.set_information s (Station.stationxml_filename s)
         (Station.want_station_information s)
         (Station.miss_station_information s')
         (Station.have_station_information s') /\
  (forall kt, In kt (Station.miss_station_information s') ->
     In kt (Station.miss_station_information s)) /\
  (forall kt, In kt (Station.have_station_information s') ->
     In kt (Station.have_station_information s) \/
     In kt (Station.miss_station_information s)).

Definition entry_information_step (kv kv' : station_id * Station.t) : Prop :=
  fst kv' = fst kv /\ information_step (snd kv) (snd kv').

Definition is_station_request (r : request) : Prop :=
  match r with
  | StationRequest _ _ _ => True
  | _ => False
  end.

(** [l1] is [l2] with some elements left out. *)
Inductive subseq {A : Type} : list A -> list A -> Prop :=
| subseq_nil : subseq [] []
| subseq_skip : forall x l1 l2, subseq l1 l2 -> subseq l1 (x :: l2)
| subseq_keep : forall x l1 l2, subseq l1 l2 -> subseq (x :: l1) (x :: l2).

(** What [get_availability] installs under an identifier: a fresh station
    of that network and station code, inside the domain when the domain has
    a test, with at least one channel. *)
Definition freshly_installed (d : Domain) (kv : station_id * Station.t) : Prop :=
  fst kv = (Station.network (snd kv), Station.station (snd kv)) /\
  Station.channels (snd kv) <> [] /\
  Station.stationxml_filename (snd kv) = None /\
  Station.want_station_information (snd kv) = [] /\
  Station.miss_station_information (snd kv) = [] /\
  Station.have_station_information (snd kv) = [] /\
  (forall inside, is_in_domain d = Some inside ->
     inside (Station.latitude (snd kv)) (Station.longitude (snd kv)) = true).

(** The provider answers no availability query with an inventory. *)
Definition without_inventory (c : Client) : Prop :=
  forall q, get_stations c q = NoDataAvailable \/ get_stations c q = OtherError.

(** ** download_helpers.py: constructing a [DownloadHelper] *)

(** [sorted(...)] on names. *)
Fixpoint insert_name (x : string) (l : list string) : list string :=
  match l with
  | [] => [x]
  | y :: l' => if String.leb x y then x :: l else y :: insert_name x l'
  end.

Definition sorted_names (l : list string) : list string :=
  fold_right insert_name [] l.

(** [del providers[x]] on the keys of the dictionary. *)
Definition remove_name (x : string) (l : list string) : list string :=
  filter (fun y => negb (String.eqb x y)) l.

(** The branch [providers is None] of [DownloadHelper.__init__], on the keys
    of [URL_MAPPINGS] (a dictionary of [obspy.fdsn.header], so its keys are
    pairwise different). *)
Definition default_providers (url_mappings : list string) : list string :=
  let has_iris := string_in "IRIS" url_mappings in
  let providers1 :=
    if has_iris then remove_name "IRIS" url_mappings else url_mappings in
  let has_orfeus := string_in "ORFEUS" providers1 in
  let providers2 :=
    if has_orfeus then remove_name "ORFEUS" providers1 else providers1 in
  (if has_iris then ["IRIS"] else []) ++
  (if has_orfeus then ["ORFEUS"] else []) ++
  sorted_names providers2.

(** [Client(client_name)]: [None] when the constructor raises one of
    [utils.ERRORS], otherwise the names of the services of the client and
    the client. *)
Definition connect_t : Type := string -> option (list string * Client).

(** The inner function [_get_client]. *)
Definition _get_client (connect : connect_t) (client_name : string)
    : string * option Client :=
  match connect client_name with
  | None => (client_name, None)
  | Some (service_names, this_client) =>
      let services :=
        sorted_names
          (filter (fun _i => negb (prefix "available" _i)) service_names) in
      if negb (string_in "dataselect" services)
         || negb (string_in "station" services)
      then (client_name, None)
      else (client_name, Some this_client)
  end.

(** [DownloadHelper.__initialize_clients]: the ordered dictionary
    [self._initialized_clients].  A pool of zero threads cannot be made. *)
Definition __initialize_clients (connect : connect_t) (providers : list string)
    : result (list (string * Client)) :=
  match providers with
  | [] => Raise ValueError
  | _ :: _ =>
      let clients :=
        fold_left (fun d kv =>
                     match snd kv with
                     | Some value => dict_set String.eqb d (fst kv) value
                     | None => d
                     end)
                  (map (_get_client connect) providers) [] in
      Ok (fold_left (fun initialized client =>
                       match dict_get String.eqb clients client with
                       | None => initialized
                       | Some value =>
                           dict_set String.eqb initialized client value
                       end)
                    providers [])
  end.

(** [DownloadHelper.__init__]. *)
Definition DownloadHelper_init (connect : connect_t)
    (url_mappings : list string) (providers : option (list string))
    : result (list (string * Client)) :=
  __initialize_clients connect
    (match providers with
     | None => default_providers url_mappings
     | Some l => l
     end).

(** A provider can be used: it can be constructed and has both services. *)
Definition usable (connect : connect_t) (name : string) (c : Client) : Prop :=
  exists service_names,
    connect name = Some (service_names, c) /\
    In "dataselect" service_names /\ In "station" service_names.

(** ** [ClientDownloadHelper._parse_miniseed_filenames] *)

(** What the method reads of a trace: its identifiers and its times. *)
Record Trace : Type := mkTrace {
  tr_network : string;
  tr_station : string;
  tr_location : string;
  tr_channel : string;
  tr_starttime : Q;
  tr_endtime : Q
}.

(** [utils.ChannelAvailability], with the fields in the order of the
    call. *)
Record ChannelAvailability : Type := mkChannelAvailability {
  ca_network : string;
  ca_station : string;
  ca_location : string;
  ca_channel : string;
  ca_starttime : Q;
  ca_endtime : Q;
  ca_filename : string
}.

(** The disk as this method sees it: no file, a file [obspy.read] cannot
    read, or the traces of a file. *)
Definition mseed_disk : Type := string -> option (option (list Trace)).

(** [try: os.remove(filename) except OSError: pass]. *)
Definition os_remove (p : string) (fs : mseed_disk) : mseed_disk :=
  fun p' => if String.eqb p p' then None else fs p'.

(** The loop over the filenames; the list is [None] when [obspy.read]
    raises, which ends the method. *)
Fixpoint parse_miniseed_loop (r : Restrictions.t) (time_range : Q)
    (fs : mseed_disk) (filenames : list string)
    : mseed_disk * option (list ChannelAvailability) :=
  match filenames with
  | [] => (fs, Some [])
  | filename :: rest =>
      match fs filename with
      | None | Some None => (fs, None)
      | Some (Some st) =>
          if Restrictions.reject_channels_with_gaps r && (1 <? length st)%nat
          then parse_miniseed_loop r time_range (os_remove filename fs) rest
          else
            match st with
            | [] => parse_miniseed_loop r time_range fs rest
            | tr :: _ =>
                let duration := tr_endtime tr - tr_starttime tr in
                if float_truthy (Restrictions.minimum_length r)
                   && Qltb duration time_range
                then parse_miniseed_loop r time_range
                       (os_remove filename fs) rest
                else
                  match parse_miniseed_loop r time_range fs rest with
                  | (fs', Some channel_availability) =>
                      (fs',
                       Some (mkChannelAvailability (tr_network tr)
                               (tr_station tr) (tr_location tr)
                               (tr_channel tr) (tr_starttime tr)
                               (tr_endtime tr) filename
                             :: channel_availability))
                  | (fs', None) => (fs', None)
                  end
            end
      end
  end.

Definition _parse_miniseed_filenames (fs : mseed_disk)
    (filenames : list string) (restrictions : Restrictions.t)
    : mseed_disk * option (list ChannelAvailability) :=
  let time_range :=
    Restrictions.minimum_length restrictions *
    (Restrictions.endtime restrictions - Restrictions.starttime restrictions) in
  parse_miniseed_loop restrictions time_range fs filenames.

(** The verdict of the loop body on the traces of a file. *)
Definition accepted (r : Restrictions.t) (time_range : Q) (st : list Trace)
    : bool :=
  negb (Restrictions.reject_channels_with_gaps r && (1 <? length st)%nat) &&
  match st with
  | [] => false
  | tr :: _ =>
      negb (float_truthy (Restrictions.minimum_length r)
            && Qltb (tr_endtime tr - tr_starttime tr) time_range)
  end.

(** *** Downloaded intervals and their files *)

(** The file planned for an interval is on disk, not empty, and
    [obspy.read] finds at least one trace in it. *)
Definition readable (fs : filesystem) (i : TimeInterval.t) : Prop :=
  exists p f st,
    TimeInterval.filename i = Path p /\ fs p = Some f /\
    size f <> 0%Z /\ waveform f = Some st /\ st <> [].

(** An interval that QC turned from [NEEDS_DOWNLOADING] into [DOWNLOADED]
    has its file. *)
Definition interval_kept (fs : filesystem) (i i' : TimeInterval.t) : Prop :=
  TimeInterval.filename i' = TimeInterval.filename i /\
  (TimeInterval.status i = NEEDS_DOWNLOADING ->
   TimeInterval.status i' = DOWNLOADED -> readable fs i').

Definition channel_kept (fs : filesystem) (c c' : Channel.t) : Prop :=
  Forall2 (interval_kept fs) (Channel.intervals c) (Channel.intervals c').

Definition station_kept (fs : filesystem) (s s' : Station.t) : Prop :=
  Forall2 (channel_kept fs) (Station.channels s) (Station.channels s').

Definition entry_kept (fs : filesystem) (kv kv' : station_id * Station.t)
    : Prop :=
  station_kept fs (snd kv) (snd kv').

(** The paths planned for the intervals that need downloading. *)
Definition pending_paths_of_interval (i : TimeInterval.t) : list string :=
  if STATUS_eqb (TimeInterval.status i) NEEDS_DOWNLOADING then
    match TimeInterval.filename i with
    | Path p => [p]
    | _ => []
    end
  else [].

Definition pending_paths_of_channel (c : Channel.t) : list string :=
  flat_map pending_paths_of_interval (Channel.intervals c).

Definition pending_paths_of_station (s : Station.t) : list string :=
  flat_map pending_paths_of_channel (Station.channels s).

Definition pending_paths (stations : list (station_id * Station.t))
    : list string :=
  flat_map (fun kv => pending_paths_of_station (snd kv)) stations.

(** A disk with a complete file and a short one, for
    [_parse_miniseed_filenames]. *)
Definition disk_long_and_short : mseed_disk :=
  fun p =>
    if String.eqb p "long.mseed"
    then Some (Some [mkTrace "NET" "STA" EmptyString "BHZ" 0 100])
    else if String.eqb p "short.mseed"
    then Some (Some [mkTrace "NET" "STA" EmptyString "BHN" 0 40])
    else None.

(** * Properties *)

Section IterFacts.
Import Restrictions.


Lemma py_min_spec a b : (a <= b /\ py_min a b = a) \/ (b < a /\ py_min a b = b).
Proof.
  unfold py_min. destruct (Qlt_le_dec b a); [right | left]; split; auto.
Qed.







Lemma it_diverges e c : c <= 0 -> forall fuel t, t < e -> it fuel e c t = None.
Proof.
  intros Hc. induction fuel as [|f IH]; intros t Ht; simpl; unfold it_next;
    destruct (Qlt_le_dec t e); try lra; auto.
  rewrite IH by lra. reflexivity.
Qed.

Lemma float_truthy_zero c : c == 0 -> float_truthy c = false.
Proof.
  intros H. unfold float_truthy. apply Qeq_bool_iff in H. rewrite H. reflexivity.
Qed.


End IterFacts.

(** ** Claims about [Restrictions] *)






(** C10.  A chunk length of zero is falsy: the iteration ends at once with
    the single pair [(starttime, endtime)], exactly as when no chunk length is
    given, and the chunked loop, which would never end with a zero step, is
    not entered. *)
Theorem iter_zero_chunklength (r : Restrictions.t) (c : Q) :
  Restrictions.chunklength r = Some c -> c == 0 ->
  forall fuel,
    Restrictions.iter fuel r =
      Some [(Restrictions.starttime r, Restrictions.endtime r)] /\
    Restrictions.iter fuel r =
      Restrictions.iter fuel (Restrictions.with_chunklength r None) /\
    (Restrictions.starttime r < Restrictions.endtime r ->
     Restrictions.it fuel (Restrictions.endtime r) c (Restrictions.starttime r)
       = None).
Proof.
  intros Hc H0 fuel.
  assert (E : Restrictions.iter fuel r =
              Some [(Restrictions.starttime r, Restrictions.endtime r)]).
  { unfold Restrictions.iter. rewrite Hc, (float_truthy_zero c H0). reflexivity. }
  split; [exact E|]. split; [rewrite E; reflexivity|].
  intros Hlt. apply it_diverges; [lra | exact Hlt].
Qed.

(** A whole day with a chunk length of zero: one pair. *)
Lemma iter_zero_chunklength_witness :
  Restrictions.chunklength r_zero_chunk = Some 0 /\ 0 == 0 /\
  Restrictions.iter 7 r_zero_chunk = Some [(0, 86400)].
Proof.
  split; [reflexivity|]. split; [reflexivity|].
  apply (iter_zero_chunklength r_zero_chunk 0 eq_refl (Qeq_refl 0) 7).
Defined.

(** ** The QC pass *)

Section ForEachFrame.
Context {S A : Type} (body : S -> A -> S * A * option exn).
Context (R : A -> A -> Prop) (D : A -> string -> Prop) (get : S -> filesystem).
Hypothesis R_refl : forall a, R a a.
Hypothesis body_frame : forall s a s1 a1 e,
  body s a = (s1, a1, e) ->
  R a a1 /\ forall p, ~ D a p -> get s1 p = get s p.

Lemma Forall2_same : forall l : list A, Forall2 R l l.
Proof. induction l; constructor; auto. Qed.

End ForEachFrame.

Lemma interval_frame_refl i : interval_frame i i.
Proof. repeat split; auto. Qed.



Lemma safe_delete_other p p' fs : p <> p' -> safe_delete p fs p' = fs p'.
Proof.
  intros H. unfold safe_delete. destruct (String.eqb_spec p p'); congruence.
Qed.

Lemma STATUS_eqb_eq a b : STATUS_eqb a b = true <-> a = b.
Proof. destruct a, b; simpl; split; congruence. Qed.

Lemma check_interval_frame r q i q' i' e :
  check_interval r q i = (q', i', e) ->
  interval_frame i i' /\
  forall p, ~ interval_pending i p -> qc_fs q' p = qc_fs q p.
Proof.
  unfold check_interval, len_of_type_str.
  destruct (STATUS_eqb (TimeInterval.status i) NEEDS_DOWNLOADING) eqn:Hs; simpl.
  - apply STATUS_eqb_eq in Hs.
    assert (Hdel : forall p0 p, TimeInterval.filename i = Path p0 ->
                     ~ interval_pending i p ->
                     safe_delete p0 (qc_fs q) p = qc_fs q p).
    { intros p0 p Hf Hp. apply safe_delete_other. intros ->.
      apply Hp. split; assumption. }
    destruct (TimeInterval.filename i) as [| |p0] eqn:Hf;
      try (intros H; inversion H; subst; split;
           [apply interval_frame_refl | reflexivity]).
    specialize (Hdel p0).
    destruct (qc_fs q p0) as [f|];
      [destruct (size f =? 0)%Z;
       [|destruct (waveform f) as [st|];
         [destruct (length st =? 0)%nat;
          [|destruct (Restrictions.reject_channels_with_gaps r
                      && (1 <? length st)%nat);
            [|destruct (float_truthy (Restrictions.minimum_length r))]]|]]|];
      intros H; inversion H; subst; simpl;
      (split;
       [first [apply interval_frame_refl
              | repeat split; simpl; auto; rewrite Hs; congruence]
       |intros p Hp; auto]).
  - intros H; inversion H; subst. split; [apply interval_frame_refl | reflexivity].
Qed.



(** After [prepare_mseed_download], the path of an interval that does not
    need downloading is the path of no interval that does: the former was on
    disk when the statuses were handed out, the latter was not.  So in a run
    QC finds every file of the former as it was. *)
Lemma prepare_separates_paths (storage : mseed_storage_t) (fs : filesystem)
    (h : Helper.t) (kv : station_id * Station.t) (c : Channel.t)
    (i : TimeInterval.t) (p : string) :
  In kv (Helper.stations (prepare_mseed_download storage fs h)) ->
  In c (Station.channels (snd kv)) -> In i (Channel.intervals c) ->
  TimeInterval.status i <> NEEDS_DOWNLOADING ->
  TimeInterval.filename i = Path p ->
  ~ pending (Helper.stations (prepare_mseed_download storage fs h)) p.
Proof.
  assert (Hprep : forall kv c i q,
    In kv (Helper.stations (prepare_mseed_download storage fs h)) ->
    In c (Station.channels (snd kv)) -> In i (Channel.intervals c) ->
    TimeInterval.filename i = Path q ->
    TimeInterval.status i =
      if os_path_exists fs q then EXISTS else NEEDS_DOWNLOADING).
  { clear. intros kv c i q Hkv Hc Hi Hf. simpl in Hkv.
    apply in_map_iff in Hkv. destruct Hkv as (kv0 & <- & _). simpl in Hc.
    apply in_map_iff in Hc. destruct Hc as (c0 & <- & _). simpl in Hi.
    apply in_map_iff in Hi. destruct Hi as (i0 & <- & _).
    unfold prepare_interval in *.
    destruct (storage _ _ _ _ _ _); simpl in *; [discriminate|].
    inversion Hf; subst. reflexivity. }
  intros Hkv Hc Hi Hs Hf (kv' & Hkv' & c' & Hc' & i' & Hi' & Hs' & Hf').
  pose proof (Hprep _ _ _ _ Hkv Hc Hi Hf) as E.
  pose proof (Hprep _ _ _ _ Hkv' Hc' Hi' Hf') as E'.
  rewrite Hs' in E'. destruct (os_path_exists fs p); congruence.
Qed.





(** With a non-zero [minimum_length], an interval that reaches the length
    test is rejected and its file deleted whatever the duration of the data:
    the comparison only decides whether a line is logged. *)
Lemma check_interval_rejects_regardless (r : Restrictions.t) (q : qc)
    (i : TimeInterval.t) (p : string) (f : file) (st : list (Q * Q)) :
  TimeInterval.status i = NEEDS_DOWNLOADING ->
  TimeInterval.filename i = Path p ->
  qc_fs q p = Some f -> (size f <> 0)%Z -> waveform f = Some st ->
  st <> [] ->
  Restrictions.reject_channels_with_gaps r && (1 <? length st)%nat = false ->
  float_truthy (Restrictions.minimum_length r) = true ->
  exists q' i',
    check_interval r q i = (q', i', None) /\
    TimeInterval.status i' = DOWNLOAD_REJECTED /\
    qc_fs q' p = None /\
    discarded_bytes q' = (discarded_bytes q + size f)%Z /\
    downloaded_bytes q' = downloaded_bytes q.
Proof.
  intros Hs Hf Hq Hsz Hw Hne Hgap Hml.
  unfold check_interval. rewrite Hs, Hf, Hq, Hw, Hgap, Hml. simpl.
  destruct (Z.eqb_spec (size f) 0) as [E|_]; [contradiction|].
  destruct st as [|tr st]; [contradiction|]. simpl.
  eexists; eexists. split; [reflexivity|]. simpl.
  repeat split. unfold safe_delete. rewrite String.eqb_refl. reflexivity.
Qed.

(** C2 (the code at the failing input).  The requested interval is 100 s
    long, [minimum_length] is 0.9, the file exists, has 512 bytes and parses
    to a single trace covering all 100 s, so that [100 >= 0.9 * 100]; QC
    nevertheless deletes the file, marks the interval [DOWNLOAD_REJECTED]
    and counts the 512 bytes as discarded, and nothing is logged. *)
Theorem check_downloaded_data_rejects_complete_file :
  let i := TimeInterval.mk 0 100 (Path "NET.STA..BHZ.mseed") NEEDS_DOWNLOADING in
  fs_complete "NET.STA..BHZ.mseed" = Some complete_file /\
  Restrictions.minimum_length r_hundred_seconds *
    (TimeInterval.end_ i - TimeInterval.start i) <= sum_durations [(0, 100)] /\
  exists q,
    _check_downloaded_data r_hundred_seconds fs_complete
      [(("NET", "STA"), station_pending_bhz)] =
      (q, [(("NET", "STA"),
            Station.set_channels station_pending_bhz
              [Channel.mk EmptyString "BHZ"
                 [TimeInterval.set_status i DOWNLOAD_REJECTED]])], None) /\
    qc_fs q "NET.STA..BHZ.mseed" = None /\
    downloaded_bytes q = 0%Z /\ discarded_bytes q = 512%Z /\ logged q = [].
Proof.
  simpl. split; [reflexivity|]. split; [vm_compute; discriminate|].
  eexists. split; [reflexivity|]. simpl. repeat split.
Qed.

(** ** Sanitizing *)

(** As soon as one channel still misses station information, the loop of
    [Station.sanitize_downloads] raises in its first iteration, before any
    file is deleted or any status changed: a [logging.Logger] has no
    [warnings], and a list cannot be indexed with an identifier pair. *)
Lemma sanitize_loop_raises (lg : Logger) (ids : list channel_id)
    (fs : filesystem) (s : Station.t) :
  ids <> [] ->
  exists e, sanitize_loop lg ids fs s = (fs, s, Some e).
Proof.
  destruct ids as [|id rest]; [congruence|]. intros _. simpl.
  destruct (logger_warnings lg); eexists; reflexivity.
Qed.

Lemma station_sanitize_downloads_raises (lg : Logger) (fs : filesystem)
    (s : Station.t) :
  Station.miss_station_information s <> [] ->
  exists e, station_sanitize_downloads lg fs s = (fs, s, Some e).
Proof.
  intros H. apply sanitize_loop_raises.
  destruct (Station.miss_station_information s); [congruence | discriminate].
Qed.

(** C1 (the code at the failing input).  The station misses the station
    information of [BHZ], whose only interval is [DOWNLOADED].
    [sanitize_downloads] raises, with the logger of the module and with any
    other; the interval is still [DOWNLOADED] and its file still there. *)
Theorem sanitize_downloads_leaves_downloaded :
  Station.miss_station_information station_missing_bhz <> [] /\
  has_downloaded station_missing_bhz /\
  station_sanitize_downloads logging_Logger fs_mixed station_missing_bhz =
    (fs_mixed, station_missing_bhz, Some AttributeError) /\
  station_sanitize_downloads (mkLogger true) fs_mixed station_missing_bhz =
    (fs_mixed, station_missing_bhz, Some TypeError) /\
  sanitize_downloads logging_Logger (mkWorld fs_mixed []) helper_missing_bhz =
    (mkWorld fs_mixed [], helper_missing_bhz, Some AttributeError) /\
  fs_mixed "downloaded.mseed" = Some complete_file.
Proof.
  split; [discriminate|]. split.
  { exists (Channel.mk EmptyString "BHZ"
              [TimeInterval.mk 0 100 (Path "downloaded.mseed") DOWNLOADED]).
    exists (TimeInterval.mk 0 100 (Path "downloaded.mseed") DOWNLOADED).
    simpl. auto. }
  repeat split; reflexivity.
Qed.

(** ** Station information *)

(** On normal return, [Station.prepare_stationxml_download] leaves the
    three dictionaries consistent: everything wanted is either all missing
    or all present. *)
Lemma prepare_stationxml_download_consistent
    (storage : stationxml_storage_t) (fs : filesystem) (s s' : Station.t) :
  prepare_stationxml_download storage fs s = (s', None) ->
  information_consistent s'.
Proof.
  unfold prepare_stationxml_download.
  destruct (build_want (Station.channels s) []) as [want [x|]];
    [discriminate|].
  destruct (station_temporal_bounds _) as [[t0 t1]|x]; [|discriminate].
  destruct (storage _ _ _ _ _) as [filename|]; [|discriminate].
  assert (Hmiss : information_consistent
            (Station.set_information
               (Station.set_information s (Station.stationxml_filename s) want
                  (Station.miss_station_information s)
                  (Station.have_station_information s))
               (Some filename) want want [])).
  { intros k. simpl. destruct (dict_get channel_id_eqb want k); auto. }
  assert (Hhave : information_consistent
            (Station.set_information
               (Station.set_information s (Station.stationxml_filename s) want
                  (Station.miss_station_information s)
                  (Station.have_station_information s))
               (Some filename) want [] want)).
  { intros k. simpl. destruct (dict_get channel_id_eqb want k); auto. }
  destruct (fs filename) as [f|].
  - destruct (file_has_all _ _ _ _); intros H; inversion H; subst; assumption.
  - intros H; inversion H; subst; assumption.
Qed.

(** C4 (the code at the failing input).  The station wants and misses the
    information of [BHZ]; the request succeeds, but the file written has no
    row for [BHZ].  The loop of [download_stationxml] leaves at [break], and
    afterwards [BHZ] is wanted but neither present nor missing. *)
Theorem download_stationxml_drops_entry :
  information_consistent station_wants_bhz /\
  exists w' s',
    download_stationxml client_lhz_only (mkWorld fs_mixed []) helper_wants_bhz =
      (w', Helper.set_stations helper_wants_bhz [(("NET", "STA"), s')], None) /\
    w_fs w' "NET.STA.xml" = Some lhz_only_file /\
    Station.want_station_information s' = [((EmptyString, "BHZ"), (0, 100))] /\
    Station.have_station_information s' = [] /\
    Station.miss_station_information s' = [] /\
    ~ information_consistent s'.
Proof.
  split.
  { intros k. simpl. destruct (channel_id_eqb (EmptyString, "BHZ") k); auto. }
  eexists. eexists. split; [reflexivity|]. simpl.
  split; [reflexivity|]. split; [reflexivity|]. split; [reflexivity|].
  split; [reflexivity|].
  intros H. specialize (H (EmptyString, "BHZ")). simpl in H.
  destruct H as [[H _]|[_ H]]; discriminate.
Qed.

(** ** Availability *)

(** Replace a closed term of the goal by its value. *)
Ltac evaluate t :=
  let v := eval vm_compute in t in
  let E := fresh "E" in
  assert (E : t = v) by (vm_compute; reflexivity);
  rewrite E; clear E.

(** The priority filters read the two priority lists only: the identifier
    filters of the restrictions play no part. *)
Lemma apply_priorities_ignores_filters (r : Restrictions.t)
    (loc cha : option string) (channels : list Channel.t) :
  apply_priorities (with_filters r loc cha) channels =
  apply_priorities r channels.
Proof. reflexivity. Qed.

(** C6 (the code at the failing input).  The restrictions carry the literal
    channel filter [VHZ] and the provider lists a station with exactly that
    channel; the default channel priorities are applied all the same and,
    since none of them matches [VHZ], no station is installed.  Likewise for
    the literal location filter [20] and the default location priorities.
    With a priority list that matches, the station is installed. *)
Theorem get_availability_applies_priorities_to_literal_filters :
  Restrictions.channel r_literal_vhz = Some "VHZ" /\
  (exists h,
     get_availability 0 (provider "STA" EmptyString "VHZ") no_domain_filter
       (Helper.init "P1" r_literal_vhz) = Some (h, None) /\
     Helper.stations h = []) /\
  Restrictions.location r_literal_20 = Some "20" /\
  (exists h,
     get_availability 0 (provider "STA" "20" "BHZ") no_domain_filter
       (Helper.init "P1" r_literal_20) = Some (h, None) /\
     Helper.stations h = []) /\
  (exists h,
     get_availability 0 (provider "STA" EmptyString "BHZ") no_domain_filter
       (Helper.init "P1" r_no_minimum) = Some (h, None) /\
     map fst (Helper.stations h) = [("NET", "STA")]).
Proof.
  split; [reflexivity|].
  split.
  { evaluate (get_availability 0 (provider "STA" EmptyString "VHZ")
                no_domain_filter (Helper.init "P1" r_literal_vhz)).
    eexists; split; reflexivity. }
  split; [reflexivity|].
  split.
  { evaluate (get_availability 0 (provider "STA" "20" "BHZ")
                no_domain_filter (Helper.init "P1" r_literal_20)).
    eexists; split; reflexivity. }
  evaluate (get_availability 0 (provider "STA" EmptyString "BHZ")
              no_domain_filter (Helper.init "P1" r_no_minimum)).
  eexists; split; reflexivity.
Qed.

(** ** The run over the providers *)

(** No iteration of the loop of [download] adds to [existing_stations] or
    to [discarded_station_ids], and every report entry it appends has no
    data. *)
Lemma download_step_bookkeeping fuel cfg r st client st' e :
  download_step fuel cfg r st client = Some (st', e) ->
  existing_stations st' = existing_stations st /\
  discarded_station_ids st' = discarded_station_ids st /\
  (report st' = report st \/
   report st' = report st ++ [mkEntry (fst client) []]).
Proof.
  unfold download_step. destruct client as [name c].
  destruct (get_availability fuel c (domain cfg) (Helper.init name r))
    as [[h [x|]]|]; try discriminate.
  - intros H; inversion H; subst; simpl; auto.
  - destruct (negb (Helper.truthy h)).
    + intros H; inversion H; subst; simpl; auto.
    + destruct (negb (Helper.truthy (discard_stations h _))).
      * intros H; inversion H; subst; simpl; auto.
      * destruct (download_phases cfg c _ _) as [[w' h'] e'].
        intros H; inversion H; subst; simpl; auto.
Qed.

Lemma download_loop_bookkeeping fuel cfg r : forall clients st st' e,
  download_loop fuel cfg r clients st = Some (st', e) ->
  existing_stations st' = existing_stations st /\
  discarded_station_ids st' = discarded_station_ids st /\
  (Forall (fun en => entry_data en = []) (report st) ->
   Forall (fun en => entry_data en = []) (report st')).
Proof.
  induction clients as [|client clients IH]; simpl; intros st st' e H.
  - inversion H; subst; auto.
  - destruct (download_step fuel cfg r st client) as [[st1 [x|]]|] eqn:Hs;
      try discriminate;
      destruct (download_step_bookkeeping _ _ _ _ _ _ _ Hs) as (H1 & H2 & H3).
    + inversion H; subst. repeat split; auto.
      intros Hf. destruct H3 as [-> | ->]; auto.
      apply Forall_app; split; auto.
    + destruct (IH _ _ _ H) as (I1 & I2 & I3).
      repeat split; try congruence.
      intros Hf. apply I3. destruct H3 as [-> | ->]; auto.
      apply Forall_app; split; auto.
Qed.

(** Whatever the providers and the settings, a report that [download]
    returns carries no station data. *)
Lemma download_report_has_no_data fuel clients cfg r fs w rep :
  download fuel clients cfg r fs = Some (w, Ok rep) ->
  Forall (fun en => entry_data en = []) rep.
Proof.
  unfold download.
  destruct (download_loop fuel cfg r clients _) as [[st [x|]]|] eqn:Hl;
    try discriminate.
  intros H; inversion H; subst.
  destruct (download_loop_bookkeeping _ _ _ _ _ _ _ Hl) as (_ & _ & Hf).
  apply Hf. constructor.
Qed.



(** * Further properties of the code *)

(** ** [Restrictions.__iter__] beyond the claims *)

(** X1.  When the end time is not after the start time, the iteration
    without chunk length (or with a zero one) still yields the single,
    inverted pair, while with any non-zero chunk length the loop test fails
    at once and nothing is yielded: a helper built from such restrictions
    has channels without intervals. *)
Theorem iter_of_inverted_range (r : Restrictions.t) :
  Restrictions.endtime r <= Restrictions.starttime r ->
  forall fuel,
    match Restrictions.chunklength r with
    | None =>
        Restrictions.iter fuel r =
          Some [(Restrictions.starttime r, Restrictions.endtime r)]
    | Some c =>
        if float_truthy c
        then Restrictions.iter fuel r = Some []
        else Restrictions.iter fuel r =
               Some [(Restrictions.starttime r, Restrictions.endtime r)]
    end.
Proof.
  intros Hle fuel. unfold Restrictions.iter.
  destruct (Restrictions.chunklength r) as [c|]; [|reflexivity].
  destruct (float_truthy c); simpl; [|reflexivity].
  destruct fuel; simpl; unfold Restrictions.it_next;
    destruct (Qlt_le_dec (Restrictions.starttime r) (Restrictions.endtime r));
    try reflexivity; lra.
Qed.

(** Inverted times, chunks of one hour: no pair at all. *)
Lemma iter_of_inverted_range_witness :
  Restrictions.endtime (Restrictions.mk 10 5 (Some 3600) None None None None
                          true (9 # 10) [] [] 1000) <= 10 /\
  Restrictions.iter 3 (Restrictions.mk 10 5 (Some 3600) None None None None
                         true (9 # 10) [] [] 1000) = Some [].
Proof.
  split; [simpl; lra|].
  apply (iter_of_inverted_range
           (Restrictions.mk 10 5 (Some 3600) None None None None
              true (9 # 10) [] [] 1000)).
  simpl; lra.
Defined.






(** ** The state model beyond the claims *)

(** X3.  The two properties of [Channel] that ask whether some interval is
    [DOWNLOADED] or [EXISTS], one through the set of statuses and one through
    a loop, always agree. *)
Theorem intervals_need_station_file_agrees (c : Channel.t) :
  intervals_need_station_file c = wants_station_information c.
Proof.
  unfold intervals_need_station_file, wants_station_information.
  induction (Channel.intervals c) as [|i l IH]; simpl; [reflexivity|].
  unfold status_wants_information at 1. rewrite IH.
  destruct (TimeInterval.status i); reflexivity.
Qed.

Lemma fold_py_min_spec (l : list Q) : forall x,
  (fold_left py_min l x = x \/ In (fold_left py_min l x) l) /\
  fold_left py_min l x <= x /\
  forall y, In y l -> fold_left py_min l x <= y.
Proof.
  induction l as [|a l IH]; intros x; simpl.
  - split; [auto|]. split; [lra | intros y []].
  - destruct (IH (py_min x a)) as (Hin & Hle & Hall).
    destruct (py_min_spec x a) as [[Hxa E]|[Hxa E]]; rewrite E in *.
    + split; [destruct Hin; auto|]. split; [exact Hle|].
      intros y [<-|Hy]; [lra | auto].
    + split; [destruct Hin; auto|]. split; [lra|].
      intros y [<-|Hy]; [lra | auto].
Qed.

Lemma py_max_spec a b : (b <= a /\ py_max a b = a) \/ (a < b /\ py_max a b = b).
Proof.
  unfold py_max. destruct (Qlt_le_dec a b); [right | left]; split; auto.
Qed.

Lemma fold_py_max_spec (l : list Q) : forall x,
  (fold_left py_max l x = x \/ In (fold_left py_max l x) l) /\
  x <= fold_left py_max l x /\
  forall y, In y l -> y <= fold_left py_max l x.
Proof.
  induction l as [|a l IH]; intros x; simpl.
  - split; [auto|]. split; [lra | intros y []].
  - destruct (IH (py_max x a)) as (Hin & Hle & Hall).
    destruct (py_max_spec x a) as [[Hxa E]|[Hxa E]]; rewrite E in *.
    + split; [destruct Hin; auto|]. split; [exact Hle|].
      intros y [<-|Hy]; [lra | auto].
    + split; [destruct Hin; auto|]. split; [lra|].
      intros y [<-|Hy]; [lra | auto].
Qed.

Lemma min_list_spec (l : list Q) (m : Q) :
  min_list l = Ok m -> In m l /\ forall y, In y l -> m <= y.
Proof.
  destruct l as [|x l]; simpl; [discriminate|].
  intros H; inversion H; subst.
  destruct (fold_py_min_spec l x) as (Hin & Hle & Hall).
  split; [destruct Hin; [left; congruence | right; assumption]|].
  intros y [<-|Hy]; auto.
Qed.

Lemma max_list_spec (l : list Q) (m : Q) :
  max_list l = Ok m -> In m l /\ forall y, In y l -> y <= m.
Proof.
  destruct l as [|x l]; simpl; [discriminate|].
  intros H; inversion H; subst.
  destruct (fold_py_max_spec l x) as (Hin & Hle & Hall).
  split; [destruct Hin; [left; congruence | right; assumption]|].
  intros y [<-|Hy]; auto.
Qed.

Lemma channel_temporal_bounds_spec (c : Channel.t) (lo hi : Q) :
  channel_temporal_bounds c = Ok (lo, hi) ->
  In lo (map TimeInterval.start (Channel.intervals c)) /\
  In hi (map TimeInterval.end_ (Channel.intervals c)) /\
  forall i, In i (Channel.intervals c) ->
    lo <= TimeInterval.start i /\ TimeInterval.end_ i <= hi.
Proof.
  unfold channel_temporal_bounds, bind.
  destruct (min_list _) as [m|] eqn:Hm; [|discriminate].
  destruct (max_list _) as [M|] eqn:HM; [|discriminate].
  intros H; inversion H; subst.
  destruct (min_list_spec _ _ Hm) as [Hin Hall].
  destruct (max_list_spec _ _ HM) as [Hin' Hall'].
  split; [exact Hin|]. split; [exact Hin'|].
  intros i Hi. split; [apply Hall | apply Hall']; apply in_map; exact Hi.
Qed.

Lemma channel_temporal_bounds_raises (c : Channel.t) :
  (exists e, channel_temporal_bounds c = Raise e) <-> Channel.intervals c = [].
Proof.
  unfold channel_temporal_bounds, bind.
  destruct (Channel.intervals c) as [|i l]; simpl.
  - split; [reflexivity | intros _; eexists; reflexivity].
  - split; [intros [e H]; discriminate | discriminate].
Qed.

Lemma collect_bounds_spec : forall (l : list Channel.t) (bs : list (Q * Q)),
  collect_bounds l = Ok bs ->
  Forall2 (fun c b => channel_temporal_bounds c = Ok b) l bs.
Proof.
  induction l as [|c l IH]; simpl; intros bs H.
  - inversion H; constructor.
  - unfold bind in H.
    destruct (channel_temporal_bounds c) as [b|] eqn:Hb; [|discriminate].
    destruct (collect_bounds l) as [bs'|] eqn:Hbs; [|discriminate].
    inversion H; subst. constructor; auto.
Qed.

Lemma collect_bounds_raises : forall l : list Channel.t,
  (exists e, collect_bounds l = Raise e) <->
  exists c, In c l /\ Channel.intervals c = [].
Proof.
  induction l as [|c l IH]; simpl.
  - split; [intros [e H]; discriminate | intros (c & [] & _)].
  - unfold bind. destruct (channel_temporal_bounds c) as [b|e0] eqn:Hb.
    + assert (Hne : Channel.intervals c <> []).
      { intros E. apply channel_temporal_bounds_raises in E.
        destruct E as [e E]. congruence. }
      destruct (collect_bounds l) as [bs|e1].
      * split; [intros [e H]; discriminate|].
        intros (c' & [<-|Hin] & Hc'); [contradiction|].
        destruct (proj2 IH) as [e He]; [eauto | discriminate].
      * split; [|intros _; eexists; reflexivity].
        intros _. destruct (proj1 IH) as (c' & Hin & Hc'); [eauto|].
        exists c'. auto.
    + split; [|intros _; eexists; reflexivity].
      intros _. exists c. split; [auto|].
      apply channel_temporal_bounds_raises. eauto.
Qed.

(** X4.  When [Station.temporal_bounds] returns, its two values are the
    start of some interval and the end of some interval of the station and
    enclose every interval of every channel. *)
Theorem station_temporal_bounds_encloses (s : Station.t) (lo hi : Q) :
  station_temporal_bounds s = Ok (lo, hi) ->
  (exists c i, In c (Station.channels s) /\ In i (Channel.intervals c) /\
               TimeInterval.start i = lo) /\
  (exists c i, In c (Station.channels s) /\ In i (Channel.intervals c) /\
               TimeInterval.end_ i = hi) /\
  forall c i, In c (Station.channels s) -> In i (Channel.intervals c) ->
    lo <= TimeInterval.start i /\ TimeInterval.end_ i <= hi.
Proof.
  unfold station_temporal_bounds, bind.
  destruct (collect_bounds (Station.channels s)) as [bs|] eqn:Hbs; [|discriminate].
  destruct (min_list (map fst bs)) as [m|] eqn:Hm; [|discriminate].
  destruct (max_list (map snd bs)) as [M|] eqn:HM; [|discriminate].
  intros H; inversion H; subst.
  apply collect_bounds_spec in Hbs.
  destruct (min_list_spec _ _ Hm) as [Hin Hall].
  destruct (max_list_spec _ _ HM) as [Hin' Hall'].
  assert (Hpick : forall b, In b bs ->
            exists c, In c (Station.channels s) /\
                      channel_temporal_bounds c = Ok b).
  { clear - Hbs. induction Hbs; intros b [].
    - subst. eexists; split; [left; reflexivity | assumption].
    - destruct (IHHbs b H0) as (c & Hc & Hb). exists c; split; [right|]; auto. }
  assert (Hbound : forall c, In c (Station.channels s) ->
            exists b, In b bs /\ channel_temporal_bounds c = Ok b).
  { clear - Hbs. induction Hbs; intros c [].
    - subst. eexists; split; [left; reflexivity | assumption].
    - destruct (IHHbs c H0) as (b & Hb & Hc). exists b; split; [right|]; auto. }
  split; [|split].
  - apply in_map_iff in Hin. destruct Hin as ([lo0 hi0] & <- & Hb).
    destruct (Hpick _ Hb) as (c & Hc & Hcb).
    destruct (channel_temporal_bounds_spec _ _ _ Hcb) as (Hlo & _ & _).
    apply in_map_iff in Hlo. destruct Hlo as (i & Hi & Hini).
    exists c, i. auto.
  - apply in_map_iff in Hin'. destruct Hin' as ([lo0 hi0] & <- & Hb).
    destruct (Hpick _ Hb) as (c & Hc & Hcb).
    destruct (channel_temporal_bounds_spec _ _ _ Hcb) as (_ & Hhi & _).
    apply in_map_iff in Hhi. destruct Hhi as (i & Hi & Hini).
    exists c, i. auto.
  - intros c i Hc Hi. destruct (Hbound c Hc) as ([lo0 hi0] & Hb & Hcb).
    destruct (channel_temporal_bounds_spec _ _ _ Hcb) as (_ & _ & Hcall).
    destruct (Hcall i Hi) as [H1 H2].
    pose proof (Hall lo0 (in_map fst _ _ Hb)).
    pose proof (Hall' hi0 (in_map snd _ _ Hb)). simpl in *. lra.
Qed.

(** The sample station with two channels: bounds 0 and 100. *)
Lemma station_temporal_bounds_encloses_witness :
  station_temporal_bounds station_missing_bhz = Ok (0, 100) /\
  forall c i, In c (Station.channels station_missing_bhz) ->
    In i (Channel.intervals c) ->
    0 <= TimeInterval.start i /\ TimeInterval.end_ i <= 100.
Proof.
  split; [reflexivity|].
  apply (station_temporal_bounds_encloses station_missing_bhz 0 100 eq_refl).
Defined.

Lemma station_temporal_bounds_raises (s : Station.t) :
  (exists e, station_temporal_bounds s = Raise e) <->
  (Station.channels s = [] \/
   exists c, In c (Station.channels s) /\ Channel.intervals c = []).
Proof.
  pose proof (collect_bounds_raises (Station.channels s)) as Hc.
  unfold station_temporal_bounds, bind.
  destruct (collect_bounds (Station.channels s)) as [bs|e0] eqn:Hbs.
  - pose proof (collect_bounds_spec _ _ Hbs) as HF.
    destruct bs as [|b bs].
    + inversion HF as [E1 E2|]. simpl.
      split; [intros _; left; reflexivity | intros _; eexists; reflexivity].
    + simpl. split; [intros [e H]; discriminate|].
      intros [E|Hex].
      * rewrite E in HF. inversion HF.
      * destruct (proj2 Hc Hex) as [e He]. discriminate.
  - split; [|intros _; eexists; reflexivity].
    intros _. right. apply Hc. eauto.
Qed.

Lemma station_temporal_bounds_raises_value_error (s : Station.t) (e : exn) :
  station_temporal_bounds s = Raise e -> e = ValueError.
Proof.
  unfold station_temporal_bounds, bind.
  assert (Hcb : forall c e0, channel_temporal_bounds c = Raise e0 -> e0 = ValueError).
  { intros c e0. unfold channel_temporal_bounds, bind, min_list, max_list.
    destruct (map TimeInterval.start (Channel.intervals c));
      [intros H; inversion H; reflexivity|].
    destruct (map TimeInterval.end_ (Channel.intervals c));
      [intros H; inversion H; reflexivity | discriminate]. }
  assert (Hcol : forall l e0, collect_bounds l = Raise e0 -> e0 = ValueError).
  { induction l as [|c l IH]; simpl; intros e0; [discriminate|].
    unfold bind. destruct (channel_temporal_bounds c) eqn:Hc.
    - destruct (collect_bounds l) eqn:Hl; [discriminate|].
      intros H; inversion H; subst. eapply IH; reflexivity.
    - intros H; inversion H; subst. eapply Hcb; eassumption. }
  destruct (collect_bounds (Station.channels s)) as [bs|e0] eqn:Hbs.
  - unfold min_list, max_list. destruct (map fst bs);
      [intros H; inversion H; reflexivity|].
    destruct (map snd bs); [intros H; inversion H; reflexivity | discriminate].
  - intros H; inversion H; subst. eapply Hcol; eassumption.
Qed.

(** X5.  [Station.temporal_bounds] raises exactly when the station has no
    channel or one of its channels has no interval, and what it raises is
    [ValueError]. *)
Theorem station_temporal_bounds_value_error (s : Station.t) :
  (station_temporal_bounds s = Raise ValueError <->
   (Station.channels s = [] \/
    exists c, In c (Station.channels s) /\ Channel.intervals c = [])) /\
  forall e, station_temporal_bounds s = Raise e -> e = ValueError.
Proof.
  split; [|apply station_temporal_bounds_raises_value_error].
  split.
  - intros H. apply station_temporal_bounds_raises. eauto.
  - intros H. apply station_temporal_bounds_raises in H. destruct H as [e He].
    rewrite He. f_equal.
    exact (station_temporal_bounds_raises_value_error s e He).
Qed.

(** ** Preparing and checking the waveform files *)


Section ForEachPost.
Context {S A : Type} (body : S -> A -> S * A * option exn).
Context (P : A -> Prop) (T : S -> S -> Prop).
Hypothesis T_refl : forall s, T s s.
Hypothesis T_trans : forall s1 s2 s3, T s1 s2 -> T s2 s3 -> T s1 s3.
Hypothesis body_state : forall s a s1 a1 e, body s a = (s1, a1, e) -> T s s1.
Hypothesis body_post : forall s a s1 a1, body s a = (s1, a1, None) -> P a1.

(** A loop that ends normally has run its body on every element. *)
Lemma for_each_post : forall l s s' l',
  for_each body s l = (s', l', None) -> Forall P l'.
Proof.
  induction l as [|a l IH]; simpl; intros s s' l' H.
  - inversion H; constructor.
  - destruct (body s a) as [[s1 a1] [x|]] eqn:Hb; [discriminate|].
    destruct (for_each body s1 l) as [[s2 l2] e2] eqn:Hf.
    inversion H; subst. constructor; eauto.
Qed.

Lemma for_each_state : forall l s s' l' e,
  for_each body s l = (s', l', e) -> T s s'.
Proof.
  induction l as [|a l IH]; simpl; intros s s' l' e H.
  - inversion H; subst; auto.
  - destruct (body s a) as [[s1 a1] [x|]] eqn:Hb.
    + inversion H; subst; eauto.
    + destruct (for_each body s1 l) as [[s2 l2] e2] eqn:Hf.
      inversion H; subst. eauto.
Qed.
End ForEachPost.

Lemma check_interval_settles r q i q' i' :
  check_interval r q i = (q', i', None) ->
  TimeInterval.status i' <> NEEDS_DOWNLOADING.
Proof.
  unfold check_interval, len_of_type_str.
  destruct (STATUS_eqb (TimeInterval.status i) NEEDS_DOWNLOADING) eqn:Hs; simpl.
  - destruct (TimeInterval.filename i) as [| |p0]; try discriminate.
    destruct (qc_fs q p0) as [f|];
      [destruct (size f =? 0)%Z;
       [|destruct (waveform f) as [st|];
         [destruct (length st =? 0)%nat;
          [|destruct (Restrictions.reject_channels_with_gaps r
                      && (1 <? length st)%nat);
            [|destruct (float_truthy (Restrictions.minimum_length r))]]|]]|];
      intros H; inversion H; subst; simpl; discriminate.
  - intros H; inversion H; subst. intros E. rewrite E in Hs. discriminate.
Qed.

(** X7.  When [_check_downloaded_data] returns normally, no interval of
    the helper is left [NEEDS_DOWNLOADING]. *)
Theorem check_downloaded_data_settles (r : Restrictions.t) (fs : filesystem)
    (stations stations' : list (station_id * Station.t)) (q : qc) :
  _check_downloaded_data r fs stations = (q, stations', None) ->
  forall i, interval_of stations' i ->
    TimeInterval.status i <> NEEDS_DOWNLOADING.
Proof.
  intros H i (kv & c & Hkv & Hc & Hi).
  unfold _check_downloaded_data in H.
  pose (Pc := fun c : Channel.t =>
          Forall (fun i => TimeInterval.status i <> NEEDS_DOWNLOADING)
                 (Channel.intervals c)).
  pose (Ps := fun kv : station_id * Station.t =>
          Forall Pc (Station.channels (snd kv))).
  assert (HF : Forall Ps stations').
  { apply (for_each_post (on_value (check_station r)) Ps) with (2 := H).
    intros s0 a s1 a1. unfold on_value, check_station.
    destruct (for_each (check_channel r) s0 (Station.channels (snd a)))
      as [[q1 l1] e1] eqn:Hf1.
    intros E; inversion E; subst. unfold Ps; simpl.
    apply (for_each_post (check_channel r) Pc) with (2 := Hf1).
    intros s2 c2 s3 c3. unfold check_channel.
    destruct (for_each (check_interval r) s2 (Channel.intervals c2))
      as [[q2 l2] e2] eqn:Hf2.
    intros E2; inversion E2; subst. unfold Pc; simpl.
    apply (for_each_post (check_interval r)
             (fun i => TimeInterval.status i <> NEEDS_DOWNLOADING))
      with (2 := Hf2).
    intros s4 i4 s5 i5. apply check_interval_settles. }
  rewrite Forall_forall in HF. specialize (HF kv Hkv). unfold Ps in HF.
  rewrite Forall_forall in HF. specialize (HF c Hc). unfold Pc in HF.
  rewrite Forall_forall in HF. exact (HF i Hi).
Qed.

(** A helper whose only pending file is missing: the interval ends
    [DOWNLOAD_FAILED]. *)
Lemma check_downloaded_data_settles_witness :
  _check_downloaded_data r_hundred_seconds empty_disk
    [(("NET", "STA"), station_pending_bhz)] =
    (mkQc empty_disk 0 0 [],
     [(("NET", "STA"),
       Station.set_channels station_pending_bhz
         [Channel.mk EmptyString "BHZ"
            [TimeInterval.mk 0 100 (Path "NET.STA..BHZ.mseed")
               DOWNLOAD_FAILED]])], None) /\
  TimeInterval.status
    (TimeInterval.mk 0 100 (Path "NET.STA..BHZ.mseed") DOWNLOAD_FAILED)
  <> NEEDS_DOWNLOADING.
Proof.
  split; [reflexivity|].
  apply (check_downloaded_data_settles r_hundred_seconds empty_disk
           [(("NET", "STA"), station_pending_bhz)]
           [(("NET", "STA"),
             Station.set_channels station_pending_bhz
               [Channel.mk EmptyString "BHZ"
                  [TimeInterval.mk 0 100 (Path "NET.STA..BHZ.mseed")
                     DOWNLOAD_FAILED]])]
           (mkQc empty_disk 0 0 []) eq_refl).
  exists (("NET", "STA"),
          Station.set_channels station_pending_bhz
            [Channel.mk EmptyString "BHZ"
               [TimeInterval.mk 0 100 (Path "NET.STA..BHZ.mseed")
                  DOWNLOAD_FAILED]]).
  exists (Channel.mk EmptyString "BHZ"
            [TimeInterval.mk 0 100 (Path "NET.STA..BHZ.mseed")
               DOWNLOAD_FAILED]).
  simpl. auto.
Defined.

(** X8.  Whether it returns or raises, [_check_downloaded_data] creates no
    file and alters none: every path holds afterwards what it held before,
    or nothing. *)
Theorem check_downloaded_data_only_deletes (r : Restrictions.t)
    (fs : filesystem) (stations stations' : list (station_id * Station.t))
    (q : qc) (e : option exn) :
  _check_downloaded_data r fs stations = (q, stations', e) ->
  only_deletes fs (qc_fs q).
Proof.
  pose (T := fun q1 q2 : qc => only_deletes (qc_fs q1) (qc_fs q2)).
  assert (Trefl : forall q0, T q0 q0) by (intros q0 p; auto).
  assert (Ttrans : forall q1 q2 q3, T q1 q2 -> T q2 q3 -> T q1 q3).
  { intros q1 q2 q3 H12 H23 p. destruct (H23 p) as [E|E]; rewrite E; auto. }
  assert (Hi : forall s i s1 i1 e0, check_interval r s i = (s1, i1, e0) -> T s s1).
  { intros s i s1 i1 e0. unfold check_interval, len_of_type_str.
    destruct (negb (STATUS_eqb (TimeInterval.status i) NEEDS_DOWNLOADING));
      [intros H; inversion H; subst; apply Trefl|].
    destruct (TimeInterval.filename i) as [| |p0];
      try (intros H; inversion H; subst; apply Trefl).
    assert (Hdel : forall a b l, T s (mkQc (safe_delete p0 (qc_fs s)) a b l)).
    { intros a b l p. simpl. unfold safe_delete.
      destruct (String.eqb p0 p); auto. }
    destruct (qc_fs s p0) as [f|];
      [destruct (size f =? 0)%Z;
       [|destruct (waveform f) as [st|];
         [destruct (length st =? 0)%nat;
          [|destruct (Restrictions.reject_channels_with_gaps r
                      && (1 <? length st)%nat);
            [|destruct (float_truthy (Restrictions.minimum_length r))]]|]]|];
      intros H; inversion H; subst; first [apply Hdel | apply Trefl | idtac].
    intros p; simpl; auto. }
  assert (Hc : forall s c s1 c1 e0, check_channel r s c = (s1, c1, e0) -> T s s1).
  { intros s c s1 c1 e0. unfold check_channel.
    destruct (for_each (check_interval r) s (Channel.intervals c))
      as [[q1 l1] e1] eqn:Hf.
    intros H; inversion H; subst.
    exact (for_each_state (check_interval r) T Trefl Ttrans Hi _ _ _ _ _ Hf). }
  assert (Hs : forall s kv s1 kv1 e0,
            on_value (check_station r) s kv = (s1, kv1, e0) -> T s s1).
  { intros s kv s1 kv1 e0. unfold on_value, check_station.
    destruct (for_each (check_channel r) s (Station.channels (snd kv)))
      as [[q1 l1] e1] eqn:Hf.
    intros H; inversion H; subst.
    exact (for_each_state (check_channel r) T Trefl Ttrans Hc _ _ _ _ _ Hf). }
  intros H.
  exact (for_each_state (on_value (check_station r)) T Trefl Ttrans Hs
           _ _ _ _ _ H).
Qed.

(** The station with one interval in each status, on its disk. *)
Lemma check_downloaded_data_only_deletes_witness :
  only_deletes fs_mixed
    (qc_fs (fst (fst (_check_downloaded_data r_hundred_seconds fs_mixed
                        stations_mixed)))).
Proof.
  apply (check_downloaded_data_only_deletes r_hundred_seconds fs_mixed
           stations_mixed
           (snd (fst (_check_downloaded_data r_hundred_seconds fs_mixed
                        stations_mixed)))
           _
           (snd (_check_downloaded_data r_hundred_seconds fs_mixed
                   stations_mixed))).
  reflexivity.
Defined.

(** ** Dictionaries *)

Section DictFacts.
Context {K V : Type} (keq : K -> K -> bool).
Hypothesis keq_spec : forall a b, keq a b = true <-> a = b.

Lemma keq_refl k : keq k k = true.
Proof. apply keq_spec. reflexivity. Qed.

Lemma keq_neq a b : a <> b -> keq a b = false.
Proof.
  intros H. destruct (keq a b) eqn:E; [|reflexivity].
  apply keq_spec in E. contradiction.
Qed.

Lemma dict_get_set (d : list (K * V)) (k k' : K) (v : V) :
  dict_get keq (dict_set keq d k v) k' =
    if keq k k' then Some v else dict_get keq d k'.
Proof.
  induction d as [|[k0 v0] d IH]; simpl.
  - reflexivity.
  - destruct (keq k0 k) eqn:E0; simpl.
    + apply keq_spec in E0. subst k0. destruct (keq k k'); reflexivity.
    + rewrite IH. destruct (keq k0 k') eqn:E1; [|reflexivity].
      apply keq_spec in E1. subst k0. rewrite keq_neq; [reflexivity|].
      intros ->. rewrite keq_refl in E0. discriminate.
Qed.

Lemma dict_get_In (d : list (K * V)) (k : K) (v : V) :
  dict_get keq d k = Some v -> In (k, v) d.
Proof.
  induction d as [|[k0 v0] d IH]; simpl; [discriminate|].
  destruct (keq k0 k) eqn:E.
  - apply keq_spec in E. intros H; inversion H; subst. auto.
  - auto.
Qed.

Lemma dict_get_not_In (d : list (K * V)) (k : K) :
  dict_get keq d k = None <-> ~ In k (map fst d).
Proof.
  induction d as [|[k0 v0] d IH]; simpl.
  - tauto.
  - destruct (keq k0 k) eqn:E.
    + apply keq_spec in E. split; [discriminate | intros H; exfalso; auto].
    + rewrite IH. split; [|tauto].
      intros H [E'|H']; [|tauto]. subst. rewrite keq_refl in E. discriminate.
Qed.

Lemma In_dict_get (d : list (K * V)) (k : K) (v : V) :
  unique_keys d -> In (k, v) d -> dict_get keq d k = Some v.
Proof.
  unfold unique_keys.
  induction d as [|[k0 v0] d IH]; simpl; intros Hnd Hin; [contradiction|].
  inversion Hnd as [|? ? Hnotin Hnd']; subst.
  destruct Hin as [E|Hin].
  - inversion E; subst. rewrite keq_refl. reflexivity.
  - destruct (keq k0 k) eqn:E; [|auto].
    apply keq_spec in E. subst. exfalso. apply Hnotin.
    apply (in_map fst) in Hin. exact Hin.
Qed.

Lemma dict_set_keys (d : list (K * V)) (k : K) (v : V) :
  unique_keys d -> unique_keys (dict_set keq d k v) /\
  forall k', In k' (map fst (dict_set keq d k v)) <->
             (k' = k \/ In k' (map fst d)).
Proof.
  unfold unique_keys.
  induction d as [|[k0 v0] d IH]; simpl; intros Hnd.
  - split; [repeat constructor; auto|]. intros k'. intuition.
  - inversion Hnd as [|? ? Hnotin Hnd']; subst.
    destruct (keq k0 k) eqn:E; simpl.
    + apply keq_spec in E. subst. split; [assumption|]. intros k'. intuition.
    + destruct (IH Hnd') as [IH1 IH2]. split.
      * constructor; [|exact IH1]. rewrite IH2. intros [E'|H']; [|auto].
        subst. rewrite keq_refl in E. discriminate.
      * intros k'. rewrite IH2. intuition.
Qed.

Lemma dict_get_del (d : list (K * V)) (k k' : K) :
  unique_keys d ->
  dict_get keq (dict_del keq d k) k' =
    if keq k k' then None else dict_get keq d k'.
Proof.
  unfold unique_keys.
  induction d as [|[k0 v0] d IH]; simpl; intros Hnd.
  - destruct (keq k k'); reflexivity.
  - inversion Hnd as [|? ? Hnotin Hnd']; subst.
    destruct (keq k0 k) eqn:E; simpl.
    + apply keq_spec in E. subst k0. destruct (keq k k') eqn:E'; [|reflexivity].
      apply keq_spec in E'. subst. apply dict_get_not_In. exact Hnotin.
    + rewrite (IH Hnd'). destruct (keq k0 k') eqn:E1; [|reflexivity].
      apply keq_spec in E1. subst k0. rewrite keq_neq; [reflexivity|].
      intros ->. rewrite keq_refl in E. discriminate.
Qed.

Lemma dict_del_keys (d : list (K * V)) (k : K) :
  unique_keys d -> unique_keys (dict_del keq d k).
Proof.
  unfold unique_keys.
  induction d as [|[k0 v0] d IH]; simpl; intros Hnd; [constructor|].
  inversion Hnd as [|? ? Hnotin Hnd']; subst.
  destruct (keq k0 k); [assumption|]. simpl. constructor; [|auto].
  intros Hin. apply Hnotin. clear - Hin.
  induction d as [|[k1 v1] d IH]; simpl in *; [contradiction|].
  destruct (keq k1 k); simpl in *; [auto | destruct Hin; auto].
Qed.
End DictFacts.

Lemma channel_id_eqb_spec (a b : channel_id) :
  channel_id_eqb a b = true <-> a = b.
Proof.
  destruct a as [a1 a2], b as [b1 b2]. unfold channel_id_eqb; simpl.
  rewrite andb_true_iff, !String.eqb_eq. split; [intros [-> ->] | intros E];
    [reflexivity | inversion E; auto].
Qed.

Lemma station_id_eqb_spec (a b : station_id) :
  station_id_eqb a b = true <-> a = b.
Proof. exact (channel_id_eqb_spec a b). Qed.

(** ** Station information beyond the claims *)



Lemma too_narrow_false (r0 : ChannelInfo) (rs : list ChannelInfo)
    (times : Q * Q) :
  too_narrow r0 rs times = false <->
  (exists r, In r (r0 :: rs) /\ ci_starttime r <= fst times) /\
  (exists r, In r (r0 :: rs) /\ snd times <= ci_endtime r).
Proof.
  unfold too_narrow, Qltb.
  destruct (fold_py_min_spec (map ci_starttime rs) (ci_starttime r0))
    as (Hin & Hle & Hall).
  destruct (fold_py_max_spec (map ci_endtime rs) (ci_endtime r0))
    as (Hin' & Hle' & Hall').
  set (lo := fold_left py_min (map ci_starttime rs) (ci_starttime r0)) in *.
  set (hi := fold_left py_max (map ci_endtime rs) (ci_endtime r0)) in *.
  assert (Hlo : exists r, In r (r0 :: rs) /\ ci_starttime r = lo).
  { destruct Hin as [E|Hin]; [exists r0; simpl; auto|].
    apply in_map_iff in Hin. destruct Hin as (r & E & Hr).
    exists r; simpl; auto. }
  assert (Hhi : exists r, In r (r0 :: rs) /\ ci_endtime r = hi).
  { destruct Hin' as [E|Hin']; [exists r0; simpl; auto|].
    apply in_map_iff in Hin'. destruct Hin' as (r & E & Hr).
    exists r; simpl; auto. }
  assert (Hlo_all : forall r, In r (r0 :: rs) -> lo <= ci_starttime r).
  { intros r [<-|Hr]; [exact Hle | apply Hall, in_map, Hr]. }
  assert (Hhi_all : forall r, In r (r0 :: rs) -> ci_endtime r <= hi).
  { intros r [<-|Hr]; [exact Hle' | apply Hall', in_map, Hr]. }
  destruct (Qlt_le_dec (fst times) lo) as [H1|H1]; simpl.
  - split; [discriminate|]. intros [(r & Hr & Hs) _].
    specialize (Hlo_all r Hr). lra.
  - destruct (Qlt_le_dec hi (snd times)) as [H2|H2].
    + split; [discriminate|]. intros [_ (r & Hr & Hs)].
      specialize (Hhi_all r Hr). lra.
    + split; [|reflexivity]. intros _.
      destruct Hlo as (r & Hr & E). destruct Hhi as (r' & Hr' & E').
      split; [exists r | exists r']; split; auto;
        [rewrite E | rewrite E']; assumption.
Qed.

Lemma c_info_In (info : list ChannelInfo) (net sta : string) (k : channel_id)
    (r : ChannelInfo) :
  In r (c_info info net sta k) <-> In r info /\ row_of net sta k r.
Proof.
  unfold c_info, row_of. rewrite filter_In, !andb_true_iff, !String.eqb_eq.
  tauto.
Qed.

(** X9.  The [for ... else] test of [prepare_stationxml_download] accepts
    an existing file exactly when, for every wanted channel, some row of that
    channel starts no later than the wanted start and some row of that
    channel ends no earlier than the wanted end; what lies between the rows
    is not looked at. *)
Theorem file_has_all_iff (info : list ChannelInfo) (net sta : string)
    (want : info_dict) :
  file_has_all info net sta want = true <->
  forall k times, In (k, times) want ->
    (exists r, In r info /\ row_of net sta k r /\
               ci_starttime r <= fst times) /\
    (exists r, In r info /\ row_of net sta k r /\
               snd times <= ci_endtime r).
Proof.
  induction want as [|[k0 t0] want IH]; simpl.
  - split; [intros _ k times [] | reflexivity].
  - destruct (c_info info net sta k0) as [|r0 rs] eqn:Hc.
    + split; [discriminate|]. intros H.
      destruct (H k0 t0 (or_introl eq_refl)) as [(r & Hr & Hrow & _) _].
      assert (Hin : In r (c_info info net sta k0)) by (apply c_info_In; auto).
      rewrite Hc in Hin. destruct Hin.
    + destruct (too_narrow r0 rs t0) eqn:Hn.
      * split; [discriminate|]. intros H.
        destruct (H k0 t0 (or_introl eq_refl))
          as [(r & Hr & Hrow & Hs) (r' & Hr' & Hrow' & He)].
        assert (F : too_narrow r0 rs t0 = false).
        { apply too_narrow_false. rewrite <- Hc.
          split; [exists r | exists r']; split; auto; apply c_info_In; auto. }
        congruence.
      * rewrite IH. apply too_narrow_false in Hn. rewrite <- Hc in Hn.
        destruct Hn as [(r & Hr & Hs) (r' & Hr' & He)].
        apply c_info_In in Hr, Hr'.
        split.
        -- intros H k times [E|Hin]; [|auto]. inversion E; subst.
           split; [exists r | exists r']; tauto.
        -- intros H k times Hin. apply H. auto.
Qed.





Lemma update_missing_spec (info : list ChannelInfo) (net sta : string) :
  forall (items have still : info_dict),
  unique_keys items ->
  (forall k t, In (k, t) items -> c_info info net sta k <> []) ->
  forall k,
    let out := update_missing info net sta items have still in
    (~ In k (map fst items) ->
       dict_get channel_id_eqb (fst out) k = dict_get channel_id_eqb have k /\
       dict_get channel_id_eqb (snd out) k = dict_get channel_id_eqb still k) /\
    (forall t, In (k, t) items ->
       if file_has_all info net sta [(k, t)]
       then dict_get channel_id_eqb (fst out) k = Some t /\
            dict_get channel_id_eqb (snd out) k = dict_get channel_id_eqb still k
       else dict_get channel_id_eqb (fst out) k = dict_get channel_id_eqb have k /\
            dict_get channel_id_eqb (snd out) k = Some t).
Proof.
  induction items as [|[k0 t0] items IH]; intros have still Hnd Hrows k; simpl.
  - split; [auto | intros t []].
  - unfold unique_keys in Hnd. simpl in Hnd.
    inversion Hnd as [|? ? Hnotin Hnd']; subst.
    assert (Hrows' : forall k t, In (k, t) items -> c_info info net sta k <> []).
    { intros k1 t1 H1. apply (Hrows k1 t1). right; exact H1. }
    assert (Hrow0 := Hrows k0 t0 (or_introl eq_refl)).
    destruct (c_info info net sta k0) as [|r0 rs] eqn:Hc; [congruence|].
    assert (Hne : forall t, In (k, t) items -> k0 <> k).
    { intros t Hin ->. apply Hnotin. apply (in_map fst) in Hin. exact Hin. }
    assert (Hneq : k0 <> k -> channel_id_eqb k0 k = false).
    { apply (keq_neq _ channel_id_eqb_spec). }
    destruct (too_narrow r0 rs t0) eqn:Hn.
    + destruct (IH have (dict_set channel_id_eqb still k0 t0) Hnd' Hrows' k)
        as [IH1 IH2].
      split.
      * intros Hk. destruct IH1 as [E1 E2]; [tauto|].
        rewrite E1, E2, (dict_get_set _ channel_id_eqb_spec).
        rewrite Hneq; tauto.
      * intros t [E|Hin].
        -- inversion E; subst k0 t0. rewrite Hc, Hn.
           destruct IH1 as [E1 E2]; [exact Hnotin|].
           rewrite E1, E2, (dict_get_set _ channel_id_eqb_spec).
           rewrite (keq_refl _ channel_id_eqb_spec). auto.
        -- specialize (IH2 t Hin).
           rewrite (dict_get_set _ channel_id_eqb_spec) in IH2.
           rewrite (Hneq (Hne t Hin)) in IH2. exact IH2.
    + destruct (IH (dict_set channel_id_eqb have k0 t0) still Hnd' Hrows' k)
        as [IH1 IH2].
      split.
      * intros Hk. destruct IH1 as [E1 E2]; [tauto|].
        rewrite E1, E2, (dict_get_set _ channel_id_eqb_spec).
        rewrite Hneq; tauto.
      * intros t [E|Hin].
        -- inversion E; subst k0 t0. rewrite Hc, Hn.
           destruct IH1 as [E1 E2]; [exact Hnotin|].
           rewrite E1, E2, (dict_get_set _ channel_id_eqb_spec).
           rewrite (keq_refl _ channel_id_eqb_spec). auto.
        -- specialize (IH2 t Hin).
           rewrite (dict_get_set _ channel_id_eqb_spec) in IH2.
           rewrite (Hneq (Hne t Hin)) in IH2. exact IH2.
Qed.

(** X12.  When the file written for a station has at least one row for
    every channel the station misses, the update of [download_stationxml]
    keeps the three dictionaries consistent: every missing channel whose rows
    reach from the wanted start to the wanted end moves to the channels had,
    every other one stays missing, and nothing else changes. *)
Theorem update_station_consistent (info : list ChannelInfo) (s : Station.t) :
  information_consistent s ->
  unique_keys (Station.miss_station_information s) ->
  (forall k t, In (k, t) (Station.miss_station_information s) ->
     c_info info (Station.network s) (Station.station s) k <> []) ->
  information_consistent (update_station info s) /\
  Station.want_station_information (update_station info s) =
    Station.want_station_information s /\
  forall k t,
    dict_get channel_id_eqb (Station.miss_station_information s) k = Some t ->
    if file_has_all info (Station.network s) (Station.station s) [(k, t)]
    then dict_get channel_id_eqb
           (Station.have_station_information (update_station info s)) k = Some t
         /\ dict_get channel_id_eqb
              (Station.miss_station_information (update_station info s)) k = None
    else dict_get channel_id_eqb
           (Station.miss_station_information (update_station info s)) k = Some t
         /\ dict_get channel_id_eqb
              (Station.have_station_information (update_station info s)) k = None.
Proof.
  intros Hcons Hnd Hrows.
  pose proof (update_missing_spec info (Station.network s) (Station.station s)
                (Station.miss_station_information s)
                (Station.have_station_information s) [] Hnd Hrows) as Hspec.
  unfold update_station.
  destruct (update_missing info (Station.network s) (Station.station s)
              (Station.miss_station_information s)
              (Station.have_station_information s) []) as [have' still'] eqn:Hu.
  cbv zeta in Hspec. cbn [fst snd] in Hspec.
  cbn [Station.want_station_information Station.have_station_information
       Station.miss_station_information Station.set_information].
  assert (Hmoved : forall k t,
    dict_get channel_id_eqb (Station.miss_station_information s) k = Some t ->
    dict_get channel_id_eqb (Station.have_station_information s) k = None /\
    if file_has_all info (Station.network s) (Station.station s) [(k, t)]
    then dict_get channel_id_eqb have' k = Some t /\
         dict_get channel_id_eqb still' k = None
    else dict_get channel_id_eqb have' k =
           dict_get channel_id_eqb (Station.have_station_information s) k /\
         dict_get channel_id_eqb still' k = Some t).
  { intros k t Hm. split.
    - specialize (Hcons k).
      destruct (dict_get channel_id_eqb (Station.want_station_information s) k).
      + destruct Hcons as [[_ H]|[H _]]; [congruence | exact H].
      + destruct Hcons as [_ H]. congruence.
    - destruct (Hspec k) as [_ H2]. apply H2.
      apply (dict_get_In _ channel_id_eqb_spec). exact Hm. }
  split; [|split; [reflexivity|]].
  - intros k. simpl. specialize (Hcons k).
    destruct (dict_get channel_id_eqb (Station.miss_station_information s) k)
      as [t|] eqn:Hm.
    + destruct (Hmoved k t Hm) as [Hh Hmv].
      destruct (dict_get channel_id_eqb (Station.want_station_information s) k)
        as [v|].
      * destruct Hcons as [[_ H]|[_ H]]; [discriminate|].
        inversion H; subst t.
        destruct (file_has_all _ _ _ _); destruct Hmv as [E1 E2];
          rewrite E1, E2; [left | right]; auto.
      * destruct Hcons as [_ H]; discriminate.
    + destruct (Hspec k) as [H1 _]. destruct H1 as [E1 E2].
      { apply (dict_get_not_In _ channel_id_eqb_spec). exact Hm. }
      rewrite E1, E2. simpl.
      destruct (dict_get channel_id_eqb (Station.want_station_information s) k).
      * destruct Hcons as [[H H']|[_ H]]; [left; auto | discriminate].
      * destruct Hcons; auto.
  - intros k t Hm. destruct (Hmoved k t Hm) as [Hh Hmv].
    destruct (file_has_all _ _ _ _); destruct Hmv as [E1 E2]; simpl.
    + split; assumption.
    + split; [assumption | congruence].
Qed.

(** The station that misses [BHZ], and a file with a row for [BHZ] that
    covers the wanted range: [BHZ] moves to the channels had. *)
Lemma update_station_consistent_witness :
  information_consistent (update_station bhz_rows station_wants_bhz) /\
  Station.have_station_information (update_station bhz_rows station_wants_bhz)
    = [((EmptyString, "BHZ"), (0, 100))] /\
  Station.miss_station_information (update_station bhz_rows station_wants_bhz)
    = [].
Proof.
  split; [|split; reflexivity].
  apply (update_station_consistent bhz_rows station_wants_bhz).
  - intros k. simpl. destruct (channel_id_eqb (EmptyString, "BHZ") k); auto.
  - repeat constructor. simpl. tauto.
  - intros k t [E|[]]. inversion E; subst. vm_compute. discriminate.
Defined.

(** ** Downloading the waveforms *)

Lemma for_each_raises {S A : Type} (body : S -> A -> S * A * option exn)
    (E : exn -> Prop) :
  (forall s a s1 a1 e, body s a = (s1, a1, Some e) -> E e) ->
  forall l s s' l' e, for_each body s l = (s', l', Some e) -> E e.
Proof.
  intros Hb. induction l as [|a l IH]; simpl; intros s s' l' e H.
  - discriminate.
  - destruct (body s a) as [[s1 a1] [x|]] eqn:Hba.
    + inversion H; subst. eauto.
    + destruct (for_each body s1 l) as [[s2 l2] e2] eqn:Hf.
      inversion H; subst. eauto.
Qed.

(** The only exception that leaves the QC pass is [TypeError]. *)
Lemma check_downloaded_data_only_type_error (r : Restrictions.t)
    (fs : filesystem) (stations : list (station_id * Station.t)) :
  forall q stations' e,
    _check_downloaded_data r fs stations = (q, stations', Some e) ->
    e = TypeError.
Proof.
  intros q stations' e. unfold _check_downloaded_data.
  apply (for_each_raises _ (fun e => e = TypeError)).
  intros s kv s1 kv1 e0. unfold on_value, check_station.
  destruct (for_each (check_channel r) s (Station.channels (snd kv)))
    as [[q1 l1] e1] eqn:Hf1.
  intros H; inversion H; subst. revert Hf1.
  apply (for_each_raises _ (fun e => e = TypeError)).
  intros s2 c2 s3 c3 e2. unfold check_channel.
  destruct (for_each (check_interval r) s2 (Channel.intervals c2))
    as [[q2 l2] e3] eqn:Hf2.
  intros H2; inversion H2; subst. revert Hf2.
  apply (for_each_raises _ (fun e => e = TypeError)).
  intros s4 i s5 i5 e4. unfold check_interval, len_of_type_str.
  destruct (negb (STATUS_eqb (TimeInterval.status i) NEEDS_DOWNLOADING));
    [discriminate|].
  destruct (TimeInterval.filename i) as [| |p0];
    try (intros H4; inversion H4; reflexivity).
  destruct (qc_fs s4 p0) as [f|];
    [destruct (size f =? 0)%Z;
     [|destruct (waveform f) as [st|];
       [destruct (length st =? 0)%nat;
        [|destruct (Restrictions.reject_channels_with_gaps r
                    && (1 <? length st)%nat);
          [|destruct (float_truthy (Restrictions.minimum_length r))]]|]]|];
    intros H4; inversion H4; reflexivity.
Qed.

Lemma chunk_interval_inv (size sr : Q) (net sta loc cha : string)
    (st : chunking) (i : TimeInterval.t) :
  chunking_ok st ->
  chunking_done (chunk_interval size sr net sta loc cha st i) =
    chunking_done st ++
    (if STATUS_eqb (TimeInterval.status i) NEEDS_DOWNLOADING
     then [(net, sta, loc, cha, TimeInterval.start i,
            TimeInterval.end_ i, TimeInterval.filename i)]
     else []) /\
  chunking_ok (chunk_interval size sr net sta loc cha st i).
Proof.
  destruct st as [[chunks curr] mb]. unfold chunking_ok, chunking_done.
  simpl. intros Hf. unfold chunk_interval.
  destruct (STATUS_eqb (TimeInterval.status i) NEEDS_DOWNLOADING); simpl.
  - destruct (Qltb _ size); simpl.
    + split; [rewrite app_assoc; reflexivity | exact Hf].
    + split.
      * rewrite concat_app. simpl. rewrite !app_nil_r, app_assoc. reflexivity.
      * apply Forall_app. split; [exact Hf|]. constructor; [|constructor].
        destruct curr; discriminate.
  - split; [rewrite app_nil_r; reflexivity | exact Hf].
Qed.

Lemma chunk_intervals_inv (size sr : Q) (net sta loc cha : string) :
  forall (l : list TimeInterval.t) (st : chunking),
  chunking_ok st ->
  chunking_done (fold_left (chunk_interval size sr net sta loc cha) l st) =
    chunking_done st ++
    map (fun i => (net, sta, loc, cha, TimeInterval.start i,
                   TimeInterval.end_ i, TimeInterval.filename i))
        (filter (fun i => STATUS_eqb (TimeInterval.status i) NEEDS_DOWNLOADING)
                l) /\
  chunking_ok (fold_left (chunk_interval size sr net sta loc cha) l st).
Proof.
  induction l as [|i l IH]; intros st H; simpl.
  - rewrite app_nil_r. auto.
  - destruct (chunk_interval_inv size sr net sta loc cha st i H) as [H1 H2].
    destruct (IH _ H2) as [IH1 IH2]. split; [|exact IH2].
    rewrite IH1, H1, <- app_assoc. f_equal.
    destruct (STATUS_eqb (TimeInterval.status i) NEEDS_DOWNLOADING);
      reflexivity.
Qed.

Lemma chunk_channels_inv (size : Q) (net sta : string) :
  forall (l : list Channel.t) (st st' : chunking),
  chunk_channels size net sta l st = Ok st' ->
  chunking_ok st ->
  chunking_done st' =
    chunking_done st ++ flat_map (pending_items_of_channel net sta) l /\
  chunking_ok st'.
Proof.
  induction l as [|c l IH]; intros st st' H Hinv; simpl in H.
  - inversion H; subst. simpl. rewrite app_nil_r. auto.
  - destruct (Channel.channel c) as [|a code] eqn:Hcode; [discriminate|].
    set (sr := match channel_sampling_rate (upper_ascii a) with
               | Some sr => sr | None => 1 end) in *.
    destruct (chunk_intervals_inv size sr net sta (Channel.location c)
                (String a code) (Channel.intervals c) st Hinv) as [H1 H2].
    destruct (IH _ _ H H2) as [IH1 IH2].
    split; [|exact IH2]. rewrite IH1, H1. simpl. rewrite <- app_assoc.
    unfold pending_items_of_channel at 2. rewrite Hcode. reflexivity.
Qed.

Lemma chunk_stations_inv (size : Q) :
  forall (l : list (station_id * Station.t)) (st st' : chunking),
  chunk_stations size (map snd l) st = Ok st' ->
  chunking_ok st ->
  chunking_done st' = chunking_done st ++ pending_items l /\
  chunking_ok st'.
Proof.
  induction l as [|kv l IH]; intros st st' H Hinv; simpl in H.
  - inversion H; subst. simpl. rewrite app_nil_r. auto.
  - unfold bind in H.
    destruct (chunk_channels size (Station.network (snd kv))
                (Station.station (snd kv)) (Station.channels (snd kv)) st)
      as [st1|] eqn:E1; [|discriminate].
    destruct (chunk_channels_inv _ _ _ _ _ _ E1 Hinv) as [H1 H2].
    destruct (IH _ _ H H2) as [IH1 IH2].
    split; [|exact IH2]. rewrite IH1, H1. simpl.
    unfold pending_items_of_station. rewrite <- app_assoc. reflexivity.
Qed.

Lemma chunk_stations_raises (size : Q) :
  forall (l : list (station_id * Station.t)) (st : chunking),
  (channel_codes_nonempty l ->
   exists st', chunk_stations size (map snd l) st = Ok st') /\
  (~ channel_codes_nonempty l ->
   chunk_stations size (map snd l) st = Raise IndexError).
Proof.
  assert (Hch : forall net sta (l : list Channel.t) st,
    ((forall c, In c l -> Channel.channel c <> EmptyString) ->
     exists st', chunk_channels size net sta l st = Ok st') /\
    (~ (forall c, In c l -> Channel.channel c <> EmptyString) ->
     chunk_channels size net sta l st = Raise IndexError)).
  { intros net sta. induction l as [|c l IH]; intros st; simpl.
    - split; [eauto|]. intros H. exfalso. apply H. intros c [].
    - destruct (Channel.channel c) as [|a code] eqn:Hc.
      + split; [|reflexivity]. intros H. exfalso. apply (H c); auto.
      + destruct (IH (fold_left
                        (chunk_interval size
                           match channel_sampling_rate (upper_ascii a) with
                           | Some sr => sr | None => 1 end
                           net sta (Channel.location c) (String a code))
                        (Channel.intervals c) st)) as [IH1 IH2].
        split.
        * intros H. apply IH1. intros c' Hc'. apply H. auto.
        * intros H. apply IH2. intros H'. apply H.
          intros c' [<-|Hc']; [congruence | auto]. }
  induction l as [|kv l IH]; intros st; simpl.
  - split; [eauto|]. intros H. exfalso. apply H. intros kv c [].
  - unfold bind.
    destruct (Hch (Station.network (snd kv)) (Station.station (snd kv))
                (Station.channels (snd kv)) st) as [H1 H2].
    split.
    + intros H. destruct H1 as [st1 E1].
      { intros c Hc. apply (H kv c); simpl; auto. }
      rewrite E1. apply IH. intros kv' c Hkv' Hc. apply (H kv' c); simpl; auto.
    + intros H.
      destruct (chunk_channels size _ _ (Station.channels (snd kv)) st)
        as [st1|e] eqn:E1.
      * apply IH. intros H'. apply H. intros kv' c [<-|Hkv'] Hc; [|eauto].
        intros Hcode. 
        assert (Hall : forall c, In c (Station.channels (snd kv)) ->
                         Channel.channel c <> EmptyString).
        { intros c0 Hc0 E0.
          assert (Hn : ~ (forall c, In c (Station.channels (snd kv)) ->
                            Channel.channel c <> EmptyString)).
          { intros Hx. exact (Hx c Hc Hcode). }
          discriminate (H2 Hn). }
        exact (Hall c Hc Hcode).
      * assert (Hn : ~ (forall c, In c (Station.channels (snd kv)) ->
                          Channel.channel c <> EmptyString)).
        { intros Hx. destruct (H1 Hx) as [st1 E]. discriminate. }
        exact (H2 Hn).
Qed.

(** X13.  [download_mseed] asks for every interval that needs downloading
    exactly once and for no other: when every channel has a non-empty code,
    the requests it adds are one per chunk, no chunk is empty, and the chunks
    put end to end are the pending intervals in the order of the stations,
    their channels and their intervals. *)
Theorem download_mseed_requests_pending_once (c : Client) (size : Q)
    (w : world) (h : Helper.t) :
  channel_codes_nonempty (Helper.stations h) ->
  exists chunks,
    w_requests (fst (fst (download_mseed c size w h))) =
      w_requests w ++ map (WaveformRequest (Helper.client_name h)) chunks /\
    concat chunks = pending_items (Helper.stations h) /\
    Forall (fun ch => ch <> []) chunks.
Proof.
  intros Hcodes. unfold download_mseed.
  destruct (proj1 (chunk_stations_raises size (Helper.stations h) ([], [], 0))
              Hcodes) as [st Hst].
  rewrite Hst.
  pose proof (chunk_stations_inv size (Helper.stations h) ([], [], 0) st
                Hst (Forall_nil _)) as Hinv.
  destruct st as [[chunks0 curr] mb]. destruct Hinv as [Hcat Hne].
  unfold chunking_done, chunking_ok in *. simpl in Hcat, Hne.
  destruct curr as [|x curr].
  - exists chunks0. rewrite app_nil_r in Hcat.
    split; [|split; assumption].
    destruct chunks0 as [|ch chunks0]; simpl.
    + rewrite app_nil_r. reflexivity.
    + destruct (_check_downloaded_data _ _ _) as [[q st'] e]. reflexivity.
  - exists (chunks0 ++ [x :: curr]).
    split; [|split].
    + destruct (chunks0 ++ [x :: curr]) eqn:E;
        [destruct chunks0; discriminate|].
      destruct (_check_downloaded_data _ _ _) as [[q st'] e]. reflexivity.
    + rewrite concat_app. simpl. rewrite app_nil_r. exact Hcat.
    + apply Forall_app. split; [exact Hne|]. constructor; [discriminate|].
      constructor.
Qed.

(** One interval pending: one request with one entry. *)
Lemma download_mseed_requests_pending_once_witness :
  exists chunks,
    w_requests (fst (fst (download_mseed (provider "STA" EmptyString "BHZ") 50
                            (mkWorld empty_disk [])
                            (Helper.mk "P1" r_no_minimum
                               [(("NET", "STA"), station_pending_bhz)]
                               (Some true))))) =
      [] ++ map (WaveformRequest "P1") chunks /\
    concat chunks =
      [("NET", "STA", EmptyString, "BHZ", 0, 100, Path "NET.STA..BHZ.mseed")] /\
    Forall (fun ch => ch <> []) chunks.
Proof.
  apply (download_mseed_requests_pending_once
           (provider "STA" EmptyString "BHZ") 50 (mkWorld empty_disk [])
           (Helper.mk "P1" r_no_minimum
              [(("NET", "STA"), station_pending_bhz)] (Some true))).
  intros kv c [<-|[]] [<-|[]]. simpl. discriminate.
Defined.

(** X14.  [download_mseed] raises [IndexError] exactly when some channel of
    some station has an empty channel code, whether or not anything needs
    downloading; it then has sent no request and changed nothing. *)
Theorem download_mseed_empty_channel_code (c : Client) (size : Q)
    (w : world) (h : Helper.t) :
  (snd (download_mseed c size w h) = Some IndexError <->
   ~ channel_codes_nonempty (Helper.stations h)) /\
  (~ channel_codes_nonempty (Helper.stations h) ->
   download_mseed c size w h = (w, h, Some IndexError)).
Proof.
  destruct (chunk_stations_raises size (Helper.stations h) ([], [], 0))
    as [H1 H2].
  assert (Hraise : ~ channel_codes_nonempty (Helper.stations h) ->
                   download_mseed c size w h = (w, h, Some IndexError)).
  { intros Hn. unfold download_mseed. rewrite (H2 Hn). reflexivity. }
  split; [|exact Hraise]. split.
  - intros Hs Hcodes. destruct (H1 Hcodes) as [[[chunks0 curr] mb] Hst].
    unfold download_mseed in Hs. rewrite Hst in Hs.
    destruct (match curr with [] => chunks0 | _ :: _ => chunks0 ++ [curr] end)
      as [|ch chunks]; [discriminate|].
    pose proof (check_downloaded_data_only_type_error
                  (Helper.restrictions h)
                  (fold_left (fun fs chunk => get_waveforms_bulk c chunk fs)
                             (ch :: chunks) (w_fs w))
                  (Helper.stations h)) as Hte.
    destruct (_check_downloaded_data _ _ _) as [[q st'] e].
    simpl in Hs. subst e. specialize (Hte _ _ _ eq_refl). discriminate.
  - intros Hn. rewrite (Hraise Hn). reflexivity.
Qed.

Lemma pending_items_nil (stations : list (station_id * Station.t)) :
  (forall i, interval_of stations i ->
     TimeInterval.status i <> NEEDS_DOWNLOADING) ->
  pending_items stations = [].
Proof.
  intros H. unfold pending_items.
  induction stations as [|kv l IH]; simpl; [reflexivity|].
  rewrite IH.
  - rewrite app_nil_r. unfold pending_items_of_station.
    assert (Hc : forall c, In c (Station.channels (snd kv)) ->
              pending_items_of_channel (Station.network (snd kv))
                (Station.station (snd kv)) c = []).
    { intros c Hc. unfold pending_items_of_channel.
      assert (Hi : forall i, In i (Channel.intervals c) ->
                TimeInterval.status i <> NEEDS_DOWNLOADING).
      { intros i Hi. apply H. exists kv, c. simpl. auto. }
      induction (Channel.intervals c) as [|i li IHi]; simpl; [reflexivity|].
      destruct (STATUS_eqb (TimeInterval.status i) NEEDS_DOWNLOADING) eqn:E.
      - apply STATUS_eqb_eq in E. exfalso. apply (Hi i); simpl; auto.
      - apply IHi. intros i' Hi'. apply Hi. simpl; auto. }
    induction (Station.channels (snd kv)) as [|c lc IHc]; simpl; [reflexivity|].
    rewrite (Hc c) by (simpl; auto). simpl. apply IHc.
    intros c' Hc'. apply Hc. simpl; auto.
  - intros i (kv' & c & Hkv & Hc & Hi). apply H. exists kv', c. simpl. auto.
Qed.

Lemma download_mseed_nothing_pending (c : Client) (size : Q) (w : world)
    (h : Helper.t) :
  channel_codes_nonempty (Helper.stations h) ->
  (forall i, interval_of (Helper.stations h) i ->
     TimeInterval.status i <> NEEDS_DOWNLOADING) ->
  download_mseed c size w h = (w, h, None).
Proof.
  intros Hcodes Hnone. unfold download_mseed.
  destruct (proj1 (chunk_stations_raises size (Helper.stations h) ([], [], 0))
              Hcodes) as [st Hst].
  rewrite Hst.
  destruct (chunk_stations_inv size (Helper.stations h) ([], [], 0) st
              Hst (Forall_nil _)) as [Hcat Hne].
  rewrite (pending_items_nil _ Hnone) in Hcat.
  destruct st as [[chunks0 curr] mb].
  unfold chunking_done, chunking_ok in *. simpl in Hcat, Hne.
  apply app_eq_nil in Hcat. destruct Hcat as [Hc0 ->].
  destruct chunks0 as [|ch chunks0]; [reflexivity|].
  inversion Hne as [|? ? Hch _]; subst. simpl in Hc0.
  apply app_eq_nil in Hc0. destruct Hc0 as [-> _]. congruence.
Qed.

(** X15.  Nothing is downloaded twice: when the storage hint plans every
    interval at a path that is already on disk (or asks to ignore it),
    [prepare_mseed_download] followed by [download_mseed] sends no request
    and leaves the disk as it is. *)
Theorem download_mseed_skips_existing_files (c : Client) (size : Q)
    (storage : mseed_storage_t) (w : world) (h : Helper.t) :
  channel_codes_nonempty (Helper.stations h) ->
  (forall net sta loc cha t0 t1 p,
     storage net sta loc cha t0 t1 = MseedPath p -> w_fs w p <> None) ->
  download_mseed c size w (prepare_mseed_download storage (w_fs w) h) =
    (w, prepare_mseed_download storage (w_fs w) h, None).
Proof.
  intros Hcodes Hdisk. apply download_mseed_nothing_pending.
  - intros kv ch Hkv Hch. simpl in Hkv.
    apply in_map_iff in Hkv. destruct Hkv as (kv0 & <- & Hkv0). simpl in Hch.
    apply in_map_iff in Hch. destruct Hch as (c0 & <- & Hc0). simpl.
    exact (Hcodes kv0 c0 Hkv0 Hc0).
  - intros i (kv & ch & Hkv & Hch & Hi). simpl in Hkv.
    apply in_map_iff in Hkv. destruct Hkv as (kv0 & <- & _). simpl in Hch.
    apply in_map_iff in Hch. destruct Hch as (c0 & <- & _). simpl in Hi.
    apply in_map_iff in Hi. destruct Hi as (i0 & <- & _).
    unfold prepare_interval, os_path_exists.
    destruct (storage _ _ _ _ _ _) as [|p] eqn:Hs; simpl; [discriminate|].
    specialize (Hdisk _ _ _ _ _ _ _ Hs).
    destruct (w_fs w p); [discriminate | congruence].
Qed.

(** The disk already holds the file of the only interval. *)
Lemma download_mseed_skips_existing_files_witness :
  let h := Helper.mk "P1" r_no_minimum
             [(("NET", "STA"), station_pending_bhz)] (Some true) in
  let storage := fun (net sta loc cha : string) (_ _ : Q) =>
                   MseedPath "NET.STA..BHZ.mseed" in
  download_mseed (provider "STA" EmptyString "BHZ") 50
    (mkWorld fs_complete [])
    (prepare_mseed_download storage fs_complete h) =
  (mkWorld fs_complete [], prepare_mseed_download storage fs_complete h, None).
Proof.
  apply (download_mseed_skips_existing_files
           (provider "STA" EmptyString "BHZ") 50
           (fun (net sta loc cha : string) (_ _ : Q) =>
              MseedPath "NET.STA..BHZ.mseed")
           (mkWorld fs_complete [])
           (Helper.mk "P1" r_no_minimum
              [(("NET", "STA"), station_pending_bhz)] (Some true))).
  - intros kv c [<-|[]] [<-|[]]. simpl. discriminate.
  - intros net sta loc cha t0 t1 p E. inversion E; subst. simpl.
    vm_compute. discriminate.
Defined.

(** ** Discarding stations *)

Lemma discard_fold_spec : forall (ids : list station_id)
    (d : list (station_id * Station.t)),
  unique_keys d ->
  unique_keys (fold_left (fun d k => dict_del station_id_eqb d k) ids d) /\
  forall k,
    dict_get station_id_eqb
      (fold_left (fun d k => dict_del station_id_eqb d k) ids d) k =
    if existsb (fun id => station_id_eqb id k) ids then None
    else dict_get station_id_eqb d k.
Proof.
  induction ids as [|id ids IH]; intros d Hd; simpl.
  - auto.
  - destruct (IH (dict_del station_id_eqb d id)
                (dict_del_keys _ d id Hd)) as [IH1 IH2].
    split; [exact IH1|]. intros k. rewrite IH2.
    rewrite (dict_get_del _ station_id_eqb_spec) by exact Hd.
    destruct (station_id_eqb id k); simpl;
      destruct (existsb _ ids); reflexivity.
Qed.

(** X16.  [discard_stations] removes exactly the stations whose identifier
    is among those given: such an identifier is no longer found, every other
    identifier is found with the station it had, identifiers that were not
    there are passed over, and the keys stay pairwise different. *)
Theorem discard_stations_lookup (h : Helper.t) (station_ids : list station_id) :
  unique_keys (Helper.stations h) ->
  unique_keys (Helper.stations (discard_stations h station_ids)) /\
  forall k,
    dict_get station_id_eqb (Helper.stations (discard_stations h station_ids)) k
    = if existsb (fun id => station_id_eqb id k) station_ids then None
      else dict_get station_id_eqb (Helper.stations h) k.
Proof.
  intros Hd. unfold discard_stations. simpl.
  exact (discard_fold_spec station_ids (Helper.stations h) Hd).
Qed.

(** Discarding a station that is there and one that is not. *)
Lemma discard_stations_lookup_witness :
  dict_get station_id_eqb
    (Helper.stations (discard_stations helper_missing_bhz
                        [("NET", "STA"); ("NET", "NONE")])) ("NET", "STA")
  = None.
Proof.
  destruct (discard_stations_lookup helper_missing_bhz
              [("NET", "STA"); ("NET", "NONE")]) as [_ H].
  - repeat constructor. simpl. tauto.
  - exact (H ("NET", "STA")).
Defined.

(** ** Sanitizing and the station requests beyond the claims *)

Lemma for_each_unchanged {S A : Type} (body : S -> A -> S * A * option exn) :
  forall (l : list A) (s : S),
  (forall a, In a l -> body s a = (s, a, None)) ->
  for_each body s l = (s, l, None).
Proof.
  induction l as [|a l IH]; intros s H; simpl; [reflexivity|].
  rewrite (H a) by (simpl; auto). rewrite IH; [reflexivity|].
  intros a' Ha'. apply H. simpl; auto.
Qed.

Lemma for_each_first_raise {S A : Type} (body : S -> A -> S * A * option exn) :
  forall (l : list A) (s : S),
  (forall a, In a l ->
     body s a = (s, a, None) \/ exists e, body s a = (s, a, Some e)) ->
  fst (for_each body s l) = (s, l) /\
  (snd (for_each body s l) = None <->
   forall a, In a l -> body s a = (s, a, None)).
Proof.
  induction l as [|a l IH]; intros s H; simpl.
  - split; [reflexivity|]. split; [intros _ a [] | reflexivity].
  - destruct (H a (or_introl eq_refl)) as [E|[e E]]; rewrite E.
    + destruct (IH s) as [IH1 IH2].
      { intros a' Ha'. apply H. simpl; auto. }
      destruct (for_each body s l) as [[s2 l2] e2]. simpl in *.
      inversion IH1; subst. split; [reflexivity|].
      rewrite IH2. split.
      * intros Hl a' [<-|Ha']; auto.
      * intros Hl a' Ha'. apply Hl. auto.
    + simpl. split; [reflexivity|]. split; [discriminate|].
      intros Hl. rewrite (Hl a (or_introl eq_refl)) in E. discriminate.
Qed.

(** X17.  [ClientDownloadHelper.sanitize_downloads] never deletes a file and
    never changes a status: it returns normally exactly when no station
    misses station information, and raises otherwise; in both cases the disk
    and the helper are as before. *)
Theorem sanitize_downloads_changes_nothing (lg : Logger) (w : world)
    (h : Helper.t) :
  fst (sanitize_downloads lg w h) = (w, h) /\
  (snd (sanitize_downloads lg w h) = None <->
   nothing_missing (Helper.stations h)).
Proof.
  unfold sanitize_downloads.
  assert (Hbody : forall kv,
    (Station.miss_station_information (snd kv) = [] /\
     on_value (station_sanitize_downloads lg) (w_fs w) kv = (w_fs w, kv, None))
    \/
    (Station.miss_station_information (snd kv) <> [] /\
     exists e, on_value (station_sanitize_downloads lg) (w_fs w) kv
               = (w_fs w, kv, Some e))).
  { intros [k s]. unfold on_value. simpl.
    destruct (Station.miss_station_information s) as [|m ms] eqn:Hm.
    - left. split; [reflexivity|].
      unfold station_sanitize_downloads. rewrite Hm. reflexivity.
    - right. split; [discriminate|].
      destruct (station_sanitize_downloads_raises lg (w_fs w) s) as [e He].
      { rewrite Hm. discriminate. }
      exists e. rewrite He. reflexivity. }
  destruct (for_each_first_raise (on_value (station_sanitize_downloads lg))
              (Helper.stations h) (w_fs w)) as [H1 H2].
  { intros kv _. destruct (Hbody kv) as [[_ E]|[_ E]]; auto. }
  destruct (for_each _ (w_fs w) (Helper.stations h)) as [[fs' st'] e].
  simpl in *. inversion H1; subst. split.
  - destruct w, h; reflexivity.
  - rewrite H2. unfold nothing_missing. split.
    + intros Hl kv Hkv. destruct (Hbody kv) as [[E _]|[_ [e0 E]]]; [exact E|].
      rewrite (Hl kv Hkv) in E. discriminate.
    + intros Hl kv Hkv. destruct (Hbody kv) as [[_ E]|[Hne _]]; [exact E|].
      exfalso. apply Hne. apply Hl. exact Hkv.
Qed.

Lemma In_info_dict_set (d : info_dict) (k : channel_id) (v : Q * Q)
    (kt : channel_id * (Q * Q)) :
  In kt (dict_set channel_id_eqb d k v) -> kt = (k, v) \/ In kt d.
Proof.
  induction d as [|[k0 v0] d IH]; simpl.
  - intros [<-|[]]. auto.
  - destruct (channel_id_eqb k0 k) eqn:E; simpl.
    + apply channel_id_eqb_spec in E. subst k0. intros [<-|H]; auto.
    + intros [<-|H]; [auto|]. destruct (IH H); auto.
Qed.

Lemma update_missing_step (info : list ChannelInfo) (net sta : string) :
  forall (items have still : info_dict),
  let out := update_missing info net sta items have still in
  (forall kt, In kt (snd out) -> In kt still \/ In kt items) /\
  (forall kt, In kt (fst out) -> In kt have \/ In kt items).
Proof.
  induction items as [|[k0 t0] items IH]; intros have still; simpl.
  - auto.
  - destruct (c_info info net sta k0) as [|r0 rs]; [simpl; auto|].
    destruct (too_narrow r0 rs t0).
    + destruct (IH have (dict_set channel_id_eqb still k0 t0)) as [H1 H2].
      split.
      * intros kt Hkt. destruct (H1 kt Hkt) as [H|H]; [|auto].
        apply In_info_dict_set in H. destruct H as [->|H]; auto.
      * intros kt Hkt. destruct (H2 kt Hkt); auto.
    + destruct (IH (dict_set channel_id_eqb have k0 t0) still) as [H1 H2].
      split.
      * intros kt Hkt. destruct (H1 kt Hkt); auto.
      * intros kt Hkt. destruct (H2 kt Hkt) as [H|H]; [|auto].
        apply In_info_dict_set in H. destruct H as [->|H]; auto.
Qed.

Lemma information_step_refl (s : Station.t) : information_step s s.
Proof. split; [destruct s; reflexivity | auto]. Qed.

Lemma information_step_trans (s1 s2 s3 : Station.t) :
  information_step s1 s2 -> information_step s2 s3 -> information_step s1 s3.
Proof.
  intros (E1 & M1 & H1) (E2 & M2 & H2). split; [|split].
  - rewrite E2. rewrite E1 at 1 2 3. destruct s1; reflexivity.
  - auto.
  - intros kt Hkt. destruct (H2 kt Hkt) as [H|H]; auto.
Qed.

Lemma update_station_step (info : list ChannelInfo) (s : Station.t) :
  information_step s (update_station info s).
Proof.
  unfold update_station.
  pose proof (update_missing_step info (Station.network s) (Station.station s)
                (Station.miss_station_information s)
                (Station.have_station_information s) []) as H.
  destruct (update_missing _ _ _ _ _ _) as [have' still']. simpl in H.
  destruct H as [H1 H2]. split; [reflexivity|]. simpl. split.
  - intros kt Hkt. destruct (H1 kt Hkt) as [[]|H]; exact H.
  - exact H2.
Qed.

Lemma dict_set_entry_step (stations : list (station_id * Station.t))
    (s_id : station_id) (s s' : Station.t) :
  dict_get station_id_eqb stations s_id = Some s ->
  information_step s s' ->
  Forall2 entry_information_step stations
    (dict_set station_id_eqb stations s_id s').
Proof.
  induction stations as [|[k0 v0] l IH]; simpl; [discriminate|].
  destruct (station_id_eqb k0 s_id) eqn:E.
  - intros H Hs; inversion H; subst. constructor.
    + split; [reflexivity | exact Hs].
    + apply Forall2_same. intros kv. split; [reflexivity|].
      apply information_step_refl.
  - intros H Hs. constructor; [|auto].
    split; [reflexivity | apply information_step_refl].
Qed.

Lemma Forall2_entry_step_trans (l1 l2 l3 : list (station_id * Station.t)) :
  Forall2 entry_information_step l1 l2 ->
  Forall2 entry_information_step l2 l3 ->
  Forall2 entry_information_step l1 l3.
Proof.
  intros H12. revert l3.
  induction H12 as [|a b la lb Hab Hl IH]; intros l3 H23;
    inversion H23 as [|b' c' lb' lc Hbc Hl']; subst.
  - constructor.
  - constructor; [|auto]. destruct Hab as [Hk Hs], Hbc as [Hk' Hs'].
    split; [congruence | eapply information_step_trans; eauto].
Qed.

Lemma update_stations_step (fs : filesystem) :
  forall (results : list (station_id * string))
         (stations stations' : list (station_id * Station.t)) (e : option exn),
  update_stations fs results stations = (stations', e) ->
  Forall2 entry_information_step stations stations'.
Proof.
  induction results as [|[s_id filename] results IH];
    intros stations stations' e; simpl.
  - intros H; inversion H; subst. apply Forall2_same. intros kv.
    split; [reflexivity | apply information_step_refl].
  - destruct (dict_get station_id_eqb stations s_id) as [station|] eqn:Hg.
    + destruct (fs filename) as [f|].
      * intros H. apply IH in H.
        eapply Forall2_entry_step_trans; [|exact H].
        apply dict_set_entry_step with (s := station); [exact Hg|].
        apply update_station_step.
      * intros H; inversion H; subst. apply Forall2_same. intros kv.
        split; [reflexivity | apply information_step_refl].
    + intros H; inversion H; subst. apply Forall2_same. intros kv.
      split; [reflexivity | apply information_step_refl].
Qed.

Lemma run_station_requests_log (c : Client) (name : string) :
  forall args w,
  exists reqs,
    w_requests (fst (run_station_requests c name args w)) =
      w_requests w ++ reqs /\
    Forall is_station_request reqs /\ length reqs = length args.
Proof.
  induction args as [|[[s_id bulk] fn] args IH]; intros w; simpl.
  - exists []. rewrite app_nil_r. auto.
  - assert (Hcons : forall w1,
      w_requests w1 = w_requests w ++ [StationRequest name bulk fn] ->
      exists reqs,
        w_requests (fst (run_station_requests c name args w1)) =
          w_requests w ++ reqs /\
        Forall is_station_request reqs /\ length reqs = S (length args)).
    { intros w1 Hw1. destruct (IH w1) as (reqs & E & F & L).
      exists (StationRequest name bulk fn :: reqs).
      rewrite E, Hw1, <- app_assoc. simpl.
      split; [reflexivity|]. split; [constructor; simpl; auto | lia]. }
    destruct fn as [filename|]; [|apply Hcons; reflexivity].
    destruct (get_stations_bulk c bulk filename _) as [fs'|];
      [|apply Hcons; reflexivity].
    destruct (Hcons (mkWorld fs' (w_requests w ++
                                  [StationRequest name bulk (Some filename)]))
                eq_refl) as (reqs & E & F & L).
    simpl in *.
    destruct (run_station_requests c name args _) as [w2 rs]. simpl in *.
    exists reqs. auto.
Qed.

(** X18.  Whatever the provider answers, [download_stationxml] leaves every
    station its identifier, coordinates, channels, intervals, filename and
    wanted channels; a channel is missed afterwards only if it was missed
    before, and had afterwards only if it was had or missed before; and the
    only requests it sends are station requests. *)
Theorem download_stationxml_step (c : Client) (w w' : world)
    (h h' : Helper.t) (e : option exn) :
  download_stationxml c w h = (w', h', e) ->
  h' = Helper.set_stations h (Helper.stations h') /\
  Forall2 entry_information_step (Helper.stations h) (Helper.stations h') /\
  exists reqs, w_requests w' = w_requests w ++ reqs /\
               Forall is_station_request reqs.
Proof.
  unfold download_stationxml.
  assert (Hsame : Forall2 entry_information_step (Helper.stations h)
                    (Helper.stations h)).
  { apply Forall2_same. intros kv.
    split; [reflexivity | apply information_step_refl]. }
  assert (Hnone : (w, h, e) = (w', h', e) ->
    h' = Helper.set_stations h (Helper.stations h') /\
    Forall2 entry_information_step (Helper.stations h) (Helper.stations h') /\
    exists reqs, w_requests w' = w_requests w ++ reqs /\
                 Forall is_station_request reqs).
  { intros H; inversion H; subst. split; [destruct h'; reflexivity|].
    split; [exact Hsame|]. exists []. rewrite app_nil_r. auto. }
  destruct (stationxml_arguments (Helper.stations h)) as [[|a args]|x].
  - intros H; inversion H; subst. apply Hnone. reflexivity.
  - destruct (run_station_requests_log c (Helper.client_name h) (a :: args) w)
      as (reqs & Hreq & Hall & _).
    destruct (run_station_requests c (Helper.client_name h) (a :: args) w)
      as [w1 results].
    destruct (update_stations (w_fs w1) results (Helper.stations h))
      as [stations' e'] eqn:Hu.
    intros H; inversion H; subst. simpl in *.
    split; [reflexivity|]. split; [exact (update_stations_step _ _ _ _ _ Hu)|].
    exists reqs. auto.
  - intros H; inversion H; subst. apply Hnone. reflexivity.
Qed.

(** The helper whose station misses [BHZ], and a provider that only knows
    [LHZ]. *)
Lemma download_stationxml_step_witness :
  Forall2 entry_information_step (Helper.stations helper_wants_bhz)
    (Helper.stations
       (snd (fst (download_stationxml client_lhz_only (mkWorld fs_mixed [])
                    helper_wants_bhz)))).
Proof.
  apply (download_stationxml_step client_lhz_only (mkWorld fs_mixed [])
           (fst (fst (download_stationxml client_lhz_only (mkWorld fs_mixed [])
                        helper_wants_bhz)))
           helper_wants_bhz
           (snd (fst (download_stationxml client_lhz_only (mkWorld fs_mixed [])
                        helper_wants_bhz)))
           (snd (download_stationxml client_lhz_only (mkWorld fs_mixed [])
                   helper_wants_bhz))).
  vm_compute; reflexivity.
Defined.

Lemma stationxml_arguments_nil (l : list (station_id * Station.t)) :
  nothing_missing l -> stationxml_arguments l = Ok [].
Proof.
  unfold nothing_missing. induction l as [|[k s0] l IH]; intros H; simpl.
  - reflexivity.
  - pose proof (H (k, s0) (or_introl eq_refl)) as E. simpl in E.
    rewrite E. apply IH.
    intros kv Hkv. apply H. simpl; auto.
Qed.

(** X19.  When no station misses station information,
    [download_stationxml] sends no request and changes nothing. *)
Theorem download_stationxml_nothing_missing (c : Client) (w : world)
    (h : Helper.t) :
  nothing_missing (Helper.stations h) ->
  download_stationxml c w h = (w, h, None).
Proof.
  intros H. unfold download_stationxml.
  rewrite (stationxml_arguments_nil _ H). reflexivity.
Qed.

Lemma download_stationxml_nothing_missing_witness :
  download_stationxml client_lhz_only (mkWorld fs_mixed [])
    (Helper.mk "P1" r_hundred_seconds [(("NET", "MIX"), station_mixed)]
       (Some true)) =
  (mkWorld fs_mixed [],
   Helper.mk "P1" r_hundred_seconds [(("NET", "MIX"), station_mixed)]
     (Some true), None).
Proof.
  apply (download_stationxml_nothing_missing client_lhz_only
           (mkWorld fs_mixed [])
           (Helper.mk "P1" r_hundred_seconds [(("NET", "MIX"), station_mixed)]
              (Some true))).
  intros kv [<-|[]]. reflexivity.
Defined.

(** ** Availability beyond the claims *)

Lemma capabilities_ok (name : string) (c : Client) :
  exists reliable matchtimeseries includeavailability,
    capabilities name c = Ok (reliable, matchtimeseries, includeavailability).
Proof.
  unfold capabilities, OVERWRITE_CAPABILITIES, dict_get.
  destruct (String.eqb "resif" (lower name)); [eauto|].
  destruct (string_in "matchtimeseries" (services_station c)); [eauto|].
  destruct (string_in "includeavailability" (services_station c)); eauto.
Qed.

(** X20.  The capabilities of a provider never raise: a provider named
    resif, in any case of letters, is unreliable and gets neither flag;
    otherwise [matchtimeseries] is used when the station service has it,
    [includeavailability] only when it has that and not [matchtimeseries],
    and the availability is reliable exactly when one of the two flags is
    set. *)
Theorem capabilities_flags (name : string) (c : Client) :
  exists reliable matchtimeseries includeavailability,
    capabilities name c = Ok (reliable, matchtimeseries, includeavailability) /\
    reliable = matchtimeseries || includeavailability /\
    matchtimeseries && includeavailability = false /\
    (lower name = "resif" -> reliable = false) /\
    (lower name <> "resif" ->
     matchtimeseries = string_in "matchtimeseries" (services_station c) /\
     includeavailability =
       negb (string_in "matchtimeseries" (services_station c)) &&
       string_in "includeavailability" (services_station c)).
Proof.
  unfold capabilities, OVERWRITE_CAPABILITIES, dict_get.
  destruct (String.eqb_spec "resif" (lower name)) as [E|E].
  - exists false, false, false. repeat split; intros; auto; congruence.
  - destruct (string_in "matchtimeseries" (services_station c)) eqn:M.
    + exists true, true, false. repeat split; intros; auto; congruence.
    + destruct (string_in "includeavailability" (services_station c)) eqn:I.
      * exists true, false, true. repeat split; intros; auto; congruence.
      * exists false, false, false. repeat split; intros; auto; congruence.
Qed.

Lemma In_station_dict_set (d : list (station_id * Station.t)) (k : station_id)
    (v : Station.t) (kv : station_id * Station.t) :
  In kv (dict_set station_id_eqb d k v) -> kv = (k, v) \/ In kv d.
Proof.
  induction d as [|[k0 v0] d IH]; simpl.
  - intros [<-|[]]. auto.
  - destruct (station_id_eqb k0 k) eqn:E; simpl.
    + apply station_id_eqb_spec in E. subst k0. intros [<-|H]; auto.
    + intros [<-|H]; [auto|]. destruct (IH H); auto.
Qed.

Lemma install_stations_inv (r : Restrictions.t) (d : Domain) (ia : bool)
    (intervals : list TimeInterval.t) (net : string) :
  forall (l : list InvStation) (stations : list (station_id * Station.t)),
  unique_keys stations -> Forall (freshly_installed d) stations ->
  unique_keys (install_stations r d ia intervals net l stations) /\
  Forall (freshly_installed d) (install_stations r d ia intervals net l stations).
Proof.
  induction l as [|station l IH]; intros stations Hu Hf; simpl; [auto|].
  destruct (match is_in_domain d with
            | Some inside =>
                negb (inside (sta_latitude station) (sta_longitude station))
            | None => false
            end) eqn:Hskip; [auto|].
  destruct (apply_priorities r
              (candidate_channels r ia intervals (sta_channels station)))
    as [|ch channels] eqn:Hch; [auto|].
  apply IH.
  - apply (dict_set_keys _ station_id_eqb_spec). exact Hu.
  - rewrite Forall_forall in *. intros kv Hkv.
    apply In_station_dict_set in Hkv. destruct Hkv as [->|Hkv]; [|auto].
    unfold freshly_installed. simpl. repeat split; try reflexivity.
    + discriminate.
    + intros inside Hin. rewrite Hin in Hskip.
      destruct (inside _ _); [reflexivity | discriminate].
Qed.

Lemma install_networks_inv (r : Restrictions.t) (d : Domain) (ia : bool)
    (intervals : list TimeInterval.t) :
  forall (inv : list InvNetwork) (stations : list (station_id * Station.t)),
  unique_keys stations -> Forall (freshly_installed d) stations ->
  unique_keys (install_networks r d ia intervals inv stations) /\
  Forall (freshly_installed d) (install_networks r d ia intervals inv stations).
Proof.
  induction inv as [|network inv IH]; intros stations Hu Hf; simpl; [auto|].
  destruct (install_stations_inv r d ia intervals (net_code network)
              (net_stations network) stations Hu Hf) as [Hu' Hf'].
  apply IH; assumption.
Qed.

(** X21.  [get_availability] on a new helper never raises; the identifiers
    it installs are pairwise different, and each is the network and station
    code of a fresh station that has at least one channel and, when the
    domain has a test, lies inside the domain; the reliability of the
    provider is recorded. *)
Theorem get_availability_installs (fuel : nat) (c : Client) (d : Domain)
    (name : string) (r : Restrictions.t) (h : Helper.t) (e : option exn) :
  get_availability fuel c d (Helper.init name r) = Some (h, e) ->
  e = None /\
  Helper.client_name h = name /\ Helper.restrictions h = r /\
  Helper.is_availability_reliable h <> None /\
  unique_keys (Helper.stations h) /\
  Forall (freshly_installed d) (Helper.stations h).
Proof.
  unfold get_availability. simpl.
  destruct (capabilities_ok name c) as (rel & m & ia & Hcap).
  rewrite Hcap.
  destruct (get_stations c _) as [inv| |].
  - destruct (Restrictions.iter fuel r) as [pairs|]; [|discriminate].
    intros H; inversion H; subst; simpl.
    destruct (install_networks_inv r d ia
                (map (fun p => TimeInterval.mk (fst p) (snd p) NoFilename NONE)
                     pairs) inv []) as [Hu Hf];
      [constructor | constructor |].
    repeat split; try reflexivity; try discriminate; assumption.
  - intros H; inversion H; subst; simpl.
    repeat split; try reflexivity; try discriminate; constructor.
  - intros H; inversion H; subst; simpl.
    repeat split; try reflexivity; try discriminate; constructor.
Qed.

(** The sample provider lists one station. *)
Lemma get_availability_installs_witness :
  Forall (freshly_installed no_domain_filter)
    (Helper.stations
       (fst (match get_availability 0 (provider "STA" EmptyString "BHZ")
                     no_domain_filter (Helper.init "P1" r_no_minimum) with
             | Some out => out
             | None => (Helper.init "P1" r_no_minimum, None)
             end))).
Proof.
  destruct (get_availability 0 (provider "STA" EmptyString "BHZ")
              no_domain_filter (Helper.init "P1" r_no_minimum))
    as [[h e]|] eqn:E; [|constructor].
  apply (get_availability_installs 0 (provider "STA" EmptyString "BHZ")
           no_domain_filter "P1" r_no_minimum h e E).
Defined.

(** ** The run over the providers beyond the claims *)

Lemma subseq_refl {A : Type} (l : list A) : subseq l l.
Proof. induction l; [apply subseq_nil | apply subseq_keep; assumption]. Qed.





Lemma download_step_without_inventory fuel cfg r st name c :
  without_inventory c ->
  download_step fuel cfg r st (name, c) =
    Some (mkRun (existing_stations st) (discarded_station_ids st)
            (report st ++ [mkEntry name []])
            (mkWorld (w_fs (run_world st))
               (w_requests (run_world st) ++ [AvailabilityRequest name])),
          None).
Proof.
  intros Hc. unfold download_step, get_availability. simpl.
  destruct (capabilities_ok name c) as (rel & m & ia & Hcap).
  rewrite Hcap.
  destruct (Hc (mkQuery (Restrictions.network r) (Restrictions.station r)
                  (Restrictions.location r) (Restrictions.channel r)
                  (Restrictions.starttime r) (Restrictions.endtime r) m ia
                  (get_query_parameters (domain cfg)))) as [E|E];
    rewrite E; reflexivity.
Qed.

(** X23.  When no provider answers the availability query with an
    inventory (no data, or an error of the service), [download] returns
    normally with one entry without data per provider, in the order of the
    providers; it has sent one availability request to each and nothing
    else, and the disk is as before. *)
Theorem download_without_inventory (fuel : nat)
    (clients : list (string * Client)) (cfg : settings) (r : Restrictions.t)
    (fs : filesystem) :
  Forall (fun nc => without_inventory (snd nc)) clients ->
  download fuel clients cfg r fs =
    Some (mkWorld fs (map (fun nc => AvailabilityRequest (fst nc)) clients),
          Ok (map (fun nc => mkEntry (fst nc) []) clients)).
Proof.
  intros Hall. unfold download.
  assert (Hloop : forall clients st,
    Forall (fun nc => without_inventory (snd nc)) clients ->
    download_loop fuel cfg r clients st =
      Some (mkRun (existing_stations st) (discarded_station_ids st)
              (report st ++ map (fun nc => mkEntry (fst nc) []) clients)
              (mkWorld (w_fs (run_world st))
                 (w_requests (run_world st) ++
                  map (fun nc => AvailabilityRequest (fst nc)) clients)),
            None)).
  { clear. induction clients as [|[name c] clients IH]; intros st Hall;
      cbn [download_loop].
    - simpl. rewrite !app_nil_r. destruct st as [? ? ? [? ?]]; reflexivity.
    - inversion Hall as [|? ? Hc Hall']; subst. simpl in Hc.
      rewrite (download_step_without_inventory fuel cfg r st name c Hc).
      rewrite (IH _ Hall'). simpl. rewrite <- !app_assoc. reflexivity. }
  rewrite (Hloop clients _ Hall). reflexivity.
Qed.

(** Two providers without data. *)
Lemma download_without_inventory_witness :
  download 0 [("P0", provider_without_data); ("P9", client_lhz_only)]
    sample_settings r_no_minimum fs_mixed =
  Some (mkWorld fs_mixed [AvailabilityRequest "P0"; AvailabilityRequest "P9"],
        Ok [mkEntry "P0" []; mkEntry "P9" []]).
Proof.
  apply (download_without_inventory 0
           [("P0", provider_without_data); ("P9", client_lhz_only)]
           sample_settings r_no_minimum fs_mixed).
  repeat constructor.
Defined.

(** ** Constructing a [DownloadHelper] *)

Lemma string_in_In (x : string) (l : list string) :
  string_in x l = true <-> In x l.
Proof.
  unfold string_in. rewrite existsb_exists. split.
  - intros (y & Hy & E). apply String.eqb_eq in E. subst. exact Hy.
  - intros H. exists x. split; [exact H | apply String.eqb_refl].
Qed.

Lemma insert_name_perm (x : string) (l : list string) :
  Permutation (insert_name x l) (x :: l).
Proof.
  induction l as [|y l IH]; simpl; [reflexivity|].
  destruct (String.leb x y); [reflexivity|].
  rewrite IH. apply perm_swap.
Qed.

Lemma sorted_names_perm (l : list string) : Permutation (sorted_names l) l.
Proof.
  induction l as [|x l IH]; simpl; [reflexivity|].
  rewrite insert_name_perm. constructor. exact IH.
Qed.

Lemma insert_name_sorted (x : string) (l : list string) :
  Sorted (fun a b => String.leb a b = true) l ->
  Sorted (fun a b => String.leb a b = true) (insert_name x l).
Proof.
  induction l as [|y l IH]; simpl; intros Hs.
  - repeat constructor.
  - destruct (String.leb x y) eqn:E.
    + constructor; [exact Hs | constructor; exact E].
    + inversion Hs as [|? ? Hs' Hhd]; subst.
      constructor; [apply IH; exact Hs'|].
      assert (Hyx : String.leb y x = true).
      { destruct (String.leb_total x y) as [H|H]; [congruence | exact H]. }
      destruct l as [|z l]; simpl.
      * constructor. exact Hyx.
      * destruct (String.leb x z); constructor;
          [exact Hyx | inversion Hhd; assumption].
Qed.

Lemma sorted_names_sorted (l : list string) :
  Sorted (fun a b => String.leb a b = true) (sorted_names l).
Proof.
  induction l as [|x l IH]; simpl; [constructor|].
  apply insert_name_sorted. exact IH.
Qed.

Lemma remove_name_In (x y : string) (l : list string) :
  In y (remove_name x l) <-> In y l /\ y <> x.
Proof.
  unfold remove_name. rewrite filter_In, negb_true_iff, String.eqb_neq.
  split; intros [H1 H2]; split; auto.
Qed.

(** X24.  Without a list of providers, the order is: IRIS first when it is
    known, ORFEUS next when it is known, then all other known providers in
    ascending order; every known provider is there, once. *)
Theorem default_providers_order (url_mappings : list string) :
  NoDup url_mappings ->
  exists rest,
    default_providers url_mappings =
      (if string_in "IRIS" url_mappings then ["IRIS"] else []) ++
      (if string_in "ORFEUS" url_mappings then ["ORFEUS"] else []) ++ rest /\
    Sorted (fun a b => String.leb a b = true) rest /\
    (forall x, In x rest <-> In x url_mappings /\ x <> "IRIS" /\ x <> "ORFEUS") /\
    Permutation (default_providers url_mappings) url_mappings.
Proof.
  intros Hnd. unfold default_providers.
  set (p1 := if string_in "IRIS" url_mappings
             then remove_name "IRIS" url_mappings else url_mappings).
  set (p2 := if string_in "ORFEUS" p1 then remove_name "ORFEUS" p1 else p1).
  assert (Hp1 : forall x, In x p1 <-> In x url_mappings /\ x <> "IRIS").
  { intros x. unfold p1.
    destruct (string_in "IRIS" url_mappings) eqn:E.
    - apply remove_name_In.
    - split; [|tauto]. intros H. split; [exact H|].
      intros ->. apply string_in_In in H. congruence. }
  assert (Ho : string_in "ORFEUS" p1 = string_in "ORFEUS" url_mappings).
  { destruct (string_in "ORFEUS" p1) eqn:E1.
    - apply string_in_In, Hp1 in E1. symmetry. apply string_in_In. tauto.
    - destruct (string_in "ORFEUS" url_mappings) eqn:E2; [|reflexivity].
      apply string_in_In in E2.
      assert (H : In "ORFEUS" p1) by (apply Hp1; split; [exact E2 | discriminate]).
      apply string_in_In in H. congruence. }
  assert (Hp2 : forall x, In x p2 <->
                  In x url_mappings /\ x <> "IRIS" /\ x <> "ORFEUS").
  { intros x. unfold p2.
    destruct (string_in "ORFEUS" p1) eqn:E.
    - rewrite remove_name_In, Hp1. tauto.
    - rewrite Hp1. split; [|tauto]. intros [H1 H2]. repeat split; auto.
      intros ->. assert (H : In "ORFEUS" p1) by (apply Hp1; auto).
      apply string_in_In in H. congruence. }
  exists (sorted_names p2). rewrite Ho.
  split; [reflexivity|]. split; [apply sorted_names_sorted|]. split.
  - intros x. rewrite <- Hp2.
    split; intros H; [apply (Permutation_in _ (sorted_names_perm p2)) in H
                     | apply (Permutation_in _ (Permutation_sym
                                                  (sorted_names_perm p2))) in H];
      exact H.
  - rewrite sorted_names_perm.
    assert (Hnd1 : NoDup p1).
    { unfold p1. destruct (string_in "IRIS" url_mappings);
        [apply NoDup_filter|]; exact Hnd. }
    assert (Hnd2 : NoDup p2).
    { unfold p2. destruct (string_in "ORFEUS" p1);
        [apply NoDup_filter|]; exact Hnd1. }
    apply NoDup_Permutation; [|exact Hnd|].
    + assert (Hnd' : NoDup ((if string_in "ORFEUS" url_mappings
                             then ["ORFEUS"] else []) ++ p2)).
      { destruct (string_in "ORFEUS" url_mappings); [|exact Hnd2].
        simpl. constructor; [|exact Hnd2]. rewrite Hp2. tauto. }
      destruct (string_in "IRIS" url_mappings); [|exact Hnd'].
      simpl. constructor; [|exact Hnd'].
      intros Hin. apply in_app_or in Hin. destruct Hin as [Hin|Hin].
      * destruct (string_in "ORFEUS" url_mappings); simpl in Hin;
          [destruct Hin as [E|[]]; discriminate | contradiction].
      * apply Hp2 in Hin. tauto.
    + intros x. rewrite !in_app_iff, Hp2. split.
      * intros [H|[H|H]]; [| |tauto].
        -- destruct (string_in "IRIS" url_mappings) eqn:E; [|contradiction].
           destruct H as [<-|[]]. apply string_in_In. exact E.
        -- destruct (string_in "ORFEUS" url_mappings) eqn:E; [|contradiction].
           destruct H as [<-|[]]. apply string_in_In. exact E.
      * intros H.
        destruct (String.eqb_spec x "IRIS") as [->|Hi].
        { left. apply string_in_In in H. rewrite H. simpl. auto. }
        destruct (String.eqb_spec x "ORFEUS") as [->|Hor].
        { right. left. apply string_in_In in H. rewrite H. simpl. auto. }
        right. right. auto.
Qed.

(** Four known providers. *)
Lemma default_providers_order_witness :
  default_providers ["USGS"; "ORFEUS"; "GFZ"; "IRIS"] =
    ["IRIS"; "ORFEUS"; "GFZ"; "USGS"] /\
  Permutation (default_providers ["USGS"; "ORFEUS"; "GFZ"; "IRIS"])
    ["USGS"; "ORFEUS"; "GFZ"; "IRIS"].
Proof.
  split; [vm_compute; reflexivity|].
  destruct (default_providers_order ["USGS"; "ORFEUS"; "GFZ"; "IRIS"])
    as (rest & _ & _ & _ & H); [|exact H].
  repeat constructor; simpl; intuition discriminate.
Defined.

Lemma dict_set_map_fst {V : Type} (d : list (string * V)) (k : string) (v : V) :
  map fst (dict_set String.eqb d k v) =
    if dict_mem String.eqb d k then map fst d else map fst d ++ [k].
Proof.
  unfold dict_mem. induction d as [|[k0 v0] d IH]; simpl; [reflexivity|].
  destruct (String.eqb k0 k) eqn:E; simpl; [reflexivity|].
  rewrite IH. destruct (dict_get String.eqb d k); reflexivity.
Qed.

Lemma get_client_name (connect : connect_t) (name : string) :
  fst (_get_client connect name) = name.
Proof.
  unfold _get_client. destruct (connect name) as [[svcs c]|]; [|reflexivity].
  destruct (_ || _); reflexivity.
Qed.

Lemma get_client_usable (connect : connect_t) (name : string) (c : Client) :
  snd (_get_client connect name) = Some c <-> usable connect name c.
Proof.
  unfold _get_client, usable.
  assert (Hin : forall x svcs,
    prefix "available" x = false ->
    (string_in x (sorted_names
                    (filter (fun _i => negb (prefix "available" _i)) svcs))
     = true <-> In x svcs)).
  { intros x svcs Hx. rewrite string_in_In. split.
    - intros H. apply (Permutation_in _ (sorted_names_perm _)) in H.
      apply filter_In in H. tauto.
    - intros H. apply (Permutation_in _ (Permutation_sym (sorted_names_perm _))).
      apply filter_In. rewrite Hx. auto. }
  destruct (connect name) as [[svcs c0]|].
  - pose proof (Hin "dataselect" svcs eq_refl) as Hd.
    pose proof (Hin "station" svcs eq_refl) as Hs.
    destruct (string_in "dataselect" _) eqn:E1;
      destruct (string_in "station" _) eqn:E2; simpl.
    + split.
      * intros H; inversion H; subst. exists svcs.
        split; [reflexivity|]. split; [apply Hd | apply Hs]; reflexivity.
      * intros (s0 & H & _). inversion H; subst. reflexivity.
    + split; [discriminate|]. intros (s0 & H & _ & H2). inversion H; subst.
      apply Hs in H2. discriminate.
    + split; [discriminate|]. intros (s0 & H & H1 & _). inversion H; subst.
      apply Hd in H1. discriminate.
    + split; [discriminate|]. intros (s0 & H & H1 & _). inversion H; subst.
      apply Hd in H1. discriminate.
  - simpl. split; [discriminate | intros (s0 & H & _); discriminate].
Qed.

Lemma string_eqb_spec_iff (a b : string) : String.eqb a b = true <-> a = b.
Proof. apply String.eqb_eq. Qed.

Lemma clients_dict_get (connect : connect_t) :
  forall (l : list string) (d : list (string * Client)) (k : string),
  (forall v, dict_get String.eqb d k = Some v ->
     snd (_get_client connect k) = Some v) ->
  dict_get String.eqb
    (fold_left (fun d kv =>
                  match snd kv with
                  | Some value => dict_set String.eqb d (fst kv) value
                  | None => d
                  end)
               (map (_get_client connect) l) d) k =
  if string_in k l then snd (_get_client connect k)
  else dict_get String.eqb d k.
Proof.
  induction l as [|x l IH]; intros d k Hd; simpl; [reflexivity|].
  rewrite IH.
  - rewrite get_client_name.
    unfold string_in in *. simpl.
    destruct (existsb (String.eqb k) l); [rewrite orb_true_r; reflexivity|].
    rewrite orb_false_r.
    destruct (snd (_get_client connect x)) as [v|] eqn:Hx.
    + rewrite (dict_get_set _ string_eqb_spec_iff), String.eqb_sym.
      destruct (String.eqb_spec k x) as [->|Hne]; [congruence | reflexivity].
    + destruct (String.eqb_spec k x) as [->|Hne]; [|reflexivity].
      destruct (dict_get String.eqb d x) as [v|] eqn:E; [|congruence].
      rewrite (Hd v eq_refl) in Hx. discriminate.
  - intros v. rewrite get_client_name.
    destruct (snd (_get_client connect x)) as [vx|] eqn:Hx; [|apply Hd].
    rewrite (dict_get_set _ string_eqb_spec_iff).
    destruct (String.eqb_spec x k) as [->|Hne]; [congruence | apply Hd].
Qed.

Lemma initialized_fold (clients : list (string * Client)) :
  forall (l : list string) (init : list (string * Client)),
  unique_keys init ->
  let res :=
    fold_left (fun initialized client =>
                 match dict_get String.eqb clients client with
                 | None => initialized
                 | Some value => dict_set String.eqb initialized client value
                 end) l init in
  unique_keys res /\
  (exists extra, map fst res = map fst init ++ extra /\ subseq extra l) /\
  forall k,
    dict_get String.eqb res k =
      match (if string_in k l then dict_get String.eqb clients k else None) with
      | Some v => Some v
      | None => dict_get String.eqb init k
      end.
Proof.
  induction l as [|x l IH]; intros init Hu; simpl.
  - split; [exact Hu|]. split; [|reflexivity].
    exists []. rewrite app_nil_r. split; [reflexivity | constructor].
  - destruct (dict_get String.eqb clients x) as [vx|] eqn:Hx.
    + destruct (IH (dict_set String.eqb init x vx)) as (H1 & (extra & H2 & H3) & H4).
      { apply (dict_set_keys _ string_eqb_spec_iff). exact Hu. }
      split; [exact H1|]. split.
      * rewrite dict_set_map_fst in H2.
        destruct (dict_mem String.eqb init x).
        -- exists extra. split; [exact H2 | apply subseq_skip; exact H3].
        -- exists (x :: extra). rewrite <- app_assoc in H2.
           split; [exact H2 | apply subseq_keep; exact H3].
      * intros k. rewrite H4, (dict_get_set _ string_eqb_spec_iff).
        unfold string_in. simpl. rewrite String.eqb_sym.
        destruct (String.eqb_spec k x) as [->|Hne]; simpl.
        -- rewrite Hx. destruct (existsb (String.eqb x) l); reflexivity.
        -- reflexivity.
    + destruct (IH init Hu) as (H1 & (extra & H2 & H3) & H4).
      split; [exact H1|]. split.
      * exists extra. split; [exact H2 | apply subseq_skip; exact H3].
      * intros k. rewrite H4. unfold string_in. simpl.
        destruct (String.eqb_spec k x) as [->|Hne]; simpl; [|reflexivity].
        rewrite Hx. destruct (existsb (String.eqb x) l); reflexivity.
Qed.

(** X25.  [__initialize_clients] raises [ValueError] exactly when there is
    no provider.  Otherwise the initialized clients are, in the order in
    which the providers were given and each once, exactly the providers that
    can be constructed and have both the dataselect and the station
    service. *)
Theorem initialize_clients_keeps_usable (connect : connect_t)
    (providers : list string) :
  (__initialize_clients connect providers = Raise ValueError <->
   providers = []) /\
  forall initialized,
    __initialize_clients connect providers = Ok initialized ->
    unique_keys initialized /\
    subseq (map fst initialized) providers /\
    forall name c,
      dict_get String.eqb initialized name = Some c <->
      In name providers /\ usable connect name c.
Proof.
  split.
  - destruct providers; simpl; split; congruence.
  - intros initialized. unfold __initialize_clients.
    destruct providers as [|p0 ps] eqn:Hp; [discriminate|]. rewrite <- Hp.
    intros H; inversion H; subst initialized. clear H.
    set (clients := fold_left _ (map (_get_client connect) providers) []).
    destruct (initialized_fold clients providers []) as (H1 & (extra & H2 & H3) & H4);
      [constructor|].
    split; [exact H1|]. split; [simpl in H2; rewrite H2; exact H3|].
    intros name c. rewrite H4. unfold clients.
    rewrite clients_dict_get by (simpl; discriminate). simpl.
    destruct (string_in name providers) eqn:E.
    + apply string_in_In in E.
      destruct (snd (_get_client connect name)) as [v|] eqn:Hg.
      * rewrite <- get_client_usable, Hg. tauto.
      * rewrite <- get_client_usable, Hg. split; [discriminate | tauto].
    + split; [discriminate|]. intros [Hin _]. apply string_in_In in Hin.
      congruence.
Qed.

(** ** [_parse_miniseed_filenames] *)

Lemma os_remove_other (p p' : string) (fs : mseed_disk) :
  p <> p' -> os_remove p fs p' = fs p'.
Proof.
  intros H. unfold os_remove. destruct (String.eqb_spec p p'); congruence.
Qed.

Lemma parse_miniseed_loop_keeps (r : Restrictions.t) (time_range : Q) :
  forall (filenames : list string) (fs fs' : mseed_disk) out,
  parse_miniseed_loop r time_range fs filenames = (fs', out) ->
  forall p st, fs p = Some (Some st) -> accepted r time_range st = true ->
    fs' p = fs p.
Proof.
  induction filenames as [|filename rest IH]; intros fs fs' out; simpl.
  - intros H; inversion H; subst. reflexivity.
  - destruct (fs filename) as [[st0|]|] eqn:Hf;
      try (intros H; inversion H; subst; reflexivity).
    assert (Hrm : accepted r time_range st0 = false ->
      parse_miniseed_loop r time_range (os_remove filename fs) rest = (fs', out) ->
      forall p st, fs p = Some (Some st) -> accepted r time_range st = true ->
        fs' p = fs p).
    { intros Hrej H p st Hp Hacc.
      assert (Hne : filename <> p) by (intros ->; congruence).
      assert (E : os_remove filename fs p = fs p)
        by (apply os_remove_other; exact Hne).
      rewrite <- E. apply (IH _ _ _ H p st); [rewrite E; exact Hp | exact Hacc]. }
    destruct (Restrictions.reject_channels_with_gaps r && (1 <? length st0)%nat)
      eqn:Hgap.
    + apply Hrm. unfold accepted. rewrite Hgap. reflexivity.
    + destruct st0 as [|tr st0]; [apply IH|].
      destruct (float_truthy (Restrictions.minimum_length r)
                && Qltb (tr_endtime tr - tr_starttime tr) time_range) eqn:Hshort.
      * apply Hrm. unfold accepted. rewrite Hgap, Hshort. reflexivity.
      * destruct (parse_miniseed_loop r time_range fs rest) as [fs1 [l|]] eqn:Hr;
          intros H; inversion H; subst; eapply IH; eauto.
Qed.

Lemma parse_miniseed_loop_spec (r : Restrictions.t) (time_range : Q) :
  forall (filenames : list string) (fs fs' : mseed_disk) l,
  parse_miniseed_loop r time_range fs filenames = (fs', Some l) ->
  forall ca, In ca l ->
    In (ca_filename ca) filenames /\
    exists tr rest,
      fs (ca_filename ca) = Some (Some (tr :: rest)) /\
      fs' (ca_filename ca) = Some (Some (tr :: rest)) /\
      accepted r time_range (tr :: rest) = true /\
      ca = mkChannelAvailability (tr_network tr) (tr_station tr)
             (tr_location tr) (tr_channel tr) (tr_starttime tr)
             (tr_endtime tr) (ca_filename ca).
Proof.
  induction filenames as [|filename rest IH]; intros fs fs' l; simpl.
  - intros H; inversion H; subst. intros ca [].
  - destruct (fs filename) as [[st0|]|] eqn:Hf; try discriminate.
    assert (Hrm :
      parse_miniseed_loop r time_range (os_remove filename fs) rest
        = (fs', Some l) ->
      forall ca, In ca l ->
        (filename = ca_filename ca \/ In (ca_filename ca) rest) /\
        exists tr rest0,
          fs (ca_filename ca) = Some (Some (tr :: rest0)) /\
          fs' (ca_filename ca) = Some (Some (tr :: rest0)) /\
          accepted r time_range (tr :: rest0) = true /\
          ca = mkChannelAvailability (tr_network tr) (tr_station tr)
                 (tr_location tr) (tr_channel tr) (tr_starttime tr)
                 (tr_endtime tr) (ca_filename ca)).
    { intros H ca Hca.
      destruct (IH _ _ _ H ca Hca) as (Hin & tr & rest0 & H1 & H2 & H3 & H4).
      split; [auto|]. exists tr, rest0.
      assert (Hne : filename <> ca_filename ca).
      { intros E. rewrite <- E in H1. unfold os_remove in H1.
        rewrite String.eqb_refl in H1. discriminate. }
      rewrite os_remove_other in H1 by exact Hne. auto. }
    assert (Hskip :
      parse_miniseed_loop r time_range fs rest = (fs', Some l) ->
      forall ca, In ca l ->
        (filename = ca_filename ca \/ In (ca_filename ca) rest) /\
        exists tr rest0,
          fs (ca_filename ca) = Some (Some (tr :: rest0)) /\
          fs' (ca_filename ca) = Some (Some (tr :: rest0)) /\
          accepted r time_range (tr :: rest0) = true /\
          ca = mkChannelAvailability (tr_network tr) (tr_station tr)
                 (tr_location tr) (tr_channel tr) (tr_starttime tr)
                 (tr_endtime tr) (ca_filename ca)).
    { intros H ca Hca.
      destruct (IH _ _ _ H ca Hca) as (Hin & Hex). auto. }
    destruct (Restrictions.reject_channels_with_gaps r && (1 <? length st0)%nat)
      eqn:Hgap; [exact Hrm|].
    destruct st0 as [|tr st0]; [exact Hskip|].
    destruct (float_truthy (Restrictions.minimum_length r)
              && Qltb (tr_endtime tr - tr_starttime tr) time_range) eqn:Hshort;
      [exact Hrm|].
    destruct (parse_miniseed_loop r time_range fs rest) as [fs1 [l1|]] eqn:Hr;
      [|discriminate].
    intros H; inversion H; subst. intros ca [<-|Hca].
    + simpl. split; [auto|]. exists tr, st0.
      assert (Hacc : accepted r time_range (tr :: st0) = true).
      { unfold accepted. rewrite Hgap, Hshort. reflexivity. }
      split; [exact Hf|]. split; [|split; [exact Hacc | reflexivity]].
      rewrite (parse_miniseed_loop_keeps _ _ _ _ _ _ Hr filename (tr :: st0) Hf Hacc).
      exact Hf.
    + destruct (IH _ _ _ Hr ca Hca) as (Hin & Hex).
      split; [right; exact Hin | exact Hex].
Qed.

(** X26.  Every entry that [_parse_miniseed_filenames] returns describes the
    first trace of one of the files given, and that file is still on disk,
    untouched; when gaps are rejected the file has that one trace only; and
    when the minimum length is not zero, the trace is at least
    [minimum_length * (endtime - starttime)] long. *)
Theorem parse_miniseed_filenames_accepts (fs fs' : mseed_disk)
    (filenames : list string) (r : Restrictions.t)
    (l : list ChannelAvailability) :
  _parse_miniseed_filenames fs filenames r = (fs', Some l) ->
  forall ca, In ca l ->
    In (ca_filename ca) filenames /\
    exists tr rest,
      fs (ca_filename ca) = Some (Some (tr :: rest)) /\
      fs' (ca_filename ca) = Some (Some (tr :: rest)) /\
      ca = mkChannelAvailability (tr_network tr) (tr_station tr)
             (tr_location tr) (tr_channel tr) (tr_starttime tr)
             (tr_endtime tr) (ca_filename ca) /\
      (Restrictions.reject_channels_with_gaps r = true -> rest = []) /\
      (float_truthy (Restrictions.minimum_length r) = true ->
       Restrictions.minimum_length r *
         (Restrictions.endtime r - Restrictions.starttime r)
       <= ca_endtime ca - ca_starttime ca).
Proof.
  unfold _parse_miniseed_filenames. intros H ca Hca.
  destruct (parse_miniseed_loop_spec _ _ _ _ _ _ H ca Hca)
    as (Hin & tr & rest & H1 & H2 & Hacc & Hca').
  split; [exact Hin|]. exists tr, rest.
  split; [exact H1|]. split; [exact H2|]. split; [exact Hca'|].
  unfold accepted in Hacc. apply andb_true_iff in Hacc. destruct Hacc as [Hg Hs].
  apply negb_true_iff in Hg, Hs. split.
  - intros Hr. rewrite Hr in Hg. simpl in Hg.
    destruct rest; [reflexivity | discriminate].
  - intros Hm. rewrite Hm in Hs. simpl in Hs. unfold Qltb in Hs.
    rewrite Hca'. simpl.
    destruct (Qlt_le_dec _ _); [discriminate | assumption].
Qed.

(** Of a complete and a short file, the complete one is returned and
    kept. *)
Lemma parse_miniseed_filenames_accepts_witness :
  snd (_parse_miniseed_filenames disk_long_and_short
         ["long.mseed"; "short.mseed"] r_hundred_seconds) =
    Some [mkChannelAvailability "NET" "STA" EmptyString "BHZ" 0 100
            "long.mseed"] /\
  forall ca,
    In ca [mkChannelAvailability "NET" "STA" EmptyString "BHZ" 0 100
             "long.mseed"] ->
    In (ca_filename ca) ["long.mseed"; "short.mseed"] /\
    exists tr rest,
      disk_long_and_short (ca_filename ca) = Some (Some (tr :: rest)) /\
      fst (_parse_miniseed_filenames disk_long_and_short
             ["long.mseed"; "short.mseed"] r_hundred_seconds) (ca_filename ca)
        = Some (Some (tr :: rest)) /\
      ca = mkChannelAvailability (tr_network tr) (tr_station tr)
             (tr_location tr) (tr_channel tr) (tr_starttime tr)
             (tr_endtime tr) (ca_filename ca) /\
      (Restrictions.reject_channels_with_gaps r_hundred_seconds = true ->
       rest = []) /\
      (float_truthy (Restrictions.minimum_length r_hundred_seconds) = true ->
       Restrictions.minimum_length r_hundred_seconds *
         (Restrictions.endtime r_hundred_seconds -
          Restrictions.starttime r_hundred_seconds)
       <= ca_endtime ca - ca_starttime ca).
Proof.
  split; [vm_compute; reflexivity|].
  apply (parse_miniseed_filenames_accepts disk_long_and_short
           (fst (_parse_miniseed_filenames disk_long_and_short
                   ["long.mseed"; "short.mseed"] r_hundred_seconds))
           ["long.mseed"; "short.mseed"] r_hundred_seconds).
  vm_compute; reflexivity.
Defined.

(** ** A downloaded interval has its file *)

Lemma NoDup_app_parts {A : Type} (l1 l2 : list A) :
  NoDup (l1 ++ l2) ->
  NoDup l1 /\ NoDup l2 /\ forall x, In x l1 -> ~ In x l2.
Proof.
  induction l1 as [|a l1 IH]; simpl; intros H.
  - split; [constructor|]. split; [exact H | intros x []].
  - inversion H as [|? ? Hnotin Hnd]; subst.
    destruct (IH Hnd) as (H1 & H2 & H3).
    split; [constructor; [|exact H1]|].
    + intros Hin. apply Hnotin. apply in_or_app. auto.
    + split; [exact H2|]. intros x [<-|Hx]; [|auto].
      intros Hin. apply Hnotin. apply in_or_app. auto.
Qed.

Section ForEachKept.
Context {S A : Type} (body : S -> A -> S * A * option exn).
Context (R : filesystem -> A -> A -> Prop) (paths : A -> list string)
        (get : S -> filesystem).
Hypothesis R_refl : forall fs a, R fs a a.
Hypothesis R_stable : forall fs fs' a a1,
  (forall p, In p (paths a) -> fs' p = fs p) -> R fs a a1 -> R fs' a a1.
Hypothesis body_kept : forall s a s1 a1 e,
  NoDup (paths a) -> body s a = (s1, a1, e) ->
  R (get s1) a a1 /\ forall p, ~ In p (paths a) -> get s1 p = get s p.

Lemma for_each_kept : forall l s s' l' e,
  NoDup (flat_map paths l) ->
  for_each body s l = (s', l', e) ->
  Forall2 (R (get s')) l l' /\
  forall p, ~ In p (flat_map paths l) -> get s' p = get s p.
Proof.
  induction l as [|a l IH]; simpl; intros s s' l' e Hnd H.
  - inversion H; subst. split; [constructor | reflexivity].
  - destruct (NoDup_app_parts _ _ Hnd) as (Hnda & Hndl & Hdisj).
    destruct (body s a) as [[s1 a1] [x|]] eqn:Hb.
    + inversion H; subst.
      destruct (body_kept _ _ _ _ _ Hnda Hb) as [Ha Hs].
      split.
      * constructor; [exact Ha|]. clear - R_refl.
        induction l; constructor; auto.
      * intros p Hp. apply Hs. intros Hin. apply Hp. apply in_or_app. auto.
    + destruct (for_each body s1 l) as [[s2 l2] e2] eqn:Hf.
      inversion H; subst.
      destruct (body_kept _ _ _ _ _ Hnda Hb) as [Ha Hs].
      destruct (IH _ _ _ _ Hndl Hf) as [Hl Hs'].
      split.
      * constructor; [|exact Hl].
        apply R_stable with (fs := get s1); [|exact Ha].
        intros p Hp. apply Hs'. apply Hdisj. exact Hp.
      * intros p Hp. rewrite Hs'.
        -- apply Hs. intros Hin. apply Hp. apply in_or_app. auto.
        -- intros Hin. apply Hp. apply in_or_app. auto.
Qed.
End ForEachKept.

Lemma Forall2_impl_In {A B : Type} (R1 R2 : A -> B -> Prop) (l : list A)
    (l' : list B) :
  (forall a b, In a l -> R1 a b -> R2 a b) ->
  Forall2 R1 l l' -> Forall2 R2 l l'.
Proof.
  intros H HF. induction HF; constructor.
  - apply H; [left; reflexivity | assumption].
  - apply IHHF. intros a b Ha. apply H. right; exact Ha.
Qed.

Lemma interval_kept_refl fs i : interval_kept fs i i.
Proof. split; [reflexivity|]. intros H1 H2. congruence. Qed.

Lemma interval_kept_stable fs fs' i i1 :
  (forall p, In p (pending_paths_of_interval i) -> fs' p = fs p) ->
  interval_kept fs i i1 -> interval_kept fs' i i1.
Proof.
  intros Hp [Hf Hk]. split; [exact Hf|]. intros Hs Hd.
  destruct (Hk Hs Hd) as (p & f & st & E1 & E2 & E3 & E4 & E5).
  exists p, f, st. split; [exact E1|]. split; [|auto].
  rewrite Hp; [exact E2|]. unfold pending_paths_of_interval.
  rewrite Hs. simpl. rewrite <- Hf, E1. simpl. auto.
Qed.

Lemma check_interval_kept r q i q' i' e :
  check_interval r q i = (q', i', e) ->
  interval_kept (qc_fs q') i i' /\
  forall p, ~ In p (pending_paths_of_interval i) -> qc_fs q' p = qc_fs q p.
Proof.
  intros H. destruct (check_interval_frame _ _ _ _ _ _ H) as [(_ & _ & Hf & _) Hfr].
  split.
  - split; [exact Hf|]. intros Hs Hd. revert H.
    unfold check_interval, len_of_type_str. rewrite Hs. simpl.
    destruct (TimeInterval.filename i) as [| |p0] eqn:Hfn;
      try (intros H; inversion H; subst; congruence).
    destruct (qc_fs q p0) as [f|] eqn:Hq;
      [destruct (Z.eqb_spec (size f) 0);
       [|destruct (waveform f) as [st|] eqn:Hw;
         [destruct st as [|tr st];
          [|destruct (Restrictions.reject_channels_with_gaps r
                      && (1 <? length (tr :: st))%nat);
            [|destruct (float_truthy (Restrictions.minimum_length r))]]|]]|];
      simpl; intros H; inversion H; subst; simpl in Hd; try discriminate;
      try congruence.
    exists p0, f, (tr :: st). simpl. repeat split; auto. discriminate.
  - intros p Hp. apply Hfr. intros [Hs Hfn]. apply Hp.
    unfold pending_paths_of_interval. rewrite Hs, Hfn. simpl. auto.
Qed.

Lemma channel_kept_stable fs fs' c c1 :
  (forall p, In p (pending_paths_of_channel c) -> fs' p = fs p) ->
  channel_kept fs c c1 -> channel_kept fs' c c1.
Proof.
  unfold channel_kept, pending_paths_of_channel. intros Hp.
  apply Forall2_impl_In. intros i i1 Hi. apply interval_kept_stable.
  intros p Hin. apply Hp. apply in_flat_map. exists i. auto.
Qed.

Lemma check_channel_kept r q c q' c' e :
  NoDup (pending_paths_of_channel c) ->
  check_channel r q c = (q', c', e) ->
  channel_kept (qc_fs q') c c' /\
  forall p, ~ In p (pending_paths_of_channel c) -> qc_fs q' p = qc_fs q p.
Proof.
  unfold check_channel, channel_kept, pending_paths_of_channel. intros Hnd.
  destruct (for_each (check_interval r) q (Channel.intervals c))
    as [[q1 l] e1] eqn:Hf.
  intros H; inversion H; subst. simpl.
  apply (for_each_kept (check_interval r) interval_kept
           pending_paths_of_interval qc_fs interval_kept_refl
           interval_kept_stable
           (fun s a s1 a1 e0 _ => check_interval_kept r s a s1 a1 e0)
           _ _ _ _ _ Hnd Hf).
Qed.

Lemma station_kept_stable fs fs' s s1 :
  (forall p, In p (pending_paths_of_station s) -> fs' p = fs p) ->
  station_kept fs s s1 -> station_kept fs' s s1.
Proof.
  unfold station_kept, pending_paths_of_station. intros Hp.
  apply Forall2_impl_In. intros c c1 Hc. apply channel_kept_stable.
  intros p Hin. apply Hp. apply in_flat_map. exists c. auto.
Qed.

Lemma check_entry_kept r q kv q' kv' e :
  NoDup (pending_paths_of_station (snd kv)) ->
  on_value (check_station r) q kv = (q', kv', e) ->
  entry_kept (qc_fs q') kv kv' /\
  forall p, ~ In p (pending_paths_of_station (snd kv)) ->
    qc_fs q' p = qc_fs q p.
Proof.
  unfold on_value, check_station, entry_kept, station_kept,
    pending_paths_of_station. intros Hnd.
  destruct (for_each (check_channel r) q (Station.channels (snd kv)))
    as [[q1 l] e1] eqn:Hf.
  intros H; inversion H; subst. simpl.
  apply (for_each_kept (check_channel r) channel_kept
           pending_paths_of_channel qc_fs
           (fun fs c => Forall2_same _ (interval_kept_refl fs) _)
           channel_kept_stable
           (fun s a s1 a1 e0 Hn => check_channel_kept r s a s1 a1 e0 Hn)
           _ _ _ _ _ Hnd Hf).
Qed.

(** X27.  When the paths planned for the intervals that need downloading
    are pairwise different, every interval that [_check_downloaded_data]
    turns into [DOWNLOADED] has, once the pass is over, its file on disk, not
    empty and with at least one trace that [obspy.read] finds. *)
Theorem check_downloaded_data_keeps_downloaded (r : Restrictions.t)
    (fs : filesystem) (stations stations' : list (station_id * Station.t))
    (q : qc) (e : option exn) :
  NoDup (pending_paths stations) ->
  _check_downloaded_data r fs stations = (q, stations', e) ->
  Forall2 (entry_kept (qc_fs q)) stations stations'.
Proof.
  unfold _check_downloaded_data, pending_paths. intros Hnd H.
  apply (for_each_kept (on_value (check_station r)) entry_kept
           (fun kv => pending_paths_of_station (snd kv)) qc_fs
           (fun fs kv =>
              Forall2_same _
                (fun c => Forall2_same _ (interval_kept_refl fs) _) _)
           (fun fs fs' kv kv1 => station_kept_stable fs fs' (snd kv) (snd kv1))
           (fun s a s1 a1 e0 Hn => check_entry_kept r s a s1 a1 e0 Hn)
           _ _ _ _ _ Hnd H).
Qed.

(** Without a minimum length, the complete file is kept and found. *)
Lemma check_downloaded_data_keeps_downloaded_witness :
  Forall2
    (entry_kept
       (qc_fs (fst (fst (_check_downloaded_data r_no_minimum fs_complete
                           [(("NET", "STA"), station_pending_bhz)])))))
    [(("NET", "STA"), station_pending_bhz)]
    (snd (fst (_check_downloaded_data r_no_minimum fs_complete
                 [(("NET", "STA"), station_pending_bhz)]))).
Proof.
  apply (check_downloaded_data_keeps_downloaded r_no_minimum fs_complete
           [(("NET", "STA"), station_pending_bhz)] _ _
           (snd (_check_downloaded_data r_no_minimum fs_complete
                   [(("NET", "STA"), station_pending_bhz)]))).
  - vm_compute. repeat constructor. simpl. tauto.
  - reflexivity.
Defined.

(** ** Running the QC pass again *)

Lemma check_interval_not_pending r q i :
  TimeInterval.status i <> NEEDS_DOWNLOADING ->
  check_interval r q i = (q, i, None).
Proof.
  intros H. unfold check_interval.
  destruct (STATUS_eqb (TimeInterval.status i) NEEDS_DOWNLOADING) eqn:E;
    [apply STATUS_eqb_eq in E; contradiction | reflexivity].
Qed.

Lemma check_downloaded_data_nothing_pending (r : Restrictions.t) (q : qc)
    (stations : list (station_id * Station.t)) :
  (forall i, interval_of stations i ->
     TimeInterval.status i <> NEEDS_DOWNLOADING) ->
  for_each (on_value (check_station r)) q stations = (q, stations, None).
Proof.
  intros H. apply for_each_unchanged. intros [k s] Hkv.
  unfold on_value, check_station. simpl.
  rewrite (for_each_unchanged (check_channel r) (Station.channels s) q).
  - destruct s; reflexivity.
  - intros c Hc. unfold check_channel.
    rewrite (for_each_unchanged (check_interval r) (Channel.intervals c) q).
    + destruct c; reflexivity.
    + intros i Hi. apply check_interval_not_pending. apply H.
      exists (k, s), c. auto.
Qed.

(** X28.  Once [_check_downloaded_data] has returned normally, running it
    again, with any restrictions, changes no status, deletes no file and
    counts no byte. *)
Theorem check_downloaded_data_again (r r' : Restrictions.t) (fs : filesystem)
    (stations stations' : list (station_id * Station.t)) (q : qc) :
  _check_downloaded_data r fs stations = (q, stations', None) ->
  _check_downloaded_data r' (qc_fs q) stations' =
    (mkQc (qc_fs q) 0 0 [], stations', None).
Proof.
  intros H. unfold _check_downloaded_data.
  apply check_downloaded_data_nothing_pending.
  intros i Hi. revert i Hi.
  pose (Pc := fun c : Channel.t =>
          Forall (fun i => TimeInterval.status i <> NEEDS_DOWNLOADING)
                 (Channel.intervals c)).
  pose (Ps := fun kv : station_id * Station.t =>
          Forall Pc (Station.channels (snd kv))).
  assert (HF : Forall Ps stations').
  { unfold _check_downloaded_data in H.
    apply (for_each_post (on_value (check_station r)) Ps) with (2 := H).
    intros s0 a s1 a1. unfold on_value, check_station.
    destruct (for_each (check_channel r) s0 (Station.channels (snd a)))
      as [[q1 l1] e1] eqn:Hf1.
    intros E; inversion E; subst. unfold Ps; simpl.
    apply (for_each_post (check_channel r) Pc) with (2 := Hf1).
    intros s2 c2 s3 c3. unfold check_channel.
    destruct (for_each (check_interval r) s2 (Channel.intervals c2))
      as [[q2 l2] e2] eqn:Hf2.
    intros E2; inversion E2; subst. unfold Pc; simpl.
    apply (for_each_post (check_interval r)
             (fun i => TimeInterval.status i <> NEEDS_DOWNLOADING))
      with (2 := Hf2).
    intros s4 i4 s5 i5. apply check_interval_settles. }
  intros i (kv & c & Hkv & Hc & Hi).
  rewrite Forall_forall in HF. specialize (HF kv Hkv). unfold Ps in HF.
  rewrite Forall_forall in HF. specialize (HF c Hc). unfold Pc in HF.
  rewrite Forall_forall in HF. exact (HF i Hi).
Qed.

(** The missing file: the first pass marks the interval, the second finds
    nothing to do. *)
Lemma check_downloaded_data_again_witness :
  _check_downloaded_data r_no_minimum empty_disk
    (snd (fst (_check_downloaded_data r_hundred_seconds empty_disk
                 [(("NET", "STA"), station_pending_bhz)]))) =
  (mkQc empty_disk 0 0 [],
   snd (fst (_check_downloaded_data r_hundred_seconds empty_disk
               [(("NET", "STA"), station_pending_bhz)])), None).
Proof.
  apply (check_downloaded_data_again r_hundred_seconds r_no_minimum empty_disk
           [(("NET", "STA"), station_pending_bhz)]
           (snd (fst (_check_downloaded_data r_hundred_seconds empty_disk
                        [(("NET", "STA"), station_pending_bhz)])))
           (mkQc empty_disk 0 0 [])).
  reflexivity.
Defined.
